(** * krakend-websocket: a shallow embedding of [handler.go]

    The WebSocket proxy middleware of [github.com/unacademy/krakend-websocket]
    is one Go file.  Its pure helpers (upgrade detection, configuration
    parsing, address derivation, auth-header extraction) are embedded as Rocq
    functions; the handlers, which talk to gin, to the websocket library and
    to the two connections, are embedded as interaction trees over the event
    signature [wsE], and their behaviour is read off the runs ([exec]) of
    those trees: the calls made, what the environment answered, and the
    value returned.

    Modelling conventions
    - A Go [string] is a [string] of bytes.  [strings.ToLower], [ToUpper] and
      [EqualFold] work on bytes as long as the bytes are below 128 and turn
      to the case tables of the [unicode] package at the first byte that is
      not; those tables are outside the repository and are a parameter
      ([unicode.Tables]), about which nothing is assumed.
    - [map[string]T] is [gmap string T]; [interface{}] holding decoded JSON is
      [Value]; [float64] is a [spec_float] at binary64 precision.
    - [int], [int64] and [time.Duration] are [Z].
    - An [error] is a message, possibly wrapping a cause ([%w]).
    - The injected [logging.Logger] is a sink: it returns nothing, no value
      or branch depends on it, and the specification leaves logging sinks
      out of scope; its calls are left out.
    - The two relay goroutines run beside the handler: starting one is an
      event ([Go]), and [proxyMessages], which each of them runs, is studied
      on its own.
    - [net/url] is outside the repository and its parser is large; [url.Parse]
      and [URL.String] are section variables, and so are the package variable
      [globalBackendRegistry], the type [proxy.Proxy] and the events of the
      handlers of the host. *)

From Stdlib Require Import ZArith NArith Ascii String List Bool Lia SpecFloat.
From Stdlib Require Import Eqdep.
From stdpp Require Import gmap strings list fin_maps.
From ITree Require Import ITree Eq.Shallow.

#[local] Set Warnings "-register-all".
#[local] Open Scope string_scope.
#[local] Open Scope Z_scope.
#[local] Open Scope list_scope.

(** ** Go's [unicode] tables *)

Module unicode.

(** What [strings] asks of the case tables: [strings.Map(unicode.ToLower, s)]
    and [strings.Map(unicode.ToUpper, s)], which decode [s] rune by rune, and
    the rune loop of [strings.EqualFold], with [unicode.SimpleFold], from the
    place where one of the two strings has a byte from 128 up. *)
Class Tables := {
  MapToLower : string -> string;
  MapToUpper : string -> string;
  EqualFoldRunes : string -> string -> bool
}.

End unicode.

(** ** Go's [strings] package *)

Module strings.

Definition byte_in (lo hi c : ascii) : bool :=
  ((N_of_ascii lo <=? N_of_ascii c) && (N_of_ascii c <=? N_of_ascii hi))%N.

(** [c += 'a' - 'A'] on an upper-case letter, else [c]. *)
Definition lowerByte (c : ascii) : ascii :=
  if byte_in "A" "Z" c then ascii_of_N (N_of_ascii c + 32) else c.

(** [c -= 'a' - 'A'] on a lower-case letter, else [c]. *)
Definition upperByte (c : ascii) : ascii :=
  if byte_in "a" "z" c then ascii_of_N (N_of_ascii c - 32) else c.

(** [c < utf8.RuneSelf] *)
Definition isASCIIByte (c : ascii) : bool := (N_of_ascii c <? 128)%N.

(** The first loop of [ToLower] and of [ToUpper]: no byte is [utf8.RuneSelf]
    or more. *)
Fixpoint isASCII (s : string) : bool :=
  match s with
  | EmptyString => true
  | String c s' => isASCIIByte c && isASCII s'
  end.

(** The byte loops of [ToLower] and [ToUpper], taken when [isASCII]. *)
Fixpoint toLowerASCII (s : string) : string :=
  match s with
  | EmptyString => EmptyString
  | String c s' => String (lowerByte c) (toLowerASCII s')
  end.

Fixpoint toUpperASCII (s : string) : string :=
  match s with
  | EmptyString => EmptyString
  | String c s' => String (upperByte c) (toUpperASCII s')
  end.

(** [strings.ToLower]: the byte loop on a string of ASCII bytes, and
    [Map(unicode.ToLower, s)] on any other. *)
Definition ToLower `{unicode.Tables} (s : string) : string :=
  if isASCII s then toLowerASCII s else unicode.MapToLower s.

(** [strings.ToUpper]: the byte loop on a string of ASCII bytes, and
    [Map(unicode.ToUpper, s)] on any other. *)
Definition ToUpper `{unicode.Tables} (s : string) : string :=
  if isASCII s then toUpperASCII s else unicode.MapToUpper s.

(** [len(s) >= len(prefix) && s[:len(prefix)] == prefix] *)
Fixpoint HasPrefix (s prefix : string) {struct prefix} : bool :=
  match prefix, s with
  | EmptyString, _ => true
  | String p prefix', String c s' => Ascii.eqb c p && HasPrefix s' prefix'
  | String _ _, EmptyString => false
  end.

(** [Index(s, substr) >= 0]: some suffix of [s] starts with [substr]. *)
Fixpoint Contains (s substr : string) : bool :=
  HasPrefix s substr ||
  match s with
  | EmptyString => false
  | String _ s' => Contains s' substr
  end.

(** One round of the loop of [strings.EqualFold] on two ASCII bytes: equal
    bytes, or, once [sr] is the smaller of the two, [sr] an upper-case letter
    and [tr] its lower-case form. *)
Definition equalFoldByte (sr tr : ascii) : bool :=
  if Ascii.eqb tr sr then true
  else
    let '(sr, tr) := if (N_of_ascii tr <? N_of_ascii sr)%N then (tr, sr) else (sr, tr) in
    byte_in "A" "Z" sr && Ascii.eqb tr (ascii_of_N (N_of_ascii sr + 32)).

(** [strings.EqualFold]: the loop stops at the first pair of ASCII bytes that
    differs, goes over to runes and [unicode.SimpleFold] at the first place
    where one of the bytes is not ASCII, and at the end asks whether both
    strings are used up. *)
Fixpoint EqualFold `{unicode.Tables} (s t : string) : bool :=
  match s, t with
  | EmptyString, EmptyString => true
  | String sr s', String tr t' =>
      if isASCIIByte sr && isASCIIByte tr
      then if equalFoldByte sr tr then EqualFold s' t' else false
      else unicode.EqualFoldRunes s t
  | _, _ => false
  end.

End strings.

(** Every byte, for checking a property of bytes by running it. *)
Definition all_bytes : list ascii := map ascii_of_nat (seq 0 256).

(** ** [net/textproto] and [net/http]: canonical header keys and [Header.Get] *)

Module textproto.

(** [validHeaderFieldByte]: the token characters of RFC 7230. *)
Definition validHeaderFieldByte (c : ascii) : bool :=
  strings.byte_in "a" "z" c || strings.byte_in "A" "Z" c || strings.byte_in "0" "9" c ||
  existsb (Ascii.eqb c)
    ["!"; "#"; "$"; "%"; "&"; "'"; "*"; "+"; "-"; "."; "^"; "_"; "`"; "|"; "~"]%char.

Fixpoint allValid (s : string) : bool :=
  match s with
  | EmptyString => true
  | String c s' => validHeaderFieldByte c && allValid s'
  end.

(** First letter upper case and upper case after each dash, the rest lower. *)
Fixpoint canonicalize (upper : bool) (s : string) : string :=
  match s with
  | EmptyString => EmptyString
  | String c s' =>
      let c := if upper then strings.upperByte c else strings.lowerByte c in
      String c (canonicalize (Ascii.eqb c "-") s')
  end.

(** A key with a byte that is no token character is returned unchanged. *)
Definition CanonicalMIMEHeaderKey (s : string) : string :=
  if allValid s then canonicalize true s else s.

End textproto.

Module http.

(** The type [http.Header], that is [map[string][]string]. *)
Abbreviation HeaderMap := (gmap string (list string)).

(** [h.Get(key)]: the first value under the canonical form of [key], or the
    empty string. *)
Definition Get (h : HeaderMap) (key : string) : string :=
  match h !! textproto.CanonicalMIMEHeaderKey key with
  | Some (v :: _) => v
  | _ => ""
  end.

Record Request := { Header : HeaderMap }.

Definition StatusBadRequest : Z := 400.
Definition StatusInternalServerError : Z := 500.

End http.

(** ** Upgrade detection *)

(** [isWebSocketUpgrade] of [handler.go]. *)
Definition isWebSocketUpgrade `{unicode.Tables} (r : http.Request) : bool :=
  let upgrade := strings.ToLower (http.Get (http.Header r) "Upgrade") in
  let connection := strings.ToLower (http.Get (http.Header r) "Connection") in
  let key := http.Get (http.Header r) "Sec-WebSocket-Key" in
  String.eqb upgrade "websocket" &&
  strings.Contains connection "upgrade" &&
  negb (String.eqb key "").

(** The reading of section 4.1 of the specification, kept apart from the code:
    the [Connection] header is a list of comma-separated entries, over all of
    its values, and one of them has to be the token [upgrade]. *)
Module UpgradeSpec.

Definition isOWS (c : ascii) : bool := Ascii.eqb c " " || Ascii.eqb c "009".

Fixpoint trimLeft (s : string) : string :=
  match s with
  | String c s' => if isOWS c then trimLeft s' else s
  | EmptyString => EmptyString
  end.

Fixpoint trimRight (s : string) : string :=
  match s with
  | EmptyString => EmptyString
  | String c s' =>
      match trimRight s' with
      | EmptyString => if isOWS c then EmptyString else String c EmptyString
      | r => String c r
      end
  end.

Definition trim (s : string) : string := trimRight (trimLeft s).

(** The entries of one header value: the pieces between commas. *)
Fixpoint entries (s : string) : list string :=
  match s with
  | EmptyString => [EmptyString]
  | String c s' =>
      if Ascii.eqb c "," then EmptyString :: entries s'
      else match entries s' with
           | e :: es => String c e :: es
           | [] => [String c EmptyString]
           end
  end.

Definition tokens (values : list string) : list string :=
  flat_map (fun v => map trim (entries v)) values.

Definition values (h : http.HeaderMap) (key : string) : list string :=
  default [] (h !! textproto.CanonicalMIMEHeaderKey key).

Definition IsUpgrade `{unicode.Tables} (h : http.HeaderMap) : bool :=
  strings.EqualFold (http.Get h "Upgrade") "websocket" &&
  existsb (fun e => strings.EqualFold e "upgrade") (tokens (values h "Connection")) &&
  negb (String.eqb (http.Get h "Sec-WebSocket-Key") "").

End UpgradeSpec.

(** ** Decoded JSON, [float64] and [time.ParseDuration] *)

Module float64.

(** binary64: 53 bits of precision, exponents below 1024. *)
Definition prec : Z := 53.
Definition emax : Z := 1024.

(** [float64(n)] for an integer [n], rounded to nearest even. *)
Definition of_Z (n : Z) : spec_float := binary_normalize prec emax n 0 false.
Definition mul : spec_float -> spec_float -> spec_float := SFmul prec emax.
Definition div : spec_float -> spec_float -> spec_float := SFdiv prec emax.

(** Truncation toward zero; nothing for NaN and the infinities. *)
Definition trunc (f : spec_float) : option Z :=
  match f with
  | S754_zero _ => Some 0
  | S754_finite s m e =>
      let a := if 0 <=? e then Z.pos m * 2 ^ e else Z.pos m / 2 ^ (- e) in
      Some (if s then - a else a)
  | S754_infinity _ | S754_nan => None
  end.

(** [int(f)] and [int64(f)].  Go leaves the result open when [f] does not fit;
    this is what amd64 gives, the smallest [int64]. *)
Definition to_int64 (f : spec_float) : Z :=
  match trunc f with
  | Some n => if (- 2 ^ 63 <=? n) && (n <? 2 ^ 63) then n else - 2 ^ 63
  | None => - 2 ^ 63
  end.

(** [uint64(f)], used by [time.ParseDuration] on values below one hour. *)
Definition to_uint64 (f : spec_float) : Z :=
  match trunc f with
  | Some n => n mod 2 ^ 64
  | None => 2 ^ 63
  end.

End float64.

(** What [encoding/json] puts in an [interface{}]. *)
Inductive Value : Type :=
| VNil
| VBool (b : bool)
| VFloat (f : spec_float)
| VString (s : string)
| VList (l : list Value)
| VMap (m : gmap string Value).

Module time.

Definition Nanosecond : Z := 1.
Definition Microsecond : Z := 1000 * Nanosecond.
Definition Millisecond : Z := 1000 * Microsecond.
Definition Second : Z := 1000 * Millisecond.
Definition Minute : Z := 60 * Second.
Definition Hour : Z := 60 * Minute.

Definition isDigit (c : ascii) : bool := strings.byte_in "0" "9" c.
Definition digit (c : ascii) : Z := Z.of_N (N_of_ascii c) - 48.

(** [leadingInt]: the leading digits as a number, and the rest; nothing on
    overflow.  Called with [x = 0]. *)
Fixpoint leadingInt (x : Z) (s : string) : option (Z * string) :=
  match s with
  | EmptyString => Some (x, s)
  | String c s' =>
      if negb (isDigit c) then Some (x, s)
      else if 2 ^ 63 / 10 <? x then None
      else
        let x := x * 10 + digit c in
        if 2 ^ 63 <? x then None else leadingInt x s'
  end.

(** [leadingFraction]: as [leadingInt], but on overflow it stops
    accumulating instead of failing.  Called with [x = 0], [scale = 1],
    [overflow = false]. *)
Fixpoint leadingFraction (x : Z) (scale : spec_float) (overflow : bool) (s : string)
  : Z * spec_float * string :=
  match s with
  | EmptyString => (x, scale, s)
  | String c s' =>
      if negb (isDigit c) then (x, scale, s)
      else if overflow then leadingFraction x scale overflow s'
      else if (2 ^ 63 - 1) / 10 <? x then leadingFraction x scale true s'
      else
        let y := x * 10 + digit c in
        if 2 ^ 63 <? y then leadingFraction x scale true s'
        else leadingFraction y (float64.mul scale (float64.of_Z 10)) false s'
  end.

(** The unit: everything up to the next [.] or digit. *)
Fixpoint spanUnit (s : string) : string * string :=
  match s with
  | EmptyString => (EmptyString, EmptyString)
  | String c s' =>
      if Ascii.eqb c "." || isDigit c then (EmptyString, s)
      else let '(u, r) := spanUnit s' in (String c u, r)
  end.

Definition micro : string := String "194" (String "181" "s").
Definition mu : string := String "206" (String "188" "s").

Definition unitMap : gmap string Z :=
  {[ "ns" := Nanosecond; "us" := Microsecond; micro := Microsecond; mu := Microsecond;
     "ms" := Millisecond; "s" := Second; "m" := Minute; "h" := Hour ]}.

(** One round of the loop of [ParseDuration]: a number, a unit, and the
    nanoseconds they make; nothing where Go returns an error. *)
Definition parseTerm (s : string) : option (Z * string) :=
  match s with
  | EmptyString => None
  | String c _ =>
      if negb (Ascii.eqb c "." || isDigit c) then None
      else
        match leadingInt 0 s with
        | None => None
        | Some (v, s1) =>
            let pre := negb (String.length s =? String.length s1)%nat in
            let '(f, scale, s2, post) :=
              match s1 with
              | String "." s1' =>
                  let '(f, scale, s2) := leadingFraction 0 (float64.of_Z 1) false s1' in
                  (f, scale, s2, negb (String.length s1' =? String.length s2)%nat)
              | _ => (0, float64.of_Z 1, s1, false)
              end in
            if negb pre && negb post then None
            else
              let '(u, s3) := spanUnit s2 in
              if String.eqb u "" then None
              else
                match unitMap !! u with
                | None => None
                | Some unit =>
                    if 2 ^ 63 / unit <? v then None
                    else
                      let v := v * unit in
                      if 0 <? f then
                        let v :=
                          v + float64.to_uint64
                                (float64.mul (float64.of_Z f)
                                   (float64.div (float64.of_Z unit) scale)) in
                        if 2 ^ 63 <? v then None else Some (v, s3)
                      else Some (v, s3)
                end
        end
  end.

(** [for s != ""]: every round shortens [s], so its length is fuel enough. *)
Fixpoint parseTerms (fuel : nat) (s : string) (d : Z) : option Z :=
  match s with
  | EmptyString => Some d
  | _ =>
      match fuel with
      | O => None
      | S fuel =>
          match parseTerm s with
          | None => None
          | Some (v, s') =>
              let d := (d + v) mod 2 ^ 64 in
              if 2 ^ 63 <? d then None else parseTerms fuel s' d
          end
      end
  end.

(** [time.ParseDuration]: the nanoseconds, or nothing where Go returns an
    error (the caller only tests [err == nil]). *)
Definition ParseDuration (s : string) : option Z :=
  let '(neg, s) :=
    match s with
    | String c s' =>
        if Ascii.eqb c "-" || Ascii.eqb c "+" then (Ascii.eqb c "-", s') else (false, s)
    | EmptyString => (false, s)
    end in
  if String.eqb s "0" then Some 0
  else if String.eqb s "" then None
  else
    match parseTerms (String.length s) s 0 with
    | None => None
    | Some d =>
        if neg then Some (- d)
        else if 2 ^ 63 - 1 <? d then None
        else Some d
    end.

End time.

(** ** Endpoint configuration *)

Definition ConfigNamespace : string := "websocket".

(** [Config]: the settings of one WebSocket endpoint. *)
Record Config := {
  ReadBufferSize : Z;
  WriteBufferSize : Z;
  HandshakeTimeout : Z;
  Compression : bool;
  Subprotocols : list string;
  BackendScheme : string;
  MaxMessageSize : Z
}.

(** [Config{}]: every field at its zero value. *)
Definition zeroConfig : Config :=
  {| ReadBufferSize := 0; WriteBufferSize := 0; HandshakeTimeout := 0;
     Compression := false; Subprotocols := []; BackendScheme := "";
     MaxMessageSize := 0 |}.

Definition set_ReadBufferSize (v : Z) (c : Config) : Config :=
  {| ReadBufferSize := v; WriteBufferSize := WriteBufferSize c;
     HandshakeTimeout := HandshakeTimeout c; Compression := Compression c;
     Subprotocols := Subprotocols c; BackendScheme := BackendScheme c;
     MaxMessageSize := MaxMessageSize c |}.

Definition set_WriteBufferSize (v : Z) (c : Config) : Config :=
  {| ReadBufferSize := ReadBufferSize c; WriteBufferSize := v;
     HandshakeTimeout := HandshakeTimeout c; Compression := Compression c;
     Subprotocols := Subprotocols c; BackendScheme := BackendScheme c;
     MaxMessageSize := MaxMessageSize c |}.

Definition set_HandshakeTimeout (v : Z) (c : Config) : Config :=
  {| ReadBufferSize := ReadBufferSize c; WriteBufferSize := WriteBufferSize c;
     HandshakeTimeout := v; Compression := Compression c;
     Subprotocols := Subprotocols c; BackendScheme := BackendScheme c;
     MaxMessageSize := MaxMessageSize c |}.

Definition set_Compression (v : bool) (c : Config) : Config :=
  {| ReadBufferSize := ReadBufferSize c; WriteBufferSize := WriteBufferSize c;
     HandshakeTimeout := HandshakeTimeout c; Compression := v;
     Subprotocols := Subprotocols c; BackendScheme := BackendScheme c;
     MaxMessageSize := MaxMessageSize c |}.

Definition set_Subprotocols (v : list string) (c : Config) : Config :=
  {| ReadBufferSize := ReadBufferSize c; WriteBufferSize := WriteBufferSize c;
     HandshakeTimeout := HandshakeTimeout c; Compression := Compression c;
     Subprotocols := v; BackendScheme := BackendScheme c;
     MaxMessageSize := MaxMessageSize c |}.

Definition set_BackendScheme (v : string) (c : Config) : Config :=
  {| ReadBufferSize := ReadBufferSize c; WriteBufferSize := WriteBufferSize c;
     HandshakeTimeout := HandshakeTimeout c; Compression := Compression c;
     Subprotocols := Subprotocols c; BackendScheme := v;
     MaxMessageSize := MaxMessageSize c |}.

Definition set_MaxMessageSize (v : Z) (c : Config) : Config :=
  {| ReadBufferSize := ReadBufferSize c; WriteBufferSize := WriteBufferSize c;
     HandshakeTimeout := HandshakeTimeout c; Compression := Compression c;
     Subprotocols := Subprotocols c; BackendScheme := BackendScheme c;
     MaxMessageSize := v |}.

(** The defaults [parseWebSocketConfig] starts from. *)
Definition defaultConfig : Config :=
  {| ReadBufferSize := 1024;
     WriteBufferSize := 1024;
     HandshakeTimeout := 10 * time.Second;
     Compression := false;
     Subprotocols := [];
     BackendScheme := "";
     MaxMessageSize := Z.shiftl 1 20 |}.

(** Go's type assertions [v, ok := m[k].(T)] on the value under a key: a
    missing key gives the nil interface, which asserts to nothing. *)
Definition assertFloat64 (v : option Value) : option spec_float :=
  match v with Some (VFloat f) => Some f | _ => None end.
Definition assertString (v : option Value) : option string :=
  match v with Some (VString s) => Some s | _ => None end.
Definition assertBool (v : option Value) : option bool :=
  match v with Some (VBool b) => Some b | _ => None end.
Definition assertSlice (v : option Value) : option (list Value) :=
  match v with Some (VList l) => Some l | _ => None end.
Definition assertMap (v : option Value) : option (gmap string Value) :=
  match v with Some (VMap m) => Some m | _ => None end.

(** [parseWebSocketConfig] of [handler.go]. *)
Definition parseWebSocketConfig (extraConfig : gmap string Value) : Config * bool :=
  match extraConfig !! ConfigNamespace with
  | None => (zeroConfig, false)
  | Some wsConfigInterface =>
      match assertMap (Some wsConfigInterface) with
      | None => (zeroConfig, false)
      | Some wsConfigMap =>
          let cfg := defaultConfig in
          let cfg :=
            match assertFloat64 (wsConfigMap !! "read_buffer_size") with
            | Some readBufferSize => set_ReadBufferSize (float64.to_int64 readBufferSize) cfg
            | None => cfg
            end in
          let cfg :=
            match assertFloat64 (wsConfigMap !! "write_buffer_size") with
            | Some writeBufferSize => set_WriteBufferSize (float64.to_int64 writeBufferSize) cfg
            | None => cfg
            end in
          let cfg :=
            match assertString (wsConfigMap !! "handshake_timeout") with
            | Some handshakeTimeoutStr =>
                match time.ParseDuration handshakeTimeoutStr with
                | Some duration => set_HandshakeTimeout duration cfg
                | None => cfg
                end
            | None => cfg
            end in
          let cfg :=
            match assertBool (wsConfigMap !! "compression") with
            | Some compression => set_Compression compression cfg
            | None => cfg
            end in
          let cfg :=
            match assertSlice (wsConfigMap !! "subprotocols") with
            | Some subprotocols =>
                foldl (fun cfg sp =>
                         match assertString (Some sp) with
                         | Some spStr => set_Subprotocols (Subprotocols cfg ++ [spStr]) cfg
                         | None => cfg
                         end) cfg subprotocols
            | None => cfg
            end in
          let cfg :=
            match assertString (wsConfigMap !! "backend_scheme") with
            | Some backendScheme => set_BackendScheme backendScheme cfg
            | None => cfg
            end in
          let cfg :=
            match assertFloat64 (wsConfigMap !! "max_message_size") with
            | Some maxMessageSize => set_MaxMessageSize (float64.to_int64 maxMessageSize) cfg
            | None => cfg
            end in
          (cfg, true)
      end
  end.

(** ** Errors, URLs and the host's configuration types *)

(** A Go [error]: [errors.New] and [fmt.Errorf] without [%w] give an
    [errorString]; [fmt.Errorf] with a final [%w] gives a [wrapError], kept
    here as the text before the cause and the cause. *)
Inductive error : Type :=
| errorString (s : string)
| wrapError (msg : string) (err : error).

Fixpoint Error (e : error) : string :=
  match e with
  | errorString s => s
  | wrapError msg err => msg +:+ Error err
  end.

Module url.

Record URL := {
  Scheme : string;
  Opaque : string;
  User : option (string * option string);
  Host : string;
  Path : string;
  RawPath : string;
  ForceQuery : bool;
  RawQuery : string;
  Fragment : string;
  RawFragment : string
}.

(** [u.Scheme = scheme] *)
Definition set_Scheme (scheme : string) (u : URL) : URL :=
  {| Scheme := scheme; Opaque := Opaque u; User := User u; Host := Host u;
     Path := Path u; RawPath := RawPath u; ForceQuery := ForceQuery u;
     RawQuery := RawQuery u; Fragment := Fragment u; RawFragment := RawFragment u |}.

End url.

Module config.

(** lura's [config.Backend] and [config.EndpointConfig], the fields read here. *)
Record BackendConfig := { Host : list string; URLPattern : string }.

Record EndpointConfig := {
  Endpoint : string;
  ExtraConfig : gmap string Value;
  Backend : list BackendConfig
}.

End config.

Module context.

(** The contexts in play: the request's own, and those derived from one by
    [context.WithCancel]. *)
Inductive Context : Type :=
| Background
| OfRequest
| WithCancel (parent : Context).

End context.

Module gin.

(** A [gin.Context], as far as the handlers read it. *)
Record Context := { Request : http.Request }.

End gin.

Module websocket.

(** A [*websocket.Conn] is a handle the library hands out. *)
Definition Conn : Type := nat.

Inductive MessageType : Type := MessageText | MessageBinary.

Inductive CompressionModeT : Type :=
| CompressionNoContextTakeover
| CompressionContextTakeover
| CompressionDisabled.

Definition StatusNormalClosure : Z := 1000.
Definition StatusInternalError : Z := 1011.

Record AcceptOptions := {
  Subprotocols : list string;
  InsecureSkipVerify : bool;
  CompressionMode : CompressionModeT
}.

Record DialOptions := { HTTPHeader : gmap string (list string) }.

End websocket.

(** [BackendRegistry]: backend names to WebSocket base URLs. *)
Record BackendRegistry := { Backends : gmap string string }.

(** [InitializeBackendRegistry]: the value of [globalBackendRegistry] after the
    call, from the service's extra configuration and the value before. *)
Definition InitializeBackendRegistry (serviceExtraConfig : gmap string Value)
    (globalBackendRegistry : option BackendRegistry) : option BackendRegistry :=
  let globalBackendRegistry :=
    match assertMap (serviceExtraConfig !! "websocket_backends") with
    | Some registryMap =>
        let backends :=
          match assertMap (registryMap !! "backends") with
          | Some backendsMap => omap (fun url => assertString (Some url)) backendsMap
          | None => ∅
          end in
        Some {| Backends := backends |}
    | None => globalBackendRegistry
    end in
  match globalBackendRegistry with
  | None => Some {| Backends := ∅ |}
  | Some r => Some r
  end.

(** ** Auth headers *)

Definition authHeaderNames : list string :=
  ["X-User-Id"; "X-User-Uid"; "X-User-Email"; "X-User-Groups"; "X-User-Type"].

Definition authHeaderPrefixes : list string :=
  ["X-User-"; "X-Auth-"; "X-Group-"].

(** The body of the [range] loop of [extractAuthHeaders]: what one header
    [key], [values] adds to [authHeaders].  The two inner loops assign
    [authHeaders[key] = values[0]], which the guard [len(values) > 0] keeps in
    range. *)
Definition extractAuthHeader `{unicode.Tables} (key : string) (values : list string)
    (authHeaders : gmap string string) : gmap string string :=
  let authHeaders :=
    foldl (fun authHeaders authHeader =>
             if strings.EqualFold key authHeader && (0 <? length values)%nat
             then <[key := hd "" values]> authHeaders
             else authHeaders)
          authHeaders authHeaderNames in
  foldl (fun authHeaders prefix =>
           if strings.HasPrefix (strings.ToUpper key) (strings.ToUpper prefix)
              && (0 <? length values)%nat
           then <[key := hd "" values]> authHeaders
           else authHeaders)
        authHeaders authHeaderPrefixes.

(** [extractAuthHeaders] of [handler.go]: the [range] over the map is a fold.
    Go leaves the order of the visit open; [extractAuthHeadersIn] is the same
    loop over the entries in a given order, and
    [extractAuthHeaders_any_order] shows the order does not matter. *)
Definition extractAuthHeaders `{unicode.Tables} (headers : gmap string (list string))
  : gmap string string :=
  map_fold extractAuthHeader ∅ headers.

Definition extractAuthHeadersIn `{unicode.Tables} (entries : list (string * list string))
  : gmap string string :=
  foldl (fun authHeaders '(key, values) => extractAuthHeader key values authHeaders) ∅ entries.

(** Whether one of the tests of the two inner loops holds of a header name. *)
Definition isAuthHeader `{unicode.Tables} (key : string) : bool :=
  existsb (strings.EqualFold key) authHeaderNames
  || existsb (fun prefix => strings.HasPrefix (strings.ToUpper key) (strings.ToUpper prefix))
       authHeaderPrefixes.

(** ** Sample data *)

(** A stand-in for the case tables in the examples.  The examples are in
    ASCII and never reach it; it leaves strings as they are and folds
    nothing. *)
Module SimpleUnicode.

Definition tables : unicode.Tables :=
  {| unicode.MapToLower := fun s => s;
     unicode.MapToUpper := fun s => s;
     unicode.EqualFoldRunes := String.eqb |}.

End SimpleUnicode.

(** A small URL reader for the examples: [scheme://host] and whatever follows
    from the first slash on. *)
Module SimpleURL.

(** The text before and after the first [sep] in [s]. *)
Fixpoint cut (sep s : string) : option (string * string) :=
  if strings.HasPrefix s sep
  then Some (EmptyString, String.substring (String.length sep) (String.length s) s)
  else
    match s with
    | EmptyString => None
    | String c s' =>
        match cut sep s' with
        | Some (before, after) => Some (String c before, after)
        | None => None
        end
    end.

Definition schemeOf (s : string) : string :=
  match cut "://" s with Some (scheme, _) => scheme | None => EmptyString end.

Definition Parse (s : string) : url.URL + error :=
  match cut "://" s with
  | None => inr (errorString "missing protocol scheme")
  | Some (scheme, rest) =>
      let '(host, path) :=
        match cut "/" rest with
        | Some (host, path) => (host, String "/" path)
        | None => (rest, EmptyString)
        end in
      inl {| url.Scheme := scheme; url.Opaque := ""; url.User := None; url.Host := host;
             url.Path := path; url.RawPath := ""; url.ForceQuery := false;
             url.RawQuery := ""; url.Fragment := ""; url.RawFragment := "" |}
  end.

Definition String_ (u : url.URL) : string :=
  url.Scheme u +:+ "://" +:+ url.Host u +:+ url.Path u.

End SimpleURL.

Module Sample.

(** A request the code takes for an upgrade although no entry of its
    [Connection] header is the token [upgrade]. *)
Definition upgradedRequest : http.Request :=
  {| http.Header :=
       {[ "Upgrade" := ["websocket"];
          "Connection" := ["upgraded"];
          "Sec-Websocket-Key" := ["dGhlIHNhbXBsZSBub25jZQ=="] ]} |}.

(** A request whose [Connection] header has two values, the token in the
    second. *)
Definition twoLineRequest : http.Request :=
  {| http.Header :=
       {[ "Upgrade" := ["websocket"];
          "Connection" := ["keep-alive"; "Upgrade"];
          "Sec-Websocket-Key" := ["dGhlIHNhbXBsZSBub25jZQ=="] ]} |}.

(** An upgrade request as a browser sends it, with an identity header. *)
Definition upgradeRequest : http.Request :=
  {| http.Header :=
       {[ "Upgrade" := ["websocket"];
          "Connection" := ["keep-alive, Upgrade"];
          "Sec-Websocket-Key" := ["dGhlIHNhbXBsZSBub25jZQ=="];
          "X-User-Id" := ["u1"] ]} |}.

(** An ordinary request. *)
Definition plainRequest : http.Request :=
  {| http.Header := {[ "Accept" := ["application/json"] ]} |}.

(** [extra_config] with a timeout that does not parse and a buffer size that
    is no number. *)
Definition lenientConfig : gmap string Value :=
  {[ "websocket" :=
       VMap {[ "handshake_timeout" := VString "invalid";
               "read_buffer_size" := VString "big";
               "compression" := VBool false ]} ]}.

Definition compressionConfig : gmap string Value :=
  {[ "websocket" := VMap {[ "compression" := VBool true ]} ]}.

(** A registry whose entry for [albus] is an encrypted address. *)
Definition secureRegistry : BackendRegistry :=
  {| Backends := {[ "albus" := "wss://chat.internal:8443" ]} |}.

(** A registry whose entry for [albus] has no scheme. *)
Definition bareRegistry : BackendRegistry :=
  {| Backends := {[ "albus" := "albus.internal:9000" ]} |}.

(** An endpoint in the named-backend shape, with no [backend] array. *)
Definition namedEndpoint : config.EndpointConfig :=
  {| config.Endpoint := "/api/v1/albus/chat/";
     config.ExtraConfig :=
       {[ "websocket" := VMap ∅;
          "backend" := VString "albus";
          "backend_path" := VString "/api/v1/chat/" ]};
     config.Backend := [] |}.

(** An endpoint in the host-list shape. *)
Definition hostListEndpoint : config.EndpointConfig :=
  {| config.Endpoint := "/audio/converse/";
     config.ExtraConfig := compressionConfig;
     config.Backend :=
       [ {| config.Host := ["https://audio.internal:8443"; "https://audio2.internal:8443"];
            config.URLPattern := "/converse" |} ] |}.

(** An endpoint of the host with no WebSocket configuration. *)
Definition ordinaryEndpoint : config.EndpointConfig :=
  {| config.Endpoint := "/api/v1/orders";
     config.ExtraConfig := ∅;
     config.Backend :=
       [ {| config.Host := ["http://orders.internal"]; config.URLPattern := "/orders" |} ] |}.

(** Extra configuration of the service that registers one backend and holds
    a port number where an address should be. *)
Definition serviceConfig : gmap string Value :=
  {[ "websocket_backends" :=
       VMap {[ "backends" :=
                 VMap {[ "albus" := VString "ws://albus.internal:9000";
                         "legacy" := VFloat (float64.of_Z 8080) ]} ]} ]}.

(** A registry of two backends. *)
Definition twoBackends : BackendRegistry :=
  {| Backends := {[ "albus" := "ws://albus.internal:9000";
                    "chat" := "wss://chat.internal:8443" ]} |}.

(** [extra_config] with sizes given as JSON integers, one of them negative. *)
Definition sizedConfig : gmap string Value :=
  {[ "websocket" :=
       VMap {[ "max_message_size" := VFloat (float64.of_Z 65536);
               "read_buffer_size" := VFloat (float64.of_Z (-1)) ]} ]}.

(** [extra_config] with compression on and a misspelt key. *)
Definition misspeltConfig : gmap string Value :=
  {[ "websocket" :=
       VMap {[ "compression" := VBool true;
               "max_mesage_size" := VFloat (float64.of_Z 16) ]};
     "rate_limit" := VFloat (float64.of_Z 100) ]}.

(** An endpoint with a name for its backend and no path. *)
Definition pathlessEndpoint : config.EndpointConfig :=
  {| config.Endpoint := "/api/v1/albus/chat/";
     config.ExtraConfig := {[ "websocket" := VMap ∅; "backend" := VString "albus" ]};
     config.Backend :=
       [ {| config.Host := ["http://orders.internal"]; config.URLPattern := "/orders" |} ] |}.

End Sample.

(** ** Effects: the calls into gin, the websocket library and the runtime *)

(** What [select] in [handleConnectionLifecycle] picked. *)
Inductive Selected : Type :=
| FromErrChan (err : option error)
| ContextDone.

(** One event per call whose answer the environment decides.  [Go] stands for
    the statement [go func() { errChan <- w.proxyMessages(ctx, src, dest,
    direction) }()]; [CtxDone] for the non-blocking [case <-ctx.Done()] of
    [proxyMessages], answered with [ctx.Err()] when the channel is ready. *)
Variant wsE : Type -> Type :=
| GinJSON (code : Z) (obj : gmap string Value) : wsE unit
| Accept (r : http.Request) (opts : websocket.AcceptOptions) : wsE (websocket.Conn + error)
| Dial (ctx : context.Context) (u : string) (opts : websocket.DialOptions)
    : wsE (websocket.Conn + error)
| SetReadLimit (c : websocket.Conn) (n : Z) : wsE unit
| ConnClose (c : websocket.Conn) (code : Z) (reason : string) : wsE (option error)
| ConnRead (ctx : context.Context) (c : websocket.Conn)
    : wsE (websocket.MessageType * list Byte.byte + error)
| ConnWrite (ctx : context.Context) (c : websocket.Conn)
    (typ : websocket.MessageType) (p : list Byte.byte) : wsE (option error)
| CtxDone (ctx : context.Context) : wsE (option error)
| Cancel (ctx : context.Context) : wsE unit
| Go (ctx : context.Context) (src dest : websocket.Conn) (direction : string) : wsE unit
| Select (ctx : context.Context) : wsE Selected.

#[local] Open Scope itree_scope.

Notation "x <- t ;; k" := (ITree.bind t (fun x => k))
  (at level 100, t at next level, right associativity, only parsing) : itree_scope.
Notation "t ;; k" := (ITree.bind t (fun _ => k))
  (at level 100, right associativity, only parsing) : itree_scope.

(** ** Runs of a program *)

(** One step of a run: an event and the answer it got. *)
Inductive Obs (E : Type -> Type) : Type :=
| Ob {X : Type} (e : E X) (x : X).
Arguments Ob {E X} e x.

(** [exec t tr r]: the program [t] can issue the events of [tr], get the
    answers recorded there, and return [r] after the last of them. *)
Inductive exec {E : Type -> Type} {R : Type} : itree E R -> list (Obs E) -> R -> Prop :=
| exec_Ret t r : observe t = RetF r -> exec t [] r
| exec_Tau t u tr r : observe t = TauF u -> exec u tr r -> exec t tr r
| exec_Vis t {X} (e : E X) k x tr r :
    observe t = VisF e k -> exec (k x) tr r -> exec t (Ob e x :: tr) r.

(** Equal packed answers are equal answers. *)
Ltac inj_existT :=
  repeat match goal with
         | H : existT _ _ = existT _ _ |- _ => apply inj_pair2 in H; subst
         end.

(** ** The gateway *)

Section Gateway.

(** The case tables of [unicode]. *)
Context `{tables : unicode.Tables}.
(** [url.Parse] and [URL.String] of [net/url]. *)
Variable url_Parse : string -> url.URL + error.
Variable url_String : url.URL -> string.
(** The package variable [globalBackendRegistry], fixed once start-up is over. *)
Variable globalBackendRegistry : option BackendRegistry.
(** lura's [proxy.Proxy], and the events of the host's own handlers. *)
Variable Proxy : Type.
Variable hostE : Type -> Type.

#[local] Abbreviation E := (hostE +' wsE).

Definition call {X : Type} (e : wsE X) : itree E X := ITree.trigger (inr1 e).

(** A step of a run on one of the calls of [wsE]. *)
Definition ws {X : Type} (e : wsE X) (x : X) : Obs E := Ob (inr1 e) x.

(** [gin.HandlerFunc] and lura's [router.HandlerFactory]. *)
Definition HandlerFunc : Type := gin.Context -> itree E unit.
Definition HandlerFactoryT : Type := config.EndpointConfig -> Proxy -> itree E HandlerFunc.

(** [deriveWebSocketURL] of [handler.go]. *)
Definition deriveWebSocketURL (backendName backendPath forceScheme : string) : string + error :=
  match
    match globalBackendRegistry with
    | Some registry => Backends registry !! backendName
    | None => None
    end
  with
  | Some registryURL => inl (registryURL +:+ backendPath)
  | None =>
      let defaultMappings : gmap string string := {[ "albus" := "localhost:3000" ]} in
      let host :=
        match defaultMappings !! backendName with
        | Some host => host
        | None => "localhost:8080"
        end in
      let scheme := "ws" in
      let scheme := if negb (String.eqb forceScheme "") then forceScheme else scheme in
      let wsURL := scheme +:+ "://" +:+ host +:+ backendPath in
      inl wsURL
  end.

(** [convertHTTPToWebSocketURL] of [handler.go]. *)
Definition convertHTTPToWebSocketURL (httpHost urlPattern forceScheme : string) : string + error :=
  match url_Parse httpHost with
  | inr err => inr (wrapError ("failed to parse backend host " +:+ httpHost +:+ ": ") err)
  | inl parsedURL =>
      let scheme := "ws" in
      let scheme := if String.eqb (url.Scheme parsedURL) "https" then "wss" else scheme in
      let scheme := if negb (String.eqb forceScheme "") then forceScheme else scheme in
      let wsURL := scheme +:+ "://" +:+ url.Host parsedURL +:+ urlPattern in
      inl wsURL
  end.

(** [connectToBackend], up to the dial: the address the backend is dialed at. *)
Definition backendURL (cfg : config.EndpointConfig) (wsConfig : Config) : string + error :=
  let derived :=
    match assertString (config.ExtraConfig cfg !! "backend") with
    | Some backendName =>
        match assertString (config.ExtraConfig cfg !! "backend_path") with
        | Some backendPath =>
            deriveWebSocketURL backendName backendPath (BackendScheme wsConfig)
        | None => inr (errorString "no backend_path configured in endpoint")
        end
    | None =>
        match config.Backend cfg with
        | [] => inr (errorString "no backend configured for WebSocket endpoint")
        | backend :: _ =>
            match config.Host backend with
            | [] => inr (errorString "no host configured in backend")
            | httpHost :: _ =>
                let urlPattern := config.URLPattern backend in
                convertHTTPToWebSocketURL httpHost urlPattern (BackendScheme wsConfig)
            end
        end
    end in
  match derived with
  | inr err => inr err
  | inl wsURL =>
      if negb (String.eqb (BackendScheme wsConfig) "") then
        match url_Parse wsURL with
        | inr err => inr (wrapError "failed to parse WebSocket URL: " err)
        | inl parsedURL => inl (url_String (url.set_Scheme (BackendScheme wsConfig) parsedURL))
        end
      else inl wsURL
  end.

(** The first half of [backendURL]: the address [connectToBackend] has in
    [wsURL] when it reaches the scheme override, from the named shape or from
    the host list. *)
Definition derivedURL (cfg : config.EndpointConfig) (wsConfig : Config) : string + error :=
  match assertString (config.ExtraConfig cfg !! "backend") with
  | Some backendName =>
      match assertString (config.ExtraConfig cfg !! "backend_path") with
      | Some backendPath =>
          deriveWebSocketURL backendName backendPath (BackendScheme wsConfig)
      | None => inr (errorString "no backend_path configured in endpoint")
      end
  | None =>
      match config.Backend cfg with
      | [] => inr (errorString "no backend configured for WebSocket endpoint")
      | backend :: _ =>
          match config.Host backend with
          | [] => inr (errorString "no host configured in backend")
          | httpHost :: _ =>
              let urlPattern := config.URLPattern backend in
              convertHTTPToWebSocketURL httpHost urlPattern (BackendScheme wsConfig)
          end
      end
  end.

(** [connectToBackend] of [handler.go]. *)
Definition connectToBackend (ctx : context.Context) (cfg : config.EndpointConfig)
    (wsConfig : Config) (authHeaders : gmap string string) : itree E (websocket.Conn + error) :=
  match backendURL cfg wsConfig with
  | inr err => Ret (inr err)
  | inl wsURL =>
      let headers : gmap string (list string) := (fun value => [value]) <$> authHeaders in
      r <- call (Dial ctx wsURL {| websocket.HTTPHeader := headers |}) ;;
      match r with
      | inr err =>
          Ret (inr (wrapError ("failed to connect to backend WebSocket " +:+ wsURL +:+ ": ") err))
      | inl conn =>
          (if 0 <? MaxMessageSize wsConfig
           then call (SetReadLimit conn (MaxMessageSize wsConfig))
           else Ret tt) ;;
          Ret (inl conn)
      end
  end.

(** [proxyMessages] of [handler.go]: one round of the [for] per iteration. *)
Definition proxyMessages (ctx : context.Context) (src dest : websocket.Conn)
    (direction : string) : itree E error :=
  ITree.iter
    (fun _ : unit =>
       done <- call (CtxDone ctx) ;;
       match done with
       | Some err => Ret (inr err)
       | None =>
           r <- call (ConnRead ctx src) ;;
           match r with
           | inr err => Ret (inr err)
           | inl (messageType, message) =>
               w <- call (ConnWrite ctx dest messageType message) ;;
               match w with
               | Some err => Ret (inr err)
               | None => Ret (inl tt)
               end
           end
       end) tt.

(** The steps of one round of [proxyMessages] that forwards the message
    [(typ, p)]: the context is live, the read and the write succeed. *)
Definition relayRound (ctx : context.Context) (src dest : websocket.Conn)
    (m : websocket.MessageType * list Byte.byte) : list (Obs E) :=
  [ ws (CtxDone ctx) None;
    ws (ConnRead ctx src) (inl m);
    ws (ConnWrite ctx dest (fst m) (snd m)) None ].

(** The steps of the round that ends the loop, and the error it returns:
    the context is done; or the read fails; or the write fails. *)
Inductive relayEnd (ctx : context.Context) (src dest : websocket.Conn)
  : list (Obs E) -> error -> Prop :=
| relayEnd_cancelled reason :
    relayEnd ctx src dest [ ws (CtxDone ctx) (Some reason) ] reason
| relayEnd_read err :
    relayEnd ctx src dest [ ws (CtxDone ctx) None; ws (ConnRead ctx src) (inr err) ] err
| relayEnd_write m err :
    relayEnd ctx src dest
      [ ws (CtxDone ctx) None;
        ws (ConnRead ctx src) (inl m);
        ws (ConnWrite ctx dest (fst m) (snd m)) (Some err) ] err.

(** The steps that set a read limit on [conn], when one is configured. *)
Definition readLimitSteps (wsConfig : Config) (conn : websocket.Conn) : list (Obs E) :=
  if 0 <? MaxMessageSize wsConfig then [ws (SetReadLimit conn (MaxMessageSize wsConfig)) tt]
  else [].

(** The steps [handleConnectionLifecycle] adds once [connectToBackend] has
    answered: on an error the client is closed with an internal error and
    the context cancelled; on a connection the two relays are started, the
    [select] waits, and the deferred calls close the backend and cancel. *)
Definition lifecycleSteps (ctx : context.Context) (clientConn : websocket.Conn)
    (res : websocket.Conn + error) (closed : option error) (selected : Selected)
  : list (Obs E) :=
  let connCtx := context.WithCancel ctx in
  match res with
  | inr _ =>
      [ ws (ConnClose clientConn websocket.StatusInternalError "Backend connection failed")
           closed;
        ws (Cancel connCtx) tt ]
  | inl backendConn =>
      [ ws (Go connCtx clientConn backendConn "client->backend") tt;
        ws (Go connCtx backendConn clientConn "backend->client") tt;
        ws (Select connCtx) selected;
        ws (ConnClose backendConn websocket.StatusNormalClosure "Connection closed") closed;
        ws (Cancel connCtx) tt ]
  end.

(** [handleConnectionLifecycle] of [handler.go]; the deferred calls are
    written where they run. *)
Definition handleConnectionLifecycle (ctx : context.Context) (clientConn : websocket.Conn)
    (cfg : config.EndpointConfig) (p : Proxy) (wsConfig : Config)
    (authHeaders : gmap string string) : itree E unit :=
  let connCtx := context.WithCancel ctx in
  r <- connectToBackend connCtx cfg wsConfig authHeaders ;;
  match r with
  | inr err =>
      call (ConnClose clientConn websocket.StatusInternalError "Backend connection failed") ;;
      call (Cancel connCtx)
  | inl backendConn =>
      call (Go connCtx clientConn backendConn "client->backend") ;;
      call (Go connCtx backendConn clientConn "backend->client") ;;
      call (Select connCtx) ;;
      call (ConnClose backendConn websocket.StatusNormalClosure "Connection closed") ;;
      call (Cancel connCtx)
  end.

(** [acceptOpts] as [handleWebSocketConnection] builds it: the mode is
    [CompressionNoContextTakeover] unless compression is switched on. *)
Definition acceptOptions (wsConfig : Config) : websocket.AcceptOptions :=
  {| websocket.Subprotocols := Subprotocols wsConfig;
     websocket.CompressionMode :=
       if Compression wsConfig
       then websocket.CompressionContextTakeover
       else websocket.CompressionNoContextTakeover;
     websocket.InsecureSkipVerify := true |}.

(** [handleWebSocketConnection] of [handler.go]. *)
Definition handleWebSocketConnection (c : gin.Context) (cfg : config.EndpointConfig)
    (p : Proxy) (wsConfig : Config) (authHeaders : gmap string string) : itree E unit :=
  if (length (config.Backend cfg) =? 0)%nat then
    call (GinJSON http.StatusInternalServerError {[ "error" := VString "No backend configured" ]})
  else
    let acceptOpts := acceptOptions wsConfig in
    r <- call (Accept (gin.Request c) acceptOpts) ;;
    match r with
    | inr err =>
        call (GinJSON http.StatusBadRequest {[ "error" := VString "WebSocket upgrade failed" ]})
    | inl conn =>
        (if 0 <? MaxMessageSize wsConfig
         then call (SetReadLimit conn (MaxMessageSize wsConfig))
         else Ret tt) ;;
        handleConnectionLifecycle context.OfRequest conn cfg p wsConfig authHeaders ;;
        call (ConnClose conn websocket.StatusInternalError "Internal error") ;;
        Ret tt
    end.

(** The handler [HandlerWrapper] returns for an endpoint with WebSocket
    configuration: the inner [func(c *gin.Context)]. *)
Definition webSocketHandler (standardHandlerFactory : HandlerFactoryT)
    (cfg : config.EndpointConfig) (p : Proxy) (wsConfig : Config) : HandlerFunc :=
  fun c =>
    if negb (isWebSocketUpgrade (gin.Request c)) then
      standardHandler <- standardHandlerFactory cfg p ;;
      standardHandler c
    else
      let authHeaders := extractAuthHeaders (http.Header (gin.Request c)) in
      handleWebSocketConnection c cfg p wsConfig authHeaders.

(** [HandlerWrapper] of [handler.go]. *)
Definition HandlerWrapper (standardHandlerFactory : HandlerFactoryT) : HandlerFactoryT :=
  fun cfg p =>
    let '(wsConfig, hasWebSocketConfig) := parseWebSocketConfig (config.ExtraConfig cfg) in
    if hasWebSocketConfig then Ret (webSocketHandler standardHandlerFactory cfg p wsConfig)
    else standardHandlerFactory cfg p.

(** [New] of [handler.go].  [NewHandlerFactory] stores the logger and nothing
    else, so the wrapper is all that is left of it. *)
Definition New (handlerFactory : HandlerFactoryT) : HandlerFactoryT :=
  HandlerWrapper handlerFactory.

(** [NewWithConfig] of [handler.go]: the value it leaves in
    [globalBackendRegistry], from the value [before] it finds there, and the
    factory it returns.  The handlers of that factory read the variable when
    a request comes in, not when they are built. *)
Definition NewWithConfig (handlerFactory : HandlerFactoryT)
    (serviceExtraConfig : gmap string Value) (before : option BackendRegistry)
  : option BackendRegistry * HandlerFactoryT :=
  (InitializeBackendRegistry serviceExtraConfig before, HandlerWrapper handlerFactory).

(** The loop of [getAvailableBackends] over the entries of the registry in a
    given order: [backends = append(backends, name)]. *)
Definition getAvailableBackendsIn (entries : list (string * string)) : list string :=
  foldl (fun backends '(name, _) => backends ++ [name]) [] entries.

(** [getAvailableBackends] of [handler.go]: the [range] over the map is a
    fold, in an order Go leaves open. *)
Definition getAvailableBackends : list string :=
  match globalBackendRegistry with
  | None => []
  | Some registry =>
      map_fold (fun name _ backends => backends ++ [name]) [] (Backends registry)
  end.

(** ** What a run did *)

(** A step of a run, when it is one of the calls of [wsE]. *)
Definition onWs {A : Type} (f : forall X, wsE X -> X -> option A) (o : Obs E) : option A :=
  match o with
  | Ob e x =>
      match e with
      | inl1 _ => None
      | inr1 w => f _ w x
      end
  end.

(** Whether a step is a call of [wsE] and not a step of the host's handlers. *)
Definition isWsStep (o : Obs E) : bool :=
  match onWs (fun _ _ _ => Some tt) o with Some _ => true | None => false end.

(** The handshakes of a run: request, options and answer. *)
Definition accepts (tr : list (Obs E))
  : list (http.Request * websocket.AcceptOptions * (websocket.Conn + error)) :=
  omap (onWs (fun X w =>
          match w in wsE X return X -> option _ with
          | Accept r opts => fun answer => Some (r, opts, answer)
          | _ => fun _ => None
          end)) tr.

(** The dials of a run: context, address, options and answer. *)
Definition dials (tr : list (Obs E))
  : list (context.Context * string * websocket.DialOptions * (websocket.Conn + error)) :=
  omap (onWs (fun X w =>
          match w in wsE X return X -> option _ with
          | Dial ctx u opts => fun answer => Some (ctx, u, opts, answer)
          | _ => fun _ => None
          end)) tr.

(** The connections a run was handed, by [Accept] and by [Dial], in order. *)
Definition opened (tr : list (Obs E)) : list websocket.Conn :=
  omap (onWs (fun X w =>
          match w in wsE X return X -> option _ with
          | Accept _ _ | Dial _ _ _ =>
              fun answer => match answer with inl conn => Some conn | inr _ => None end
          | _ => fun _ => None
          end)) tr.

(** The read limits a run set, the connections it closed and with what, and
    the contexts it cancelled. *)
Definition readLimits (tr : list (Obs E)) : list (websocket.Conn * Z) :=
  omap (onWs (fun X w =>
          match w with
          | SetReadLimit conn n => fun _ => Some (conn, n)
          | _ => fun _ => None
          end)) tr.

Definition closes (tr : list (Obs E)) : list (websocket.Conn * Z * string) :=
  omap (onWs (fun X w =>
          match w with
          | ConnClose conn code reason => fun _ => Some (conn, code, reason)
          | _ => fun _ => None
          end)) tr.

Definition cancels (tr : list (Obs E)) : list context.Context :=
  omap (onWs (fun X w =>
          match w with
          | Cancel ctx => fun _ => Some ctx
          | _ => fun _ => None
          end)) tr.

(** The messages a run read, and those it wrote without an error, each with
    its connection. *)
Definition reads (tr : list (Obs E))
  : list (websocket.Conn * (websocket.MessageType * list Byte.byte)) :=
  omap (onWs (fun X w =>
          match w in wsE X return X -> option _ with
          | ConnRead _ conn =>
              fun answer => match answer with inl m => Some (conn, m) | inr _ => None end
          | _ => fun _ => None
          end)) tr.

Definition written (tr : list (Obs E))
  : list (websocket.Conn * (websocket.MessageType * list Byte.byte)) :=
  omap (onWs (fun X w =>
          match w in wsE X return X -> option _ with
          | ConnWrite _ conn typ p =>
              fun answer => match answer with None => Some (conn, (typ, p)) | Some _ => None end
          | _ => fun _ => None
          end)) tr.

(** ** Sample runs *)

(** A session on [Sample.hostListEndpoint], compression on: the client is
    upgraded, the backend dialed, the relays run until one reports the end of
    the stream, and both connections are closed. *)
Definition sampleRelay : list (Obs E) :=
  let connCtx := context.WithCancel context.OfRequest in
  [ ws (Accept Sample.upgradeRequest
          {| websocket.Subprotocols := [];
             websocket.InsecureSkipVerify := true;
             websocket.CompressionMode := websocket.CompressionContextTakeover |})
       (inl 7%nat);
    ws (SetReadLimit 7%nat 1048576) tt;
    ws (Dial connCtx "wss://audio.internal:8443/converse"
          {| websocket.HTTPHeader := {[ "X-User-Id" := ["u1"] ]} |})
       (inl 8%nat);
    ws (SetReadLimit 8%nat 1048576) tt;
    ws (Go connCtx 7%nat 8%nat "client->backend") tt;
    ws (Go connCtx 8%nat 7%nat "backend->client") tt;
    ws (Select connCtx) (FromErrChan (Some (errorString "EOF")));
    ws (ConnClose 8%nat 1000 "Connection closed") None;
    ws (Cancel connCtx) tt;
    ws (ConnClose 7%nat 1011 "Internal error") None ].

(** A relay from connection 7 to connection 8 that forwards one message and
    fails to write the next. *)
Definition sampleLostMessage : list (Obs E) :=
  let ctx := context.WithCancel context.OfRequest in
  [ ws (CtxDone ctx) None;
    ws (ConnRead ctx 7%nat) (inl (websocket.MessageText, [Byte.x68; Byte.x69]));
    ws (ConnWrite ctx 8%nat websocket.MessageText [Byte.x68; Byte.x69]) None;
    ws (CtxDone ctx) None;
    ws (ConnRead ctx 7%nat) (inl (websocket.MessageBinary, [Byte.x00]));
    ws (ConnWrite ctx 8%nat websocket.MessageBinary [Byte.x00])
       (Some (errorString "broken pipe")) ].

(* ================================================================== *)
(** * Theorems *)

(** ** Bytes and strings *)

Lemma in_all_bytes (c : ascii) : In c all_bytes.
Proof.
  rewrite <- (ascii_nat_embedding c). apply in_map, in_seq.
  pose proof (nat_ascii_bounded c). lia.
Qed.

Lemma forall_bytes (P : ascii -> bool) :
  forallb P all_bytes = true -> forall c, P c = true.
Proof. intros H c. rewrite forallb_forall in H. apply H, in_all_bytes. Qed.

Lemma forall_bytes2 (P : ascii -> ascii -> bool) :
  forallb (fun c => forallb (P c) all_bytes) all_bytes = true -> forall c d, P c d = true.
Proof.
  intros H c d. apply (forall_bytes (P c)). revert c. apply forall_bytes. exact H.
Qed.

Lemma equalFoldByte_lower (c d : ascii) :
  strings.equalFoldByte c d = Ascii.eqb (strings.lowerByte c) (strings.lowerByte d).
Proof.
  apply Bool.eqb_prop. revert c d.
  apply (forall_bytes2 (fun c d =>
    Bool.eqb (strings.equalFoldByte c d)
             (Ascii.eqb (strings.lowerByte c) (strings.lowerByte d)))).
  vm_compute. reflexivity.
Qed.

Lemma upperByte_lower (c d : ascii) :
  Ascii.eqb (strings.upperByte c) (strings.upperByte d)
  = Ascii.eqb (strings.lowerByte c) (strings.lowerByte d).
Proof.
  apply Bool.eqb_prop. revert c d.
  apply (forall_bytes2 (fun c d =>
    Bool.eqb (Ascii.eqb (strings.upperByte c) (strings.upperByte d))
             (Ascii.eqb (strings.lowerByte c) (strings.lowerByte d)))).
  vm_compute. reflexivity.
Qed.

(** On strings of ASCII bytes the tables are not consulted. *)
Lemma ToLower_ASCII (s : string) :
  strings.isASCII s = true -> strings.ToLower s = strings.toLowerASCII s.
Proof. intros H. unfold strings.ToLower. rewrite H. reflexivity. Qed.

Lemma ToUpper_ASCII (s : string) :
  strings.isASCII s = true -> strings.ToUpper s = strings.toUpperASCII s.
Proof. intros H. unfold strings.ToUpper. rewrite H. reflexivity. Qed.

Lemma isASCII_app (s t : string) :
  strings.isASCII (s +:+ t) = strings.isASCII s && strings.isASCII t.
Proof.
  induction s as [|c s IH]; [reflexivity|].
  change (strings.isASCII (String c (s +:+ t))
          = strings.isASCII (String c s) && strings.isASCII t).
  cbn [strings.isASCII]. rewrite IH, andb_assoc. reflexivity.
Qed.

(** On strings of ASCII bytes [EqualFold] is equality of the lower-case
    forms. *)
Lemma EqualFold_toLowerASCII (s t : string) :
  strings.isASCII s = true -> strings.isASCII t = true ->
  strings.EqualFold s t = true <-> strings.toLowerASCII s = strings.toLowerASCII t.
Proof.
  revert t. induction s as [|c s IH]; intros [|d t]; cbn; try (split; congruence).
  rewrite !andb_true_iff. intros [Hc Hs] [Hd Ht]. rewrite Hc, Hd. cbn [andb].
  rewrite equalFoldByte_lower.
  destruct (Ascii.eqb_spec (strings.lowerByte c) (strings.lowerByte d)) as [Hcd|Hcd].
  - rewrite (IH _ Hs Ht), Hcd. split; [congruence | intros [=]; congruence].
  - split; [discriminate | intros [=]; contradiction].
Qed.

Lemma EqualFold_ToLower (s t : string) :
  strings.isASCII s = true -> strings.isASCII t = true ->
  strings.EqualFold s t = true <-> strings.ToLower s = strings.ToLower t.
Proof.
  intros Hs Ht. rewrite (ToLower_ASCII _ Hs), (ToLower_ASCII _ Ht).
  apply EqualFold_toLowerASCII; assumption.
Qed.

Lemma HasPrefix_app (s p : string) :
  strings.HasPrefix s p = true <-> exists rest, s = p +:+ rest.
Proof.
  revert s. induction p as [|c p IH]; intros s; cbn.
  - split; eauto.
  - destruct s as [|d s]; cbn.
    + split; [discriminate | intros [rest [=]]].
    + rewrite andb_true_iff, IH. split.
      * intros [Hc [rest ->]]. apply Ascii.eqb_eq in Hc as ->. eauto.
      * intros [rest [= -> ->]]. split; [apply Ascii.eqb_refl | eauto].
Qed.

(** [Contains] finds [substr] somewhere inside [s]. *)
Lemma Contains_app (s substr : string) :
  strings.Contains s substr = true <-> exists pre post, s = pre +:+ substr +:+ post.
Proof.
  induction s as [|c s IH].
  - cbn. rewrite orb_false_r, HasPrefix_app. split.
    + intros [rest Hr]. exists "", rest. exact Hr.
    + intros (pre & post & H). destruct pre; cbn in H; [eauto | discriminate].
  - cbn [strings.Contains]. rewrite orb_true_iff, HasPrefix_app, IH. split.
    + intros [[rest Hr] | (pre & post & ->)].
      * exists "", rest. exact Hr.
      * exists (String c pre), post. reflexivity.
    + intros (pre & post & H). destruct pre as [|c' pre]; cbn in H.
      * left. eauto.
      * injection H as -> ->. right. eauto.
Qed.

Lemma append_assoc (s t u : string) : (s +:+ t) +:+ u = s +:+ t +:+ u.
Proof.
  induction s as [|c s IH]; [reflexivity|].
  change (String c ((s +:+ t) +:+ u) = String c (s +:+ t +:+ u)). f_equal. exact IH.
Qed.

Lemma toLowerASCII_app (s t : string) :
  strings.toLowerASCII (s +:+ t) = strings.toLowerASCII s +:+ strings.toLowerASCII t.
Proof. induction s as [|c s IH]; simpl; [|rewrite IH]; reflexivity. Qed.

(** A prefix test on the upper-case forms is a prefix test up to case. *)
Lemma HasPrefix_toUpperASCII (s p : string) :
  strings.HasPrefix (strings.toUpperASCII s) (strings.toUpperASCII p) = true
  <-> exists rest, strings.toLowerASCII s = strings.toLowerASCII p +:+ rest.
Proof.
  revert s. induction p as [|c p IH]; intros s; cbn.
  - split; eauto.
  - destruct s as [|d s]; cbn.
    + split; [discriminate | intros [rest [=]]].
    + rewrite andb_true_iff, IH, upperByte_lower. split.
      * intros [Hc [rest ->]]. apply Ascii.eqb_eq in Hc as ->. eauto.
      * intros [rest [= -> ->]]. split; [apply Ascii.eqb_refl | eauto].
Qed.

Lemma HasPrefix_ToUpper (s p : string) :
  strings.isASCII s = true -> strings.isASCII p = true ->
  strings.HasPrefix (strings.ToUpper s) (strings.ToUpper p) = true
  <-> exists rest, strings.ToLower s = strings.ToLower p +:+ rest.
Proof.
  intros Hs Hp.
  rewrite (ToUpper_ASCII _ Hs), (ToUpper_ASCII _ Hp), (ToLower_ASCII _ Hs),
    (ToLower_ASCII _ Hp).
  apply HasPrefix_toUpperASCII.
Qed.

(** ** Upgrade detection *)

Lemma Get_lookup (h : http.HeaderMap) (key : string) :
  http.Get h key = hd "" (default [] (h !! textproto.CanonicalMIMEHeaderKey key)).
Proof. unfold http.Get. destruct (h !! _) as [[|v vs]|]; reflexivity. Qed.

(** The first entry of a value is where the value starts. *)
Lemma entries_head (s : string) :
  exists e es post, UpgradeSpec.entries s = e :: es /\ s = e +:+ post.
Proof.
  induction s as [|c s (e & es & post & He & Hs)]; cbn [UpgradeSpec.entries].
  - exists "", [], "". split; reflexivity.
  - destruct (Ascii.eqb c ",").
    + exists "", (UpgradeSpec.entries s), (String c s). split; reflexivity.
    + rewrite He. exists (String c e), es, post. split; [reflexivity|].
      change (String c s = String c (e +:+ post)). f_equal. exact Hs.
Qed.

(** Every entry of a value lies inside the value. *)
Lemma entries_inside (s e : string) :
  In e (UpgradeSpec.entries s) -> exists pre post, s = pre +:+ e +:+ post.
Proof.
  revert e. induction s as [|c s IH]; intros e; cbn [UpgradeSpec.entries].
  - intros [<-|[]]. exists "", "". reflexivity.
  - destruct (Ascii.eqb c ",").
    + intros [<-|Hin].
      * exists "", (String c s). reflexivity.
      * destruct (IH e Hin) as (pre & post & ->). exists (String c pre), post. reflexivity.
    + destruct (entries_head s) as (e0 & es & post0 & He & Hs). rewrite He.
      intros [<-|Hin].
      * exists "", post0. change (String c s = String c (e0 +:+ post0)). f_equal. exact Hs.
      * destruct (IH e) as (pre & post & ->); [rewrite He; right; exact Hin|].
        exists (String c pre), post. reflexivity.
Qed.

Lemma trimLeft_inside (s : string) : exists a, s = a +:+ UpgradeSpec.trimLeft s.
Proof.
  induction s as [|c s [a Ha]]; cbn [UpgradeSpec.trimLeft].
  - exists "". reflexivity.
  - destruct (UpgradeSpec.isOWS c).
    + exists (String c a).
      change (String c s = String c (a +:+ UpgradeSpec.trimLeft s)). f_equal. exact Ha.
    + exists "". reflexivity.
Qed.

Lemma trimRight_inside (s : string) : exists b, s = UpgradeSpec.trimRight s +:+ b.
Proof.
  induction s as [|c s [b Hb]]; cbn [UpgradeSpec.trimRight].
  - exists "". reflexivity.
  - destruct (UpgradeSpec.trimRight s) as [|d t] eqn:Ht.
    + destruct (UpgradeSpec.isOWS c).
      * exists (String c s). reflexivity.
      * exists b. change (String c s = String c ("" +:+ b)). f_equal. exact Hb.
    + exists b. change (String c s = String c (String d t +:+ b)). f_equal. exact Hb.
Qed.

Lemma trim_inside (s : string) : exists a b, s = a +:+ UpgradeSpec.trim s +:+ b.
Proof.
  unfold UpgradeSpec.trim. destruct (trimLeft_inside s) as [a Ha].
  destruct (trimRight_inside (UpgradeSpec.trimLeft s)) as [b Hb].
  exists a, b. rewrite <- Hb. exact Ha.
Qed.

(** A value of ASCII bytes with an entry that is the token [upgrade],
    whatever the case and the blanks around it, has [upgrade] inside its
    lower-case form. *)
Lemma token_entry_contains (c e : string) :
  strings.isASCII c = true ->
  In e (UpgradeSpec.entries c) ->
  strings.EqualFold (UpgradeSpec.trim e) "upgrade" = true ->
  exists pre post, strings.ToLower c = pre +:+ "upgrade" +:+ post.
Proof.
  intros Hascii Hin Hfold. rewrite (ToLower_ASCII _ Hascii).
  destruct (entries_inside _ _ Hin) as (pre & post & ->).
  destruct (trim_inside e) as (a & b & He).
  assert (Htrim : strings.isASCII (UpgradeSpec.trim e) = true).
  { rewrite He, !isASCII_app, !andb_true_iff in Hascii.
    destruct Hascii as (_ & (_ & Htrim & _) & _). exact Htrim. }
  apply EqualFold_toLowerASCII in Hfold; [|exact Htrim | reflexivity].
  exists (strings.toLowerASCII pre +:+ strings.toLowerASCII a),
         (strings.toLowerASCII b +:+ strings.toLowerASCII post).
  rewrite He at 1. rewrite !toLowerASCII_app, Hfold, !append_assoc. reflexivity.
Qed.

(** C1, as the code has it.  [isWebSocketUpgrade] answers true exactly when
    [strings.ToLower] of the first [Upgrade] value is [websocket],
    [strings.ToLower] of the first [Connection] value has [upgrade] somewhere
    inside it, and the first [Sec-WebSocket-Key] value (stored under the
    canonical key [Sec-Websocket-Key]) is not empty; this for every request,
    whatever the case tables make of a value with bytes from 128 up.  On a
    value of ASCII bytes [strings.ToLower] is the byte loop, and such a first
    [Connection] value with a comma-separated entry that is the token
    [upgrade] has [upgrade] inside its lower-case form. *)
Theorem isWebSocketUpgrade_iff (r : http.Request) :
  (isWebSocketUpgrade r = true <->
     (exists v vs, http.Header r !! "Upgrade" = Some (v :: vs)
                   /\ strings.ToLower v = "websocket") /\
     (exists c cs pre post, http.Header r !! "Connection" = Some (c :: cs)
                   /\ strings.ToLower c = pre +:+ "upgrade" +:+ post) /\
     (exists k ks, http.Header r !! "Sec-Websocket-Key" = Some (k :: ks) /\ k <> "")) /\
  (forall s : string,
     strings.isASCII s = true -> strings.ToLower s = strings.toLowerASCII s) /\
  (forall c e : string,
     strings.isASCII c = true ->
     In e (UpgradeSpec.entries c) ->
     strings.EqualFold (UpgradeSpec.trim e) "upgrade" = true ->
     exists pre post, strings.ToLower c = pre +:+ "upgrade" +:+ post).
Proof.
  split; [|split; [apply ToLower_ASCII | apply token_entry_contains]].
  unfold isWebSocketUpgrade, http.Get.
  change (textproto.CanonicalMIMEHeaderKey "Upgrade") with "Upgrade".
  change (textproto.CanonicalMIMEHeaderKey "Connection") with "Connection".
  change (textproto.CanonicalMIMEHeaderKey "Sec-WebSocket-Key") with "Sec-Websocket-Key".
  rewrite !andb_true_iff, negb_true_iff, String.eqb_eq, String.eqb_neq, Contains_app.
  split.
  - intros [[Hu (pre & post & Hc)] Hk]. repeat split.
    + destruct (http.Header r !! "Upgrade") as [[|v vs]|]; try discriminate. eauto.
    + destruct (http.Header r !! "Connection") as [[|c cs]|];
        try (destruct pre; discriminate). eauto 6.
    + destruct (http.Header r !! "Sec-Websocket-Key") as [[|k ks]|]; try congruence. eauto.
  - intros [(v & vs & -> & Hu) [(c & cs & pre & post & -> & Hc) (k & ks & -> & Hk)]].
    eauto.
Qed.

(** The request with [Connection: upgraded] is taken for an upgrade, whatever
    the case tables, though no entry of its [Connection] header is the token
    [upgrade]. *)
Lemma upgradedRequest_taken :
  isWebSocketUpgrade Sample.upgradedRequest = true
  /\ UpgradeSpec.tokens (UpgradeSpec.values (http.Header Sample.upgradedRequest) "Connection")
     = ["upgraded"]
  /\ UpgradeSpec.IsUpgrade (http.Header Sample.upgradedRequest) = false.
Proof. vm_compute. repeat split. Qed.

(** [Header.Get] reads the first value only: a token in a second value of
    the [Connection] header is not seen. *)
Lemma isWebSocketUpgrade_first_value_only :
  isWebSocketUpgrade Sample.twoLineRequest = false
  /\ UpgradeSpec.IsUpgrade (http.Header Sample.twoLineRequest) = true.
Proof. vm_compute. split; reflexivity. Qed.

(** ** Durations *)

Lemma leadingInt_length (s : string) (x v : Z) (rest : string) :
  time.leadingInt x s = Some (v, rest) -> (String.length rest <= String.length s)%nat.
Proof.
  revert x. induction s as [|c s IH]; intros x; cbn [time.leadingInt].
  - intros [= _ <-]. reflexivity.
  - destruct (negb (time.isDigit c)); [intros [= _ <-]; reflexivity|].
    destruct (2 ^ 63 / 10 <? x); [discriminate|].
    destruct (2 ^ 63 <? x * 10 + time.digit c); [discriminate|].
    intros H. apply IH in H. cbn [String.length]. lia.
Qed.

Lemma leadingFraction_length (s : string) (x : Z) (scale : spec_float) (overflow : bool)
    (f : Z) (scale' : spec_float) (rest : string) :
  time.leadingFraction x scale overflow s = (f, scale', rest) ->
  (String.length rest <= String.length s)%nat.
Proof.
  revert x scale overflow. induction s as [|c s IH]; intros x scale overflow;
    cbn [time.leadingFraction].
  - intros [= _ _ <-]. reflexivity.
  - destruct (negb (time.isDigit c)); [intros [= _ _ <-]; reflexivity|].
    cbn [String.length].
    destruct overflow; [intros H; apply IH in H; lia|].
    destruct ((2 ^ 63 - 1) / 10 <? x); [intros H; apply IH in H; lia|].
    destruct (2 ^ 63 <? x * 10 + time.digit c); intros H; apply IH in H; lia.
Qed.

Lemma spanUnit_length (s u rest : string) :
  time.spanUnit s = (u, rest) ->
  String.length s = (String.length u + String.length rest)%nat.
Proof.
  revert u rest. induction s as [|c s IH]; intros u rest; cbn [time.spanUnit].
  - intros [= <- <-]. reflexivity.
  - destruct (Ascii.eqb c "." || time.isDigit c); [intros [= <- <-]; reflexivity|].
    destruct (time.spanUnit s) as [u' rest'] eqn:Hs. intros [= <- <-].
    cbn [String.length]. rewrite (IH _ _ eq_refl). reflexivity.
Qed.

Lemma fraction_length (s1 : string) (f : Z) (scale : spec_float) (s2 : string) (post : bool) :
  match s1 with
  | String "." s1' =>
      let '(f, scale, s2) := time.leadingFraction 0 (float64.of_Z 1) false s1' in
      (f, scale, s2, negb (String.length s1' =? String.length s2)%nat)
  | _ => (0, float64.of_Z 1, s1, false)
  end = (f, scale, s2, post) ->
  (String.length s2 <= String.length s1)%nat.
Proof.
  destruct s1 as [|d s1']; [intros [= _ _ <- _]; reflexivity|].
  destruct (Ascii.eqb_spec d ".") as [->|Hd].
  - destruct (time.leadingFraction _ _ _ s1') as [[f' scale'] s2'] eqn:Hf.
    apply leadingFraction_length in Hf. intros [= _ _ <- _]. cbn [String.length]. lia.
  - assert (H : forall T (a b : T), match d with "."%char => a | _ => b end = b).
    { intros T a b. destruct d as [[] [] [] [] [] [] [] []]; try reflexivity.
      destruct Hd. reflexivity. }
    rewrite H. intros [= _ _ <- _]. reflexivity.
Qed.

(** Every round of [ParseDuration] consumes at least its unit. *)
Lemma parseTerm_shortens (s : string) (v : Z) (rest : string) :
  time.parseTerm s = Some (v, rest) -> (String.length rest < String.length s)%nat.
Proof.
  unfold time.parseTerm. destruct s as [|c s]; [discriminate|].
  destruct (negb _); [discriminate|].
  destruct (time.leadingInt 0 (String c s)) as [[v1 s1]|] eqn:Hint; [|discriminate].
  apply leadingInt_length in Hint.
  set (pre := negb (String.length (String c s) =? String.length s1)%nat). clearbody pre.
  destruct (match s1 with String "." s1' => _ | _ => _ end) as [[[f scale] s2] post] eqn:Hm.
  apply fraction_length in Hm.
  destruct (negb pre && negb post); [discriminate|].
  destruct (time.spanUnit s2) as [u s3] eqn:Hu. apply spanUnit_length in Hu.
  destruct (String.eqb_spec u "") as [->|Hne]; [discriminate|].
  assert (0 < String.length u)%nat by (destruct u; [contradiction | cbn; lia]).
  destruct (time.unitMap !! u) as [unit|]; [|discriminate].
  destruct (2 ^ 63 / unit <? v1); [discriminate|].
  destruct (0 <? f).
  - destruct (2 ^ 63 <? _); [discriminate|]. intros [= _ <-]. lia.
  - intros [= _ <-]. lia.
Qed.

(** The length of the string is fuel enough for [parseTerms]: more changes
    nothing. *)
Lemma parseTerms_fuel (fuel : nat) (s : string) (d : Z) :
  (String.length s <= fuel)%nat ->
  time.parseTerms fuel s d = time.parseTerms (String.length s) s d.
Proof.
  remember (String.length s) as n eqn:Hn. revert fuel s d Hn.
  induction n as [n IH] using lt_wf_ind. intros fuel s d Hn Hfuel.
  destruct s as [|c s]; [subst n; destruct fuel; reflexivity|].
  destruct fuel as [|fuel]; [cbn in Hn; lia|].
  destruct n as [|n]; [discriminate|].
  cbn [time.parseTerms].
  destruct (time.parseTerm (String c s)) as [[v rest]|] eqn:Hterm; [|reflexivity].
  destruct (2 ^ 63 <? _); [reflexivity|].
  apply parseTerm_shortens in Hterm. rewrite <- Hn in Hterm.
  rewrite (IH (String.length rest)) with (fuel := fuel) by lia.
  rewrite (IH (String.length rest)) with (fuel := n) by lia.
  reflexivity.
Qed.

(** ** Endpoint configuration *)

Lemma set_Subprotocols_id (cfg : Config) : set_Subprotocols (Subprotocols cfg) cfg = cfg.
Proof. destruct cfg; reflexivity. Qed.

(** The loop over [subprotocols] appends the strings of the list, in order,
    and touches nothing else. *)
Lemma foldl_subprotocols (l : list Value) (cfg : Config) :
  foldl (fun cfg sp =>
           match assertString (Some sp) with
           | Some spStr => set_Subprotocols (Subprotocols cfg ++ [spStr]) cfg
           | None => cfg
           end) cfg l
  = set_Subprotocols (Subprotocols cfg ++ omap (fun sp => assertString (Some sp)) l) cfg.
Proof.
  revert cfg. induction l as [|sp l IH]; intros cfg.
  - cbn. rewrite app_nil_r. symmetry. apply set_Subprotocols_id.
  - cbn [foldl omap list_omap]. rewrite IH.
    destruct (assertString (Some sp)) as [spStr|]; [|reflexivity].
    destruct cfg; cbn. rewrite <- app_assoc. reflexivity.
Qed.

(** Every field of the result is decided by its own key alone. *)
Lemma parseWebSocketConfig_fields (extraConfig wsConfigMap : gmap string Value) :
  extraConfig !! ConfigNamespace = Some (VMap wsConfigMap) ->
  parseWebSocketConfig extraConfig =
  ({| ReadBufferSize :=
        match assertFloat64 (wsConfigMap !! "read_buffer_size") with
        | Some f => float64.to_int64 f
        | None => 1024
        end;
      WriteBufferSize :=
        match assertFloat64 (wsConfigMap !! "write_buffer_size") with
        | Some f => float64.to_int64 f
        | None => 1024
        end;
      HandshakeTimeout :=
        match assertString (wsConfigMap !! "handshake_timeout") with
        | Some str => default 10000000000 (time.ParseDuration str)
        | None => 10000000000
        end;
      Compression := default false (assertBool (wsConfigMap !! "compression"));
      Subprotocols :=
        match assertSlice (wsConfigMap !! "subprotocols") with
        | Some l => omap (fun sp => assertString (Some sp)) l
        | None => []
        end;
      BackendScheme := default "" (assertString (wsConfigMap !! "backend_scheme"));
      MaxMessageSize :=
        match assertFloat64 (wsConfigMap !! "max_message_size") with
        | Some f => float64.to_int64 f
        | None => 1048576
        end |}, true).
Proof.
  intros Hns. unfold parseWebSocketConfig. rewrite Hns. cbn [assertMap].
  f_equal.
  destruct (assertFloat64 (wsConfigMap !! "read_buffer_size"));
  destruct (assertFloat64 (wsConfigMap !! "write_buffer_size"));
  (destruct (assertString (wsConfigMap !! "handshake_timeout")) as [str|];
     [destruct (time.ParseDuration str)|]);
  destruct (assertBool (wsConfigMap !! "compression"));
  (destruct (assertSlice (wsConfigMap !! "subprotocols"));
     [rewrite foldl_subprotocols|]);
  destruct (assertString (wsConfigMap !! "backend_scheme"));
  destruct (assertFloat64 (wsConfigMap !! "max_message_size"));
  reflexivity.
Qed.

(** C6.  Without the [websocket] key (the empty blob included) the result is
    the zero [Config] and [false]; when the entry is [{compression: true}]
    alone the result is [true], compression on, and every other field at its
    default: buffers of 1024, a timeout of ten seconds, no subprotocols, a
    message limit of 1 MiB and no forced scheme. *)
Theorem parseWebSocketConfig_absent_or_compression_only :
  (forall extraConfig : gmap string Value,
     extraConfig !! "websocket" = None ->
     parseWebSocketConfig extraConfig = (zeroConfig, false)) /\
  parseWebSocketConfig ∅ = (zeroConfig, false) /\
  (forall extraConfig : gmap string Value,
     extraConfig !! "websocket" = Some (VMap {[ "compression" := VBool true ]}) ->
     parseWebSocketConfig extraConfig =
     ({| ReadBufferSize := 1024;
         WriteBufferSize := 1024;
         HandshakeTimeout := 10 * 1000000000;
         Compression := true;
         Subprotocols := [];
         BackendScheme := "";
         MaxMessageSize := 1024 * 1024 |}, true)).
Proof.
  split; [|split].
  - intros extraConfig Hns. unfold parseWebSocketConfig.
    change ConfigNamespace with "websocket". rewrite Hns. reflexivity.
  - reflexivity.
  - intros extraConfig Hns. rewrite (parseWebSocketConfig_fields _ _ Hns). reflexivity.
Qed.

Lemma assertFloat64_None (v : option Value) :
  (forall f, v <> Some (VFloat f)) -> assertFloat64 v = None.
Proof. destruct v as [[]|]; intros H; try reflexivity. destruct (H f eq_refl). Qed.

Lemma assertString_None (v : option Value) :
  (forall s, v <> Some (VString s)) -> assertString v = None.
Proof. destruct v as [[]|]; intros H; try reflexivity. destruct (H s eq_refl). Qed.

Lemma assertBool_None (v : option Value) :
  (forall b, v <> Some (VBool b)) -> assertBool v = None.
Proof. destruct v as [[]|]; intros H; try reflexivity. destruct (H b eq_refl). Qed.

Lemma assertSlice_None (v : option Value) :
  (forall l, v <> Some (VList l)) -> assertSlice v = None.
Proof. destruct v as [[]|]; intros H; try reflexivity. destruct (H l eq_refl). Qed.

(** C7.  Whatever the map under [websocket] holds, parsing succeeds; a key
    that is missing or holds a value of the wrong shape leaves its field at
    the default, and so does a [handshake_timeout] string that
    [time.ParseDuration] rejects, as it rejects [invalid]. *)
Theorem parseWebSocketConfig_lenient (extraConfig wsConfigMap : gmap string Value) :
  extraConfig !! "websocket" = Some (VMap wsConfigMap) ->
  exists cfg : Config,
    parseWebSocketConfig extraConfig = (cfg, true) /\
    ((forall f, wsConfigMap !! "read_buffer_size" <> Some (VFloat f)) ->
     ReadBufferSize cfg = 1024) /\
    ((forall f, wsConfigMap !! "write_buffer_size" <> Some (VFloat f)) ->
     WriteBufferSize cfg = 1024) /\
    ((forall str, wsConfigMap !! "handshake_timeout" = Some (VString str) ->
                  time.ParseDuration str = None) ->
     HandshakeTimeout cfg = 10 * 1000000000) /\
    ((forall b, wsConfigMap !! "compression" <> Some (VBool b)) ->
     Compression cfg = false) /\
    ((forall l, wsConfigMap !! "subprotocols" <> Some (VList l)) ->
     Subprotocols cfg = []) /\
    ((forall s, wsConfigMap !! "backend_scheme" <> Some (VString s)) ->
     BackendScheme cfg = "") /\
    ((forall f, wsConfigMap !! "max_message_size" <> Some (VFloat f)) ->
     MaxMessageSize cfg = 1024 * 1024) /\
    time.ParseDuration "invalid" = None.
Proof.
  intros Hns. eexists. split; [exact (parseWebSocketConfig_fields _ _ Hns)|].
  cbn [ReadBufferSize WriteBufferSize HandshakeTimeout Compression Subprotocols
       BackendScheme MaxMessageSize].
  repeat split.
  - intros H. rewrite (assertFloat64_None _ H). reflexivity.
  - intros H. rewrite (assertFloat64_None _ H). reflexivity.
  - intros H. destruct (wsConfigMap !! "handshake_timeout") as [[]|] eqn:Hk; cbn; try reflexivity.
    rewrite (H _ eq_refl). reflexivity.
  - intros H. rewrite (assertBool_None _ H). reflexivity.
  - intros H. rewrite (assertSlice_None _ H). reflexivity.
  - intros H. rewrite (assertString_None _ H). reflexivity.
  - intros H. rewrite (assertFloat64_None _ H). reflexivity.
Qed.

(** ** Auth headers *)

Lemma foldl_insert_if {A} (c : A -> bool) (k : string) (v : string)
    (l : list A) (acc : gmap string string) :
  foldl (fun acc x => if c x then <[k := v]> acc else acc) acc l
  = if existsb c l then <[k := v]> acc else acc.
Proof.
  revert acc. induction l as [|x l IH]; intros acc; [reflexivity|].
  cbn [foldl existsb]. rewrite IH. destruct (c x); cbn [orb]; [|reflexivity].
  rewrite insert_insert_eq. destruct (existsb c l); reflexivity.
Qed.

Lemma existsb_andb_r {A} (f : A -> bool) (b : bool) (l : list A) :
  existsb (fun x => f x && b) l = existsb f l && b.
Proof.
  induction l as [|x l IH]; [reflexivity|]. cbn. rewrite IH.
  destruct (f x), (existsb f l), b; reflexivity.
Qed.

(** What the two inner loops of [extractAuthHeaders] do for one header. *)
Lemma extractAuthHeader_insert (key : string) (values : list string)
    (authHeaders : gmap string string) :
  extractAuthHeader key values authHeaders
  = if isAuthHeader key && (0 <? length values)%nat
    then <[key := hd "" values]> authHeaders
    else authHeaders.
Proof.
  unfold extractAuthHeader, isAuthHeader.
  rewrite (foldl_insert_if
             (fun prefix => strings.HasPrefix (strings.ToUpper key) (strings.ToUpper prefix)
                            && (0 <? length values)%nat)).
  rewrite (foldl_insert_if (fun authHeader => strings.EqualFold key authHeader
                                              && (0 <? length values)%nat)).
  rewrite !existsb_andb_r.
  destruct (existsb (strings.EqualFold key) authHeaderNames),
           (existsb _ authHeaderPrefixes), (0 <? length values)%nat; cbn;
    rewrite ?insert_insert_eq; reflexivity.
Qed.

(** One header changes the entry of its own name and no other. *)
Lemma extractAuthHeader_lookup (i key : string) (values : list string)
    (authHeaders : gmap string string) :
  extractAuthHeader i values authHeaders !! key =
  if decide (i = key) then
    match values with
    | value :: _ => if isAuthHeader key then Some value else authHeaders !! key
    | [] => authHeaders !! key
    end
  else authHeaders !! key.
Proof.
  rewrite extractAuthHeader_insert. destruct (decide (i = key)) as [->|Hne].
  - destruct values as [|value values]; cbn [length Nat.ltb Nat.leb hd].
    + rewrite andb_false_r. reflexivity.
    + rewrite andb_true_r. destruct (isAuthHeader key); [apply lookup_insert_eq | reflexivity].
  - destruct (_ && _); [apply lookup_insert_ne, Hne | reflexivity].
Qed.

Lemma extractAuthHeaders_lookup (headers : gmap string (list string)) (key : string) :
  extractAuthHeaders headers !! key =
  match headers !! key with
  | Some (value :: _) => if isAuthHeader key then Some value else None
  | _ => None
  end.
Proof.
  unfold extractAuthHeaders.
  apply (map_fold_weak_ind (fun (r : gmap string string) (m : gmap string (list string)) =>
    r !! key =
    match m !! key with
    | Some (value :: _) => if isAuthHeader key then Some value else None
    | _ => None
    end)).
  - rewrite !lookup_empty. reflexivity.
  - intros i values m r Hi IH. rewrite extractAuthHeader_lookup, lookup_insert.
    destruct (decide (i = key)) as [->|Hne]; [|exact IH].
    rewrite Hi in IH. rewrite IH. destruct values as [|value values]; [reflexivity|].
    destruct (isAuthHeader key); reflexivity.
Qed.

Lemma extractAuthHeadersIn_lookup (entries : list (string * list string))
    (authHeaders : gmap string string) (key : string) :
  NoDup (entries.*1) ->
  foldl (fun authHeaders '(key, values) => extractAuthHeader key values authHeaders)
        authHeaders entries !! key =
  match (list_to_map entries : gmap string (list string)) !! key with
  | Some (value :: _) => if isAuthHeader key then Some value else authHeaders !! key
  | _ => authHeaders !! key
  end.
Proof.
  revert authHeaders. induction entries as [|[i values] entries IH]; intros authHeaders Hnodup.
  - cbn. rewrite lookup_empty. reflexivity.
  - cbn [fmap list_fmap fst] in Hnodup. apply NoDup_cons in Hnodup as [Hi Hnodup].
    cbn [foldl]. rewrite (IH _ Hnodup), list_to_map_cons, lookup_insert,
      extractAuthHeader_lookup.
    destruct (decide (i = key)) as [->|Hne]; [|reflexivity].
    rewrite (not_elem_of_list_to_map_1 entries key Hi). reflexivity.
Qed.

(** X18.  Go visits the headers of the request in an order it leaves open,
    and the result of [extractAuthHeaders] does not depend on it: the loop
    over the headers in any order gives the result of the loop in the order
    of the model. *)
Lemma extractAuthHeaders_any_order (headers : gmap string (list string))
    (entries : list (string * list string)) :
  entries ≡ₚ map_to_list headers ->
  extractAuthHeadersIn entries = extractAuthHeaders headers.
Proof.
  intros Hperm. apply map_eq. intros key.
  assert (Hnodup : NoDup (entries.*1)).
  { rewrite Hperm. apply NoDup_fst_map_to_list. }
  unfold extractAuthHeadersIn.
  rewrite (extractAuthHeadersIn_lookup _ _ _ Hnodup), extractAuthHeaders_lookup.
  rewrite (list_to_map_proper _ _ Hnodup Hperm), list_to_map_to_list, lookup_empty.
  destruct (headers !! key) as [[|value values]|]; try reflexivity.
Qed.

Lemma existsb_In {A} (f : A -> bool) (l : list A) :
  existsb f l = true <-> exists x, In x l /\ f x = true.
Proof. apply existsb_exists. Qed.

Lemma authHeaderNames_ASCII (name : string) :
  In name authHeaderNames -> strings.isASCII name = true.
Proof. intros [<-|[<-|[<-|[<-|[<-|[]]]]]]; reflexivity. Qed.

Lemma authHeaderPrefixes_ASCII (prefix : string) :
  In prefix authHeaderPrefixes -> strings.isASCII prefix = true.
Proof. intros [<-|[<-|[<-|[]]]]; reflexivity. Qed.

Lemma isAuthHeader_iff (key : string) :
  isAuthHeader key = true
  <-> (exists name, In name authHeaderNames /\ strings.EqualFold key name = true) \/
      (exists prefix, In prefix authHeaderPrefixes
         /\ strings.HasPrefix (strings.ToUpper key) (strings.ToUpper prefix) = true).
Proof. unfold isAuthHeader. rewrite orb_true_iff, !existsb_In. reflexivity. Qed.

(** C8.  A name is in the result exactly when the request carries a header
    of that name (at least one value) and the name matches one of
    [authHeaderNames] by [strings.EqualFold] or its [strings.ToUpper] form
    starts with the [strings.ToUpper] form of one of the three prefixes; the
    value kept is the first.  This holds of every name, whatever the case
    tables make of bytes from 128 up.  For a name of ASCII bytes the two tests
    are equality and prefix of the lower-case forms, byte by byte.  On the
    three headers of the example the result holds [X-User-Id] and
    [X-Auth-Token] and nothing else. *)
Theorem extractAuthHeaders_spec :
  (forall (headers : gmap string (list string)) (key value : string),
     extractAuthHeaders headers !! key = Some value <->
       (exists rest, headers !! key = Some (value :: rest)) /\
       ((exists name,
           In name ["X-User-Id"; "X-User-Uid"; "X-User-Email"; "X-User-Groups"; "X-User-Type"]
           /\ strings.EqualFold key name = true) \/
        (exists prefix,
           In prefix ["X-User-"; "X-Auth-"; "X-Group-"]
           /\ strings.HasPrefix (strings.ToUpper key) (strings.ToUpper prefix) = true))) /\
  (forall key : string,
     strings.isASCII key = true ->
     (forall name,
        In name ["X-User-Id"; "X-User-Uid"; "X-User-Email"; "X-User-Groups"; "X-User-Type"] ->
        strings.EqualFold key name = true
        <-> strings.toLowerASCII key = strings.toLowerASCII name) /\
     (forall prefix,
        In prefix ["X-User-"; "X-Auth-"; "X-Group-"] ->
        strings.HasPrefix (strings.ToUpper key) (strings.ToUpper prefix) = true
        <-> exists rest,
              strings.toLowerASCII key = strings.toLowerASCII prefix +:+ rest)) /\
  extractAuthHeaders
    {[ "X-User-Id" := ["u1"]; "X-Random" := ["x"]; "X-Auth-Token" := ["t1"] ]}
  = {[ "X-User-Id" := "u1"; "X-Auth-Token" := "t1" ]}.
Proof.
  split; [|split].
  - intros headers key value. rewrite extractAuthHeaders_lookup.
    fold authHeaderNames authHeaderPrefixes. rewrite <- isAuthHeader_iff.
    destruct (headers !! key) as [[|v vs]|].
    + split; [discriminate | intros [[rest [=]] _]].
    + destruct (isAuthHeader key).
      * split.
        -- intros [= ->]. split; [eauto | reflexivity].
        -- intros [[rest [= -> ->]] _]. reflexivity.
      * split; [discriminate|]. intros [_ H]. discriminate.
    + split; [discriminate | intros [[rest [=]] _]].
  - intros key Hkey. fold authHeaderNames authHeaderPrefixes. split.
    + intros name Hin.
      apply EqualFold_toLowerASCII; [exact Hkey | apply authHeaderNames_ASCII, Hin].
    + intros prefix Hin.
      rewrite (ToUpper_ASCII _ Hkey), (ToUpper_ASCII _ (authHeaderPrefixes_ASCII _ Hin)).
      apply HasPrefix_toUpperASCII.
  - vm_compute. reflexivity.
Qed.

(** ** Runs of interaction trees *)

Lemma exec_observe {F : Type -> Type} {R} (t u : itree F R) tr r :
  observe t = observe u -> exec t tr r -> exec u tr r.
Proof.
  intros Heq H. destruct H.
  - apply exec_Ret. congruence.
  - eapply exec_Tau; [|eassumption]. congruence.
  - eapply exec_Vis; [|eassumption]. congruence.
Qed.

Lemma exec_same {F : Type -> Type} {R} (t : itree F R) tr tr' r :
  exec t tr r -> tr = tr' -> exec t tr' r.
Proof. intros H <-. exact H. Qed.

Lemma exec_ret {F : Type -> Type} {R} (a : R) tr r :
  exec (Ret a : itree F R) tr r <-> tr = [] /\ r = a.
Proof.
  split.
  - intros H. inversion H; subst; cbn in *; try discriminate. split; congruence.
  - intros [-> ->]. apply exec_Ret. reflexivity.
Qed.

Lemma exec_tau {F : Type -> Type} {R} (t : itree F R) tr r :
  exec (Tau t) tr r <-> exec t tr r.
Proof.
  split.
  - intros H. inversion H; subst; cbn in *; try discriminate. congruence.
  - intros H. eapply exec_Tau; [reflexivity | exact H].
Qed.

Lemma exec_vis {F : Type -> Type} {R X} (e : F X) (k : X -> itree F R) tr r :
  exec (Vis e k) tr r <-> exists x tr', tr = Ob e x :: tr' /\ exec (k x) tr' r.
Proof.
  split.
  - intros H. inversion H; subst; cbn in *; try discriminate.
    match goal with H : VisF _ _ = VisF _ _ |- _ => inversion H; subst end.
    inj_existT. eauto.
  - intros (x & tr' & -> & H). eapply exec_Vis; [reflexivity | exact H].
Qed.

Lemma exec_bind_intro {F : Type -> Type} {R S} (t : itree F R) (k : R -> itree F S)
    tr1 a tr2 r :
  exec t tr1 a -> exec (k a) tr2 r -> exec (ITree.bind t k) (tr1 ++ tr2) r.
Proof.
  intros H1 H2. induction H1 as [t a Ht | t u tr a Ht Hu IH | t X e h x tr a Ht Hh IH].
  - eapply exec_observe; [|exact H2]. rewrite observe_bind, Ht. reflexivity.
  - eapply exec_Tau; [|exact (IH H2)]. rewrite observe_bind, Ht. reflexivity.
  - cbn [app]. apply (exec_Vis (ITree.bind t k) e (fun x => ITree.bind (h x) k) x).
    + rewrite observe_bind, Ht. reflexivity.
    + exact (IH H2).
Qed.

Lemma exec_bind_inv {F : Type -> Type} {R S} (t : itree F R) (k : R -> itree F S) tr r :
  exec (ITree.bind t k) tr r ->
  exists tr1 a tr2, exec t tr1 a /\ exec (k a) tr2 r /\ tr = tr1 ++ tr2.
Proof.
  intros H. remember (ITree.bind t k) as u eqn:Hu.
  assert (Hobs : observe u = observe (ITree.bind t k)) by (subst; reflexivity).
  clear Hu. revert t Hobs.
  induction H as [u r Hr | u v tr r Hu Hv IH | u X e h x tr r Hu Hk IH]; intros t Hobs.
  - rewrite Hr, observe_bind in Hobs.
    destruct (observe t) eqn:Ht; cbn in Hobs; try discriminate.
    exists [], r0, []. split; [apply exec_Ret; exact Ht|]. split; [|reflexivity].
    apply exec_Ret. congruence.
  - rewrite Hu, observe_bind in Hobs.
    destruct (observe t) eqn:Ht; cbn in Hobs.
    + exists [], r0, tr. split; [apply exec_Ret; exact Ht|]. split; [|reflexivity].
      eapply exec_Tau; [|exact Hv]. congruence.
    + inversion Hobs; subst.
      destruct (IH t0 eq_refl) as (tr1 & a & tr2 & H1 & H2 & ->).
      exists tr1, a, tr2. split; [eapply exec_Tau; eauto | split; [exact H2 | reflexivity]].
    + discriminate.
  - rewrite Hu, observe_bind in Hobs.
    destruct (observe t) eqn:Ht; cbn in Hobs.
    + exists [], r0, (Ob e x :: tr). split; [apply exec_Ret; exact Ht|]. split; [|reflexivity].
      eapply exec_Vis; [|exact Hk]. congruence.
    + discriminate.
    + inversion Hobs; subst. inj_existT.
      destruct (IH (k0 x) eq_refl) as (tr1 & a & tr2 & H1 & H2 & ->).
      match goal with |- context [Ob ?e x :: _] => exists (Ob e x :: tr1), a, tr2 end.
      split; [eapply exec_Vis; eauto | split; [exact H2 | reflexivity]].
Qed.

(** A run of [t ;; k] is a run of [t] followed by a run of [k]. *)
Lemma exec_bind {F : Type -> Type} {R S} (t : itree F R) (k : R -> itree F S) tr r :
  exec (ITree.bind t k) tr r <->
  exists tr1 a tr2, exec t tr1 a /\ exec (k a) tr2 r /\ tr = tr1 ++ tr2.
Proof.
  split; [apply exec_bind_inv|].
  intros (tr1 & a & tr2 & H1 & H2 & ->). eapply exec_bind_intro; eassumption.
Qed.

Lemma exec_bind_ret {F : Type -> Type} {R S} (a : R) (k : R -> itree F S) tr r :
  exec (ITree.bind (Ret a) k) tr r <-> exec (k a) tr r.
Proof. split; apply exec_observe; reflexivity. Qed.

Lemma exec_bind_trigger {F : Type -> Type} {R X} (e : F X) (k : X -> itree F R) tr r :
  exec (ITree.bind (ITree.trigger e) k) tr r <->
  exists x tr', tr = Ob e x :: tr' /\ exec (k x) tr' r.
Proof.
  rewrite <- (exec_vis e k). split; intros H.
  - apply (exec_observe _ (Vis e (fun x => ITree.bind (Ret x) k))) in H; [|reflexivity].
    apply exec_vis in H as (x & tr' & -> & H). apply exec_vis. exists x, tr'.
    split; [reflexivity | apply exec_bind_ret, H].
  - apply exec_vis in H as (x & tr' & -> & H).
    apply (exec_observe (Vis e (fun x => ITree.bind (Ret x) k))); [reflexivity|].
    apply exec_vis. exists x, tr'. split; [reflexivity | apply exec_bind_ret, H].
Qed.

Lemma exec_trigger {F : Type -> Type} {X} (e : F X) tr (x : X) :
  exec (ITree.trigger e) tr x <-> tr = [Ob e x].
Proof.
  unfold ITree.trigger. rewrite exec_vis. split.
  - intros (y & tr' & -> & H). apply exec_ret in H as [-> ->]. reflexivity.
  - intros ->. exists x, []. split; [reflexivity | apply exec_ret; auto].
Qed.

Lemma exec_bind_bind {F : Type -> Type} {R S T} (t : itree F R) (k : R -> itree F S)
    (h : S -> itree F T) tr r :
  exec (ITree.bind (ITree.bind t k) h) tr r <->
  exec (ITree.bind t (fun x => ITree.bind (k x) h)) tr r.
Proof.
  rewrite !exec_bind. split.
  - intros (tr1 & b & tr2 & H1 & H2 & ->).
    apply exec_bind in H1 as (tr3 & a & tr4 & H3 & H4 & ->).
    exists tr3, a, (tr4 ++ tr2). split; [exact H3|]. split; [|symmetry; apply app_assoc].
    apply exec_bind. eauto 6.
  - intros (tr1 & a & tr2 & H1 & H2 & ->).
    apply exec_bind in H2 as (tr3 & b & tr4 & H3 & H4 & ->).
    exists (tr1 ++ tr3), b, tr4. split; [|split; [exact H4 | apply app_assoc]].
    apply exec_bind. eauto 6.
Qed.

(** A run of a loop is a run of its body, then of the loop again or not. *)
Lemma exec_iter {F : Type -> Type} {R I} (body : I -> itree F (I + R)) i tr r :
  exec (ITree.iter body i) tr r <->
  exec (ITree.bind (body i)
          (fun lr => match lr with inl j => ITree.iter body j | inr a => Ret a end)) tr r.
Proof.
  transitivity
    (exec (ITree.bind (body i)
             (fun lr => match lr with inl j => Tau (ITree.iter body j) | inr a => Ret a end))
       tr r).
  { split; apply exec_observe; reflexivity. }
  rewrite !exec_bind. split; intros (tr1 & a & tr2 & H1 & H2 & ->);
    exists tr1, a, tr2; (split; [exact H1|]); (split; [|reflexivity]);
    destruct a; try exact H2; apply exec_tau; exact H2.
Qed.

Lemma exec_bind_call {R X} (e : wsE X) (k : X -> itree E R) tr r :
  exec (ITree.bind (call e) k) tr r <->
  exists x tr', tr = ws e x :: tr' /\ exec (k x) tr' r.
Proof. apply exec_bind_trigger. Qed.

Lemma exec_call {X} (e : wsE X) tr (x : X) : exec (call e) tr x <-> tr = [ws e x].
Proof. apply exec_trigger. Qed.

(** ** The relay loop *)

(** One round of [proxyMessages]: it is the last one, or it forwards a message
    and the loop goes on. *)
Lemma proxyMessages_unfold ctx src dest direction tr err :
  exec (proxyMessages ctx src dest direction) tr err <->
  relayEnd ctx src dest tr err \/
  exists m tr', tr = relayRound ctx src dest m ++ tr'
                /\ exec (proxyMessages ctx src dest direction) tr' err.
Proof.
  unfold proxyMessages at 1. rewrite exec_iter, exec_bind_bind, exec_bind_call.
  fold (proxyMessages ctx src dest direction). split.
  - intros (done & tr1 & -> & H). destruct done as [reason|].
    + rewrite !exec_bind_ret, exec_ret in H. destruct H as [-> ->].
      left. constructor.
    + rewrite exec_bind_bind, exec_bind_call in H. destruct H as (r & tr2 & -> & H).
      destruct r as [[messageType message]|e].
      * rewrite exec_bind_bind, exec_bind_call in H. destruct H as (w & tr3 & -> & H).
        destruct w as [e|].
        -- rewrite !exec_bind_ret, exec_ret in H. destruct H as [-> ->].
           left. apply (relayEnd_write _ _ _ (messageType, message)).
        -- rewrite !exec_bind_ret in H. right.
           exists (messageType, message), tr3. split; [reflexivity | exact H].
      * rewrite !exec_bind_ret, exec_ret in H. destruct H as [-> ->].
        left. constructor.
  - intros [Hend | (m & tr' & -> & H)].
    + destruct Hend as [reason | e | [messageType message] e].
      * exists (Some reason), []. split; [reflexivity|].
        rewrite !exec_bind_ret, exec_ret. auto.
      * exists None, [ws (ConnRead ctx src) (inr e)]. split; [reflexivity|].
        rewrite exec_bind_bind, exec_bind_call. exists (inr e), []. split; [reflexivity|].
        rewrite !exec_bind_ret, exec_ret. auto.
      * eexists None, _. split; [reflexivity|].
        rewrite exec_bind_bind, exec_bind_call. eexists (inl (messageType, message)), _.
        split; [reflexivity|].
        rewrite exec_bind_bind, exec_bind_call. exists (Some e), []. split; [reflexivity|].
        rewrite !exec_bind_ret, exec_ret. auto.
    + destruct m as [messageType message].
      eexists None, _. split; [reflexivity|].
      rewrite exec_bind_bind, exec_bind_call. eexists (inl (messageType, message)), _.
      split; [reflexivity|].
      rewrite exec_bind_bind, exec_bind_call. exists None, tr'. split; [reflexivity|].
      rewrite !exec_bind_ret. exact H.
Qed.

(** C2.  The runs of [proxyMessages] that return are exactly these: some
    rounds, each reading one message from [src] and writing that very type and
    payload to [dest], one after the other in the order read; then a last
    round in which the context is found cancelled, or the read fails, or the
    write fails, whose reason or error is what the loop returns. *)
Theorem proxyMessages_relays_in_order ctx src dest direction tr err :
  exec (proxyMessages ctx src dest direction) tr err <->
  exists msgs ending,
    tr = concat (map (relayRound ctx src dest) msgs) ++ ending
    /\ relayEnd ctx src dest ending err.
Proof.
  split.
  - remember (length tr) as n eqn:Hn. revert tr Hn.
    induction n as [n IH] using lt_wf_ind. intros tr Hn H.
    apply proxyMessages_unfold in H as [Hend | (m & tr' & -> & H)].
    + exists [], tr. split; [reflexivity | exact Hend].
    + destruct (IH (length tr')) with (tr := tr') as (msgs & ending & -> & Hend);
        [subst n; rewrite length_app; cbn; lia | reflexivity | exact H |].
      exists (m :: msgs), ending. split; [|exact Hend].
      cbn [map concat]. rewrite <- app_assoc. reflexivity.
  - intros (msgs & ending & -> & Hend). induction msgs as [|m msgs IH].
    + apply proxyMessages_unfold. left. exact Hend.
    + apply proxyMessages_unfold. right. exists m, (concat (map (relayRound ctx src dest) msgs) ++ ending).
      split; [|exact IH]. cbn [map concat]. rewrite <- app_assoc. reflexivity.
Qed.

(** ** Dialing the backend *)

Lemma exec_readLimit {R} (wsConfig : Config) (conn : websocket.Conn)
    (k : unit -> itree E R) tr r :
  exec (ITree.bind (if 0 <? MaxMessageSize wsConfig
                    then call (SetReadLimit conn (MaxMessageSize wsConfig))
                    else Ret tt) k) tr r
  <-> exists tr', tr = readLimitSteps wsConfig conn ++ tr' /\ exec (k tt) tr' r.
Proof.
  unfold readLimitSteps. destruct (0 <? MaxMessageSize wsConfig).
  - rewrite exec_bind_call. split.
    + intros ([] & tr' & -> & H). eauto.
    + intros (tr' & -> & H). exists tt, tr'. auto.
  - rewrite exec_bind_ret. split; [eauto | intros (tr' & -> & H); exact H].
Qed.

(** The runs of [connectToBackend]: no step at all when no address can be
    derived; otherwise one dial at the derived address with the auth headers,
    one value each, and on success the read limit. *)
Lemma connectToBackend_runs ctx cfg wsConfig authHeaders tr res :
  exec (connectToBackend ctx cfg wsConfig authHeaders) tr res <->
  match backendURL cfg wsConfig with
  | inr err => tr = [] /\ res = inr err
  | inl wsURL =>
      let opts := {| websocket.HTTPHeader := (fun value => [value]) <$> authHeaders |} in
      (exists err,
         tr = [ws (Dial ctx wsURL opts) (inr err)]
         /\ res = inr (wrapError ("failed to connect to backend WebSocket " +:+ wsURL +:+ ": ")
                         err)) \/
      (exists conn,
         tr = ws (Dial ctx wsURL opts) (inl conn) :: readLimitSteps wsConfig conn
         /\ res = inl conn)
  end.
Proof.
  unfold connectToBackend. destruct (backendURL cfg wsConfig) as [wsURL|err].
  - cbn zeta. rewrite exec_bind_call. split.
    + intros ([conn|err] & tr' & -> & H).
      * right. exists conn. apply exec_readLimit in H as (tr'' & -> & H).
        apply exec_ret in H as [-> ->]. rewrite app_nil_r. auto.
      * left. exists err. apply exec_ret in H as [-> ->]. auto.
    + intros [(err & -> & ->) | (conn & -> & ->)].
      * exists (inr err), []. split; [reflexivity | apply exec_ret; auto].
      * exists (inl conn), (readLimitSteps wsConfig conn). split; [reflexivity|].
        apply exec_readLimit. exists []. rewrite app_nil_r. split; [reflexivity|].
        apply exec_ret; auto.
  - apply exec_ret.
Qed.

(** ** The session *)

Lemma handleConnectionLifecycle_runs ctx clientConn cfg p wsConfig authHeaders tr r :
  exec (handleConnectionLifecycle ctx clientConn cfg p wsConfig authHeaders) tr r <->
  exists tr1 res closed selected,
    exec (connectToBackend (context.WithCancel ctx) cfg wsConfig authHeaders) tr1 res
    /\ tr = tr1 ++ lifecycleSteps ctx clientConn res closed selected.
Proof.
  unfold handleConnectionLifecycle. cbn zeta. rewrite exec_bind. split.
  - intros (tr1 & res & tr2 & H1 & H2 & ->). exists tr1, res.
    destruct res as [backendConn|err]; cbn [lifecycleSteps].
    + apply exec_bind_call in H2 as ([] & ? & -> & H2).
      apply exec_bind_call in H2 as ([] & ? & -> & H2).
      apply exec_bind_call in H2 as (selected & ? & -> & H2).
      apply exec_bind_call in H2 as (closed & ? & -> & H2).
      apply exec_call in H2 as ->. destruct r. exists closed, selected. auto.
    + apply exec_bind_call in H2 as (closed & ? & -> & H2).
      apply exec_call in H2 as ->. destruct r. exists closed, ContextDone. auto.
  - intros (tr1 & res & closed & selected & H1 & ->).
    exists tr1, res, (lifecycleSteps ctx clientConn res closed selected).
    split; [exact H1|]. split; [|reflexivity].
    destruct r, res as [backendConn|err]; cbn [lifecycleSteps].
    + apply exec_bind_call. eexists tt, _. split; [reflexivity|].
      apply exec_bind_call. eexists tt, _. split; [reflexivity|].
      apply exec_bind_call. eexists selected, _. split; [reflexivity|].
      apply exec_bind_call. eexists closed, _. split; [reflexivity|].
      apply exec_call. reflexivity.
    + apply exec_bind_call. eexists closed, _. split; [reflexivity|].
      apply exec_call. reflexivity.
Qed.

Lemma handleWebSocketConnection_runs c cfg p wsConfig authHeaders tr r :
  exec (handleWebSocketConnection c cfg p wsConfig authHeaders) tr r <->
  match config.Backend cfg with
  | [] =>
      tr = [ws (GinJSON http.StatusInternalServerError
                  {[ "error" := VString "No backend configured" ]}) tt]
  | _ :: _ =>
      (exists err,
         tr = [ ws (Accept (gin.Request c) (acceptOptions wsConfig)) (inr err);
                ws (GinJSON http.StatusBadRequest
                      {[ "error" := VString "WebSocket upgrade failed" ]}) tt ]) \/
      (exists conn tr' closed,
         exec (handleConnectionLifecycle context.OfRequest conn cfg p wsConfig authHeaders)
           tr' tt
         /\ tr = ws (Accept (gin.Request c) (acceptOptions wsConfig)) (inl conn)
                 :: readLimitSteps wsConfig conn ++ tr'
                 ++ [ws (ConnClose conn websocket.StatusInternalError "Internal error") closed])
  end.
Proof.
  unfold handleWebSocketConnection. cbn zeta.
  destruct (config.Backend cfg) as [|backend backends]; cbn [length Nat.eqb].
  - destruct r. apply exec_call.
  - rewrite exec_bind_call. split.
    + intros ([conn|err] & tr1 & -> & H).
      * right. apply exec_readLimit in H as (tr2 & -> & H).
        apply exec_bind in H as (tr' & [] & tr3 & H1 & H2 & ->).
        apply exec_bind_call in H2 as (closed & ? & -> & H2).
        apply exec_ret in H2 as [-> _]. exists conn, tr', closed. auto.
      * left. exists err. destruct r. apply exec_call in H as ->. reflexivity.
    + intros [(err & ->) | (conn & tr' & closed & H & ->)].
      * eexists (inr err), _. split; [reflexivity|]. destruct r. apply exec_call. reflexivity.
      * eexists (inl conn), _. split; [reflexivity|]. apply exec_readLimit.
        eexists. split; [reflexivity|]. apply exec_bind. eexists tr', tt, _.
        split; [exact H|]. split; [|reflexivity].
        apply exec_bind_call. exists closed, []. split; [reflexivity|].
        apply exec_ret. destruct r. auto.
Qed.

(** C9.  The runs of the session after the client asked for an upgrade, on
    an endpoint with a backend array.  When [websocket.Accept] fails the run
    is the failed handshake and the 400 response, and nothing else: no dial.
    When it succeeds the run goes through [handleConnectionLifecycle], and
    there, when [connectToBackend] returns an error, the next step closes the
    upgraded client connection with [StatusInternalError].  [connectToBackend]
    returns an error when no address can be derived, without a step, and when
    the one dial it makes fails. *)
Theorem backend_failure_closes_client c cfg p wsConfig authHeaders :
  (config.Backend cfg <> [] ->
   forall tr,
     exec (handleWebSocketConnection c cfg p wsConfig authHeaders) tr tt <->
     (exists err,
        tr = [ ws (Accept (gin.Request c) (acceptOptions wsConfig)) (inr err);
               ws (GinJSON 400 {[ "error" := VString "WebSocket upgrade failed" ]}) tt ]) \/
     (exists conn tr' closed,
        exec (handleConnectionLifecycle context.OfRequest conn cfg p wsConfig authHeaders)
          tr' tt
        /\ tr = ws (Accept (gin.Request c) (acceptOptions wsConfig)) (inl conn)
                :: readLimitSteps wsConfig conn ++ tr'
                ++ [ws (ConnClose conn 1011 "Internal error") closed])) /\
  (forall ctx clientConn tr,
     exec (handleConnectionLifecycle ctx clientConn cfg p wsConfig authHeaders) tr tt <->
     (exists tr1 err closed,
        exec (connectToBackend (context.WithCancel ctx) cfg wsConfig authHeaders) tr1 (inr err)
        /\ tr = tr1 ++ [ ws (ConnClose clientConn 1011 "Backend connection failed") closed;
                         ws (Cancel (context.WithCancel ctx)) tt ]) \/
     (exists tr1 backendConn closed selected,
        exec (connectToBackend (context.WithCancel ctx) cfg wsConfig authHeaders)
          tr1 (inl backendConn)
        /\ tr = tr1 ++ lifecycleSteps ctx clientConn (inl backendConn) closed selected)) /\
  (forall ctx tr1 err,
     exec (connectToBackend ctx cfg wsConfig authHeaders) tr1 (inr err) <->
     (backendURL cfg wsConfig = inr err /\ tr1 = []) \/
     (exists wsURL cause,
        backendURL cfg wsConfig = inl wsURL
        /\ tr1 = [ws (Dial ctx wsURL
                        {| websocket.HTTPHeader := (fun value => [value]) <$> authHeaders |})
                     (inr cause)]
        /\ err = wrapError ("failed to connect to backend WebSocket " +:+ wsURL +:+ ": ")
                   cause)).
Proof.
  split; [|split].
  - intros Hne tr. rewrite handleWebSocketConnection_runs.
    destruct (config.Backend cfg); [contradiction | reflexivity].
  - intros ctx clientConn tr. rewrite handleConnectionLifecycle_runs. split.
    + intros (tr1 & [backendConn|err] & closed & selected & H & ->).
      * right. eauto 6.
      * left. eauto 6.
    + intros [(tr1 & err & closed & H & ->) | (tr1 & backendConn & closed & selected & H & ->)].
      * exists tr1, (inr err), closed, ContextDone. auto.
      * eauto 6.
  - intros ctx tr1 err. rewrite connectToBackend_runs.
    destruct (backendURL cfg wsConfig) as [wsURL|e]; cbn zeta.
    + split.
      * intros [(cause & -> & [= ->]) | (conn & _ & [=])]. right. eauto.
      * intros [[[=] _] | (wsURL' & cause & [= <-] & -> & ->)]. left. eauto.
    + split.
      * intros [-> [= ->]]. left. auto.
      * intros [[[= ->] ->] | (wsURL & cause & [=] & _)]. auto.
Qed.

(** ** The wrapper *)

Lemma parseWebSocketConfig_absent (extraConfig : gmap string Value) :
  extraConfig !! "websocket" = None \/
  (exists v, extraConfig !! "websocket" = Some v /\ forall m, v <> VMap m) ->
  parseWebSocketConfig extraConfig = (zeroConfig, false).
Proof.
  unfold parseWebSocketConfig. change ConfigNamespace with "websocket".
  intros [-> | (v & -> & Hv)]; [reflexivity|].
  destruct v; try reflexivity. destruct (Hv m eq_refl).
Qed.

(** C10.  On an endpoint with WebSocket configuration whose [Backend] array is
    empty, the handler answers an upgrade request with one step, the 500
    response, whatever [extra_config] holds under [backend] and
    [backend_path]: there is no [Accept] and no [Dial] in any run. *)
Theorem upgrade_without_backend_array_is_500
    (standardHandlerFactory : HandlerFactoryT) cfg p wsConfig c :
  parseWebSocketConfig (config.ExtraConfig cfg) = (wsConfig, true) ->
  config.Backend cfg = [] ->
  isWebSocketUpgrade (gin.Request c) = true ->
  HandlerWrapper standardHandlerFactory cfg p
    = Ret (webSocketHandler standardHandlerFactory cfg p wsConfig) /\
  forall tr,
    exec (webSocketHandler standardHandlerFactory cfg p wsConfig c) tr tt <->
    tr = [ws (GinJSON 500 {[ "error" := VString "No backend configured" ]}) tt].
Proof.
  intros Hcfg Hbackend Hupgrade. split.
  - unfold HandlerWrapper. rewrite Hcfg. reflexivity.
  - intros tr. unfold webSocketHandler. rewrite Hupgrade. cbn [negb].
    rewrite handleWebSocketConnection_runs, Hbackend. reflexivity.
Qed.

(** C5.  For an endpoint without the [websocket] key, or with something
    other than a map under it, the wrapped factory is the standard factory.
    For an endpoint with WebSocket configuration the wrapped factory returns
    [webSocketHandler], which on a request that is no upgrade builds the
    standard handler and runs it on the request. *)
Theorem HandlerWrapper_transparent (standardHandlerFactory : HandlerFactoryT) cfg p :
  (config.ExtraConfig cfg !! "websocket" = None \/
   (exists v, config.ExtraConfig cfg !! "websocket" = Some v /\ forall m, v <> VMap m) ->
   HandlerWrapper standardHandlerFactory cfg p = standardHandlerFactory cfg p) /\
  (forall wsConfigMap,
     config.ExtraConfig cfg !! "websocket" = Some (VMap wsConfigMap) ->
     exists wsConfig,
       HandlerWrapper standardHandlerFactory cfg p
         = Ret (webSocketHandler standardHandlerFactory cfg p wsConfig) /\
       forall c,
         isWebSocketUpgrade (gin.Request c) = false ->
         webSocketHandler standardHandlerFactory cfg p wsConfig c
           = (standardHandler <- standardHandlerFactory cfg p ;; standardHandler c)).
Proof.
  split.
  - intros H. unfold HandlerWrapper.
    rewrite (parseWebSocketConfig_absent _ H). reflexivity.
  - intros wsConfigMap H. unfold HandlerWrapper.
    rewrite (parseWebSocketConfig_fields _ _ H). eexists. split; [reflexivity|].
    intros c Hc. unfold webSocketHandler. rewrite Hc. reflexivity.
Qed.

(** ** Backend addresses *)

(** After [InitializeBackendRegistry] the registry is never nil. *)
Lemma InitializeBackendRegistry_not_nil (serviceExtraConfig : gmap string Value)
    (before : option BackendRegistry) :
  exists registry, InitializeBackendRegistry serviceExtraConfig before = Some registry.
Proof.
  unfold InitializeBackendRegistry.
  destruct (assertMap (serviceExtraConfig !! "websocket_backends")); [eauto|].
  destruct before; eauto.
Qed.

(** C3, as the code has it.  [deriveWebSocketURL] never returns an error and
    its result ends with the path as given.  A name in the registry gives the
    registry's URL followed by the path, with whatever scheme that URL has;
    any other name gives [ws], or the forced scheme when there is one, then
    the host of the static table for [albus] and [localhost:8080] otherwise.
    With no forced scheme that is also the address [connectToBackend] dials. *)
Theorem deriveWebSocketURL_total (backendName backendPath forceScheme : string) :
  exists wsURL : string,
    deriveWebSocketURL backendName backendPath forceScheme = inl wsURL /\
    (exists base, wsURL = base +:+ backendPath) /\
    (forall registry registryURL,
       globalBackendRegistry = Some registry ->
       Backends registry !! backendName = Some registryURL ->
       wsURL = registryURL +:+ backendPath) /\
    ((globalBackendRegistry ≫= fun registry => Backends registry !! backendName) = None ->
     wsURL = (if String.eqb forceScheme "" then "ws" else forceScheme) +:+ "://"
             +:+ (if String.eqb backendName "albus" then "localhost:3000" else "localhost:8080")
             +:+ backendPath) /\
    (forall cfg wsConfig,
       config.ExtraConfig cfg !! "backend" = Some (VString backendName) ->
       config.ExtraConfig cfg !! "backend_path" = Some (VString backendPath) ->
       BackendScheme wsConfig = forceScheme ->
       forceScheme = "" ->
       backendURL cfg wsConfig = inl wsURL).
Proof.
  assert (Hfallback :
    forall host : string,
      (if negb (String.eqb forceScheme "") then forceScheme else "ws") +:+ "://" +:+ host
        +:+ backendPath
      = ((if String.eqb forceScheme "" then "ws" else forceScheme) +:+ "://" +:+ host)
        +:+ backendPath).
  { intros host. destruct (String.eqb forceScheme ""); cbn [negb];
      rewrite !append_assoc; reflexivity. }
  assert (Hderive :
    deriveWebSocketURL backendName backendPath forceScheme =
    inl match globalBackendRegistry ≫= fun registry => Backends registry !! backendName with
        | Some registryURL => registryURL +:+ backendPath
        | None =>
            ((if String.eqb forceScheme "" then "ws" else forceScheme) +:+ "://"
             +:+ (if String.eqb backendName "albus" then "localhost:3000" else "localhost:8080"))
            +:+ backendPath
        end).
  { unfold deriveWebSocketURL.
    destruct globalBackendRegistry as [registry|]; cbn [mbind option_bind];
      [destruct (Backends registry !! backendName); [reflexivity|]|];
      cbn zeta; rewrite Hfallback;
      (destruct (String.eqb_spec backendName "albus") as [->|Hne];
       [reflexivity | rewrite lookup_singleton_ne by congruence; reflexivity]). }
  eexists. split; [exact Hderive|]. split; [|split; [|split]].
  - destruct (globalBackendRegistry ≫= _); eauto.
  - intros registry registryURL -> Hreg. cbn [mbind option_bind]. rewrite Hreg. reflexivity.
  - intros ->. rewrite !append_assoc. reflexivity.
  - intros cfg wsConfig Hname Hpath Hscheme ->. unfold backendURL.
    rewrite Hname, Hpath, Hscheme. cbn [assertString]. rewrite Hderive. reflexivity.
Qed.

(** [backendURL] is [derivedURL] followed by the scheme override. *)
Lemma backendURL_derivedURL (cfg : config.EndpointConfig) (wsConfig : Config) :
  backendURL cfg wsConfig =
  match derivedURL cfg wsConfig with
  | inr err => inr err
  | inl wsURL =>
      if String.eqb (BackendScheme wsConfig) "" then inl wsURL
      else match url_Parse wsURL with
           | inl parsedURL =>
               inl (url_String (url.set_Scheme (BackendScheme wsConfig) parsedURL))
           | inr err => inr (wrapError "failed to parse WebSocket URL: " err)
           end
  end.
Proof.
  unfold backendURL, derivedURL.
  destruct (match assertString _ with Some _ => _ | None => _ end) as [wsURL|err];
    [|reflexivity].
  destruct (String.eqb (BackendScheme wsConfig) ""); cbn [negb];
    [|destruct (url_Parse wsURL)]; reflexivity.
Qed.

(** [deriveWebSocketURL] has no error to give. *)
Lemma deriveWebSocketURL_succeeds (backendName backendPath forceScheme : string) :
  exists wsURL, deriveWebSocketURL backendName backendPath forceScheme = inl wsURL.
Proof.
  unfold deriveWebSocketURL.
  destruct (match globalBackendRegistry with
            | Some registry => Backends registry !! backendName
            | None => None
            end); eauto.
Qed.

(** C4.  Write [override] for the last step of the resolution: with no
    forced scheme the derived address as it is; with one, the address is
    parsed, a failure being the error [failed to parse WebSocket URL], and
    rendered again with its scheme set to the forced one.  With no string
    under [backend], the address comes from the host list: an empty [Backend]
    array, an empty host list and a first host [url.Parse] rejects are
    errors, each its own; otherwise the address is [override] of the address
    made of the scheme ([wss] for an [https] host and [ws] for any other,
    or the forced scheme when there is one), the host of the first host of
    the first backend and the URL pattern.  In the named shape it is
    [override] of what [deriveWebSocketURL] gives.  So, for either shape, with
    a forced scheme an address is returned exactly when the derived address
    parses, and it is the rendering of that very URL with the forced scheme in
    its [Scheme] field.  [connectToBackend] dials the address returned and no
    other. *)
Theorem backendURL_host_list_and_forced_scheme (cfg : config.EndpointConfig) (wsConfig : Config) :
  let forced := BackendScheme wsConfig in
  let override (derived : string) : string + error :=
    if String.eqb forced "" then inl derived
    else match url_Parse derived with
         | inl parsedURL => inl (url_String (url.set_Scheme forced parsedURL))
         | inr err => inr (wrapError "failed to parse WebSocket URL: " err)
         end in
  ((forall backendName, config.ExtraConfig cfg !! "backend" <> Some (VString backendName)) ->
   (config.Backend cfg = [] ->
    backendURL cfg wsConfig = inr (errorString "no backend configured for WebSocket endpoint")) /\
   (forall backend backends,
      config.Backend cfg = backend :: backends ->
      (config.Host backend = [] ->
       backendURL cfg wsConfig = inr (errorString "no host configured in backend")) /\
      (forall httpHost hosts,
         config.Host backend = httpHost :: hosts ->
         (forall err,
            url_Parse httpHost = inr err ->
            backendURL cfg wsConfig
            = inr (wrapError ("failed to parse backend host " +:+ httpHost +:+ ": ") err)) /\
         (forall parsedURL,
            url_Parse httpHost = inl parsedURL ->
            backendURL cfg wsConfig =
            override ((if String.eqb forced ""
                       then if String.eqb (url.Scheme parsedURL) "https" then "wss" else "ws"
                       else forced)
                      +:+ "://" +:+ url.Host parsedURL +:+ config.URLPattern backend))))) /\
  (forall backendName backendPath,
     config.ExtraConfig cfg !! "backend" = Some (VString backendName) ->
     config.ExtraConfig cfg !! "backend_path" = Some (VString backendPath) ->
     exists derived,
       deriveWebSocketURL backendName backendPath forced = inl derived
       /\ backendURL cfg wsConfig = override derived) /\
  backendURL cfg wsConfig
  = match derivedURL cfg wsConfig with
    | inl derived => override derived
    | inr err => inr err
    end /\
  (forced <> "" ->
   forall wsURL,
     backendURL cfg wsConfig = inl wsURL <->
     exists derived parsedURL,
       derivedURL cfg wsConfig = inl derived
       /\ url_Parse derived = inl parsedURL
       /\ wsURL = url_String (url.set_Scheme forced parsedURL)) /\
  (forall parsedURL, url.Scheme (url.set_Scheme forced parsedURL) = forced) /\
  (forall ctx authHeaders tr res,
     exec (connectToBackend ctx cfg wsConfig authHeaders) tr res ->
     match backendURL cfg wsConfig with
     | inr err => tr = [] /\ res = inr err
     | inl wsURL =>
         exists answer,
           tr = ws (Dial ctx wsURL
                      {| websocket.HTTPHeader := (fun value => [value]) <$> authHeaders |})
                   answer
                :: match answer with
                   | inl conn => readLimitSteps wsConfig conn
                   | inr _ => []
                   end
     end).
Proof.
  intros forced override. subst forced override. cbv beta.
  split; [|split; [|split; [|split; [|split]]]].
  - intros Hshape. unfold backendURL. rewrite (assertString_None _ Hshape). split.
    + intros ->. reflexivity.
    + intros backend backends ->. split.
      * intros ->. reflexivity.
      * intros httpHost hosts ->. unfold convertHTTPToWebSocketURL. split.
        -- intros err ->. reflexivity.
        -- intros parsedURL ->. cbv zeta.
           destruct (String.eqb (BackendScheme wsConfig) ""); cbn [negb]; reflexivity.
  - intros backendName backendPath Hname Hpath.
    destruct (deriveWebSocketURL_succeeds backendName backendPath (BackendScheme wsConfig))
      as [derived Hderived].
    exists derived. split; [exact Hderived|].
    unfold backendURL. rewrite Hname, Hpath. cbn [assertString]. rewrite Hderived.
    destruct (String.eqb (BackendScheme wsConfig) ""); reflexivity.
  - rewrite backendURL_derivedURL. destruct (derivedURL cfg wsConfig); reflexivity.
  - intros Hforced wsURL. rewrite backendURL_derivedURL.
    apply String.eqb_neq in Hforced. split.
    + destruct (derivedURL cfg wsConfig) as [derived|err]; [|discriminate].
      rewrite Hforced.
      destruct (url_Parse derived) as [parsedURL|err] eqn:Hparse; [|discriminate].
      intros [= <-]. eauto.
    + intros (derived & parsedURL & -> & Hparse & ->). rewrite Hforced, Hparse. reflexivity.
  - intros parsedURL. reflexivity.
  - intros ctx authHeaders tr res H. apply connectToBackend_runs in H.
    destruct (backendURL cfg wsConfig) as [wsURL|err]; [|exact H].
    destruct H as [(err & -> & _) | (conn & -> & _)];
      [exists (inr err) | exists (inl conn)]; reflexivity.
Qed.

(* ================================================================== *)
(** * Further properties of the code *)

(** ** Numbers of the configuration *)

Lemma digits2_pos_iter_xO (m k : positive) :
  digits2_pos (Pos.iter xO m k) = (digits2_pos m + k)%positive.
Proof.
  induction k as [|k IH] using Pos.peano_ind.
  - cbn. lia.
  - rewrite Pos.iter_succ. cbn [digits2_pos]. rewrite IH. lia.
Qed.

Lemma Zpos_iter_xO (m k : positive) : Z.pos (Pos.iter xO m k) = Z.pos m * 2 ^ Z.pos k.
Proof.
  induction k as [|k IH] using Pos.peano_ind.
  - cbn. lia.
  - rewrite Pos.iter_succ, Pos2Z.inj_xO, IH, Pos2Z.inj_succ, Z.pow_succ_r by lia. lia.
Qed.

(** A number of [d] binary digits is at least [2 ^ (d - 1)]. *)
Lemma digits2_pos_lower (m : positive) : 2 ^ (Z.pos (digits2_pos m) - 1) <= Z.pos m.
Proof.
  induction m as [m IH|m IH|]; cbn [digits2_pos]; [| |cbn; lia];
    rewrite Pos2Z.inj_succ;
    replace (Z.succ (Z.pos (digits2_pos m)) - 1) with (Z.succ (Z.pos (digits2_pos m) - 1))
      by lia;
    rewrite Z.pow_succ_r by lia; lia.
Qed.

Lemma digits2_pos_le_prec (m : positive) : Z.pos m < 2 ^ 53 -> Z.pos (digits2_pos m) <= 53.
Proof.
  intros Hm. pose proof (digits2_pos_lower m) as Hl.
  destruct (Z.le_gt_cases (Z.pos (digits2_pos m)) 53) as [H|H]; [exact H|].
  assert (2 ^ 53 <= 2 ^ (Z.pos (digits2_pos m) - 1)) by (apply Z.pow_le_mono_r; lia).
  lia.
Qed.

(** An integer below [2 ^ 53] is a [float64] as it stands: the mantissa is
    the integer shifted left to 53 bits, and no bit is rounded away. *)
Lemma binary_round_integer (s : bool) (m : positive) :
  Z.pos m < 2 ^ 53 ->
  exists (mz : positive) (k : Z),
    binary_round float64.prec float64.emax s m 0 = S754_finite s mz (- k)
    /\ 0 <= k <= 52 /\ Z.pos mz = Z.pos m * 2 ^ k.
Proof.
  intros Hm. pose proof (digits2_pos_le_prec m Hm) as Hd.
  unfold binary_round, shl_align, fexp, emin, float64.prec, float64.emax.
  set (d := digits2_pos m) in *.
  rewrite Z.add_0_r, Z.sub_0_r.
  replace (Z.max (Z.pos d - 53) (3 - 1024 - 53)) with (Z.pos d - 53) by lia.
  destruct (Z.pos d - 53) as [|q|q] eqn:Hq; [|lia|].
  - exists m, 0. split; [|lia].
    unfold binary_round_aux, shr_fexp, fexp, emin. cbn [Zdigits2 shr_record_of_loc].
    fold d. rewrite Z.add_0_r.
    replace (Z.max (Z.pos d - 53) (3 - 1024 - 53) - 0) with 0 by lia.
    cbn [shr shr_m loc_of_shr_record round_nearest_even Zdigits2]. fold d. rewrite Z.add_0_r.
    replace (Z.max (Z.pos d - 53) (3 - 1024 - 53) - 0) with 0 by lia.
    cbn. reflexivity.
  - exists (Pos.iter xO m q), (Z.pos q). split; [|split; [lia | apply Zpos_iter_xO]].
    unfold binary_round_aux, shr_fexp, fexp, emin. cbn [Zdigits2 shr_record_of_loc].
    rewrite digits2_pos_iter_xO. fold d.
    replace (Z.max (Z.pos (d + q) + Z.neg q - 53) (3 - 1024 - 53) - Z.neg q) with 0 by lia.
    cbn [shr shr_m loc_of_shr_record round_nearest_even Zdigits2].
    rewrite digits2_pos_iter_xO. fold d.
    replace (Z.max (Z.pos (d + q) + Z.neg q - 53) (3 - 1024 - 53) - Z.neg q) with 0 by lia.
    cbn [shr shr_m].
    replace (Z.neg q <=? 1024 - 53) with true by (symmetry; apply Z.leb_le; lia).
    reflexivity.
Qed.

(** [int64(float64(n)) == n] for an integer of up to 53 bits. *)
Lemma to_int64_of_Z (n : Z) : - 2 ^ 53 < n < 2 ^ 53 -> float64.to_int64 (float64.of_Z n) = n.
Proof.
  intros Hn. unfold float64.of_Z, binary_normalize.
  assert (Hfin : forall (s : bool) (m : positive), Z.pos m < 2 ^ 53 ->
            float64.to_int64 (binary_round float64.prec float64.emax s m 0)
            = if s then - Z.pos m else Z.pos m).
  { intros s m Hm. destruct (binary_round_integer s m Hm) as (mz & k & -> & Hk & Hmz).
    unfold float64.to_int64, float64.trunc.
    assert (Ha : (if 0 <=? - k then Z.pos mz * 2 ^ (- k) else Z.pos mz / 2 ^ (- - k))
                 = Z.pos m).
    { destruct (Z.leb_spec 0 (- k)).
      - replace k with 0 in * by lia. cbn. lia.
      - rewrite Z.opp_involutive, Hmz. apply Z.div_mul. apply Z.pow_nonzero; lia. }
    rewrite Ha.
    replace ((- 2 ^ 63 <=? (if s then - Z.pos m else Z.pos m))
             && ((if s then - Z.pos m else Z.pos m) <? 2 ^ 63)) with true; [reflexivity|].
    symmetry. apply andb_true_iff. split; [apply Z.leb_le | apply Z.ltb_lt]; destruct s; lia. }
  destruct n as [|m|m].
  - reflexivity.
  - apply (Hfin false). lia.
  - apply (Hfin true). lia.
Qed.

(** X1.  A size written in the configuration as an integer of up to 53 bits
    is the size the endpoint gets, for each of [read_buffer_size],
    [write_buffer_size] and [max_message_size]: the conversions [int(f)] and
    [int64(f)] give back the integer JSON decoding turned into a [float64].
    Nothing is checked on the way: zero and the negative numbers are taken
    as they are. *)
Theorem parseWebSocketConfig_integer_sizes (extraConfig wsConfigMap : gmap string Value)
    (n : Z) :
  extraConfig !! "websocket" = Some (VMap wsConfigMap) ->
  - 2 ^ 53 < n < 2 ^ 53 ->
  (wsConfigMap !! "read_buffer_size" = Some (VFloat (float64.of_Z n)) ->
   ReadBufferSize (fst (parseWebSocketConfig extraConfig)) = n) /\
  (wsConfigMap !! "write_buffer_size" = Some (VFloat (float64.of_Z n)) ->
   WriteBufferSize (fst (parseWebSocketConfig extraConfig)) = n) /\
  (wsConfigMap !! "max_message_size" = Some (VFloat (float64.of_Z n)) ->
   MaxMessageSize (fst (parseWebSocketConfig extraConfig)) = n).
Proof.
  intros Hns Hn. rewrite (parseWebSocketConfig_fields _ _ Hns).
  cbn [fst ReadBufferSize WriteBufferSize MaxMessageSize].
  repeat split; intros ->; cbn [assertFloat64]; apply to_int64_of_Z, Hn.
Qed.

(** X2.  [parseWebSocketConfig] reads the entry under [websocket] and, in it,
    seven keys: two blobs whose [websocket] maps agree on those seven give
    the same result, whatever else the blobs and the maps hold.  A key the
    code does not know, a misspelt one say, is passed over in silence. *)
Theorem parseWebSocketConfig_reads_seven_keys
    (extraConfig extraConfig' wsConfigMap wsConfigMap' : gmap string Value) :
  extraConfig !! "websocket" = Some (VMap wsConfigMap) ->
  extraConfig' !! "websocket" = Some (VMap wsConfigMap') ->
  (forall key,
     In key ["read_buffer_size"; "write_buffer_size"; "handshake_timeout"; "compression";
             "subprotocols"; "backend_scheme"; "max_message_size"] ->
     wsConfigMap !! key = wsConfigMap' !! key) ->
  parseWebSocketConfig extraConfig = parseWebSocketConfig extraConfig'.
Proof.
  intros Hns Hns' Hkeys.
  rewrite (parseWebSocketConfig_fields _ _ Hns), (parseWebSocketConfig_fields _ _ Hns').
  rewrite !Hkeys by (cbn [In]; auto 10). reflexivity.
Qed.

(** ** The registry *)

Lemma assertMap_None (v : option Value) :
  (forall m, v <> Some (VMap m)) -> assertMap v = None.
Proof. destruct v as [[]|]; intros H; try reflexivity. destruct (H m eq_refl). Qed.

(** X3.  When the service configuration holds a map under
    [websocket_backends] and, in it, a map under [backends], the registry
    [InitializeBackendRegistry] installs holds a name exactly when that map
    gives the name a string, and holds that string; entries that are no
    strings are left out.  What the registry held before plays no part. *)
Theorem InitializeBackendRegistry_registers_strings
    (serviceExtraConfig registryMap backendsMap : gmap string Value)
    (before : option BackendRegistry) :
  serviceExtraConfig !! "websocket_backends" = Some (VMap registryMap) ->
  registryMap !! "backends" = Some (VMap backendsMap) ->
  exists registry,
    InitializeBackendRegistry serviceExtraConfig before = Some registry /\
    forall name url,
      Backends registry !! name = Some url <-> backendsMap !! name = Some (VString url).
Proof.
  intros Hreg Hbackends. unfold InitializeBackendRegistry. rewrite Hreg. cbn [assertMap].
  rewrite Hbackends. cbn [assertMap]. eexists. split; [reflexivity|].
  intros name url. cbn [Backends]. rewrite lookup_omap.
  destruct (backendsMap !! name) as [[]|]; cbn; split; congruence.
Qed.

(** X4.  [InitializeBackendRegistry] replaces the registry or keeps it, and
    never merges.  Without a map under [websocket_backends] a registry that
    is there stays as it is and a nil one becomes the empty registry.  With a
    map there the result does not depend on the registry before, and it is
    the empty registry when the map has no map under [backends]: the names
    registered earlier are gone.  The registry is never nil afterwards, and
    a second call with the same configuration changes nothing. *)
Theorem InitializeBackendRegistry_replaces_or_keeps
    (serviceExtraConfig : gmap string Value) (before : option BackendRegistry) :
  ((forall registryMap, serviceExtraConfig !! "websocket_backends" <> Some (VMap registryMap)) ->
   InitializeBackendRegistry serviceExtraConfig before
   = Some (default {| Backends := ∅ |} before)) /\
  (forall registryMap,
     serviceExtraConfig !! "websocket_backends" = Some (VMap registryMap) ->
     (forall before',
        InitializeBackendRegistry serviceExtraConfig before'
        = InitializeBackendRegistry serviceExtraConfig before) /\
     ((forall backendsMap, registryMap !! "backends" <> Some (VMap backendsMap)) ->
      InitializeBackendRegistry serviceExtraConfig before = Some {| Backends := ∅ |})) /\
  InitializeBackendRegistry serviceExtraConfig before <> None /\
  InitializeBackendRegistry serviceExtraConfig
    (InitializeBackendRegistry serviceExtraConfig before)
  = InitializeBackendRegistry serviceExtraConfig before.
Proof.
  unfold InitializeBackendRegistry. split; [|split; [|split]].
  - intros Hno. rewrite (assertMap_None _ Hno). destruct before; reflexivity.
  - intros registryMap Hreg. rewrite Hreg. cbn [assertMap]. split; [reflexivity|].
    intros Hno. rewrite (assertMap_None _ Hno). reflexivity.
  - destruct (assertMap (serviceExtraConfig !! "websocket_backends")); [discriminate|].
    destruct before; discriminate.
  - destruct (assertMap (serviceExtraConfig !! "websocket_backends")); [reflexivity|].
    destruct before; reflexivity.
Qed.

Lemma getAvailableBackendsIn_names (entries : list (string * string)) (backends : list string) :
  foldl (fun backends '(name, _) => backends ++ [name]) backends entries
  = backends ++ entries.*1.
Proof.
  revert backends. induction entries as [|[name url] entries IH]; intros backends.
  - cbn. rewrite app_nil_r. reflexivity.
  - cbn [foldl fmap list_fmap fst]. rewrite IH, <- app_assoc. reflexivity.
Qed.

Lemma getAvailableBackends_reverse (registry : BackendRegistry) :
  map_fold (fun name (_ : string) backends => backends ++ [name]) [] (Backends registry)
  = reverse ((map_to_list (Backends registry)).*1).
Proof.
  rewrite map_fold_foldr.
  induction (map_to_list (Backends registry)) as [|[name url] entries IH]; [reflexivity|].
  cbn [foldr uncurry fmap list_fmap fst]. rewrite IH, reverse_cons. reflexivity.
Qed.

(** X5.  [getAvailableBackends] is the empty list for a nil registry.
    Otherwise, in whatever order the registry is visited, the loop gives the
    names in that order, and the list returned has every name of the
    registry once and nothing else; a name on the list is one
    [deriveWebSocketURL] resolves from the registry. *)
Theorem getAvailableBackends_lists_registry :
  match globalBackendRegistry with
  | None => getAvailableBackends = []
  | Some registry =>
      (forall entries,
         entries ≡ₚ map_to_list (Backends registry) ->
         getAvailableBackendsIn entries = entries.*1
         /\ getAvailableBackendsIn entries ≡ₚ getAvailableBackends)
      /\ NoDup getAvailableBackends
      /\ length getAvailableBackends = size (Backends registry)
      /\ (forall name, name ∈ getAvailableBackends <-> is_Some (Backends registry !! name))
      /\ (forall name backendPath forceScheme,
            name ∈ getAvailableBackends ->
            exists registryURL,
              Backends registry !! name = Some registryURL
              /\ deriveWebSocketURL name backendPath forceScheme
                 = inl (registryURL +:+ backendPath))
  end.
Proof.
  unfold getAvailableBackends, deriveWebSocketURL.
  destruct globalBackendRegistry as [registry|]; [|reflexivity].
  rewrite getAvailableBackends_reverse.
  assert (Hin : forall name,
            name ∈ reverse ((map_to_list (Backends registry)).*1)
            <-> is_Some (Backends registry !! name)).
  { intros name. rewrite elem_of_reverse, list_elem_of_fmap. split.
    - intros ([name' url] & -> & Hin). apply elem_of_map_to_list in Hin. cbn. eauto.
    - intros [url Hurl]. exists (name, url). split; [reflexivity|].
      apply elem_of_map_to_list, Hurl. }
  split; [|split; [|split; [|split]]].
  - intros entries Hperm. unfold getAvailableBackendsIn.
    rewrite getAvailableBackendsIn_names. cbn [app]. split; [reflexivity|].
    rewrite reverse_Permutation, Hperm. reflexivity.
  - rewrite reverse_Permutation. apply NoDup_fst_map_to_list.
  - rewrite length_reverse, length_fmap. apply length_map_to_list.
  - exact Hin.
  - intros name backendPath forceScheme Hname. apply Hin in Hname as [registryURL Hurl].
    exists registryURL. rewrite Hurl. split; reflexivity.
Qed.

(** ** Auth headers, once more *)

(** Each of [authHeaderNames] starts with the first of [authHeaderPrefixes]. *)
Lemma authHeaderNames_prefixed (key : string) :
  strings.isASCII key = true ->
  existsb (strings.EqualFold key) authHeaderNames = true ->
  strings.HasPrefix (strings.ToUpper key) (strings.ToUpper "X-User-") = true.
Proof.
  intros Hkey. rewrite existsb_In. intros (name & Hin & Hfold).
  apply EqualFold_toLowerASCII in Hfold; [|exact Hkey | apply authHeaderNames_ASCII, Hin].
  rewrite (ToUpper_ASCII _ Hkey), (ToUpper_ASCII "X-User-" eq_refl).
  apply HasPrefix_toUpperASCII. rewrite Hfold.
  destruct Hin as [<-|[<-|[<-|[<-|[<-|[]]]]]];
    [exists "id" | exists "uid" | exists "email" | exists "groups" | exists "type"];
    reflexivity.
Qed.

Lemma isAuthHeader_prefix (key : string) :
  strings.isASCII key = true ->
  isAuthHeader key
  = existsb (fun prefix => strings.HasPrefix (strings.ToUpper key) (strings.ToUpper prefix))
      authHeaderPrefixes.
Proof.
  intros Hkey. unfold isAuthHeader.
  destruct (existsb (strings.EqualFold key) authHeaderNames) eqn:Hnames; [|reflexivity].
  apply (authHeaderNames_prefixed _ Hkey) in Hnames. cbn [orb authHeaderPrefixes existsb].
  rewrite Hnames. reflexivity.
Qed.

(** X6.  For a header name of ASCII bytes the list of exact names in
    [extractAuthHeaders] adds nothing to the three prefixes: each of its
    names starts with [X-User-], so such a header is in the result exactly
    when it has a value and the prefix test of the second loop holds of its
    name for [X-User-], [X-Auth-] or [X-Group-], which is: the lower-case
    form of the name starts with the lower-case form of the prefix. *)
Theorem extractAuthHeaders_prefixes_suffice
    (headers : gmap string (list string)) (key value : string) :
  strings.isASCII key = true ->
  (extractAuthHeaders headers !! key = Some value <->
   (exists rest, headers !! key = Some (value :: rest)) /\
   (exists prefix,
      In prefix ["X-User-"; "X-Auth-"; "X-Group-"]
      /\ strings.HasPrefix (strings.ToUpper key) (strings.ToUpper prefix) = true)) /\
  ((exists prefix,
      In prefix ["X-User-"; "X-Auth-"; "X-Group-"]
      /\ strings.HasPrefix (strings.ToUpper key) (strings.ToUpper prefix) = true) <->
   (exists prefix rest,
      In prefix ["X-User-"; "X-Auth-"; "X-Group-"]
      /\ strings.toLowerASCII key = strings.toLowerASCII prefix +:+ rest)).
Proof.
  intros Hkey. fold authHeaderPrefixes. split.
  - rewrite extractAuthHeaders_lookup, (isAuthHeader_prefix _ Hkey), <- existsb_In.
    destruct (headers !! key) as [[|v vs]|].
    + split; [discriminate | intros [[rest [=]] _]].
    + destruct (existsb _ authHeaderPrefixes).
      * split.
        -- intros [= ->]. split; [eauto | reflexivity].
        -- intros [[rest [= -> ->]] _]. reflexivity.
      * split; [discriminate|]. intros [_ H]. discriminate.
    + split; [discriminate | intros [[rest [=]] _]].
  - split.
    + intros (prefix & Hin & Hp). exists prefix.
      rewrite (ToUpper_ASCII _ Hkey), (ToUpper_ASCII _ (authHeaderPrefixes_ASCII _ Hin)) in Hp.
      apply HasPrefix_toUpperASCII in Hp as [rest Hrest]. eauto.
    + intros (prefix & rest & Hin & Hp). exists prefix. split; [exact Hin|].
      rewrite (ToUpper_ASCII _ Hkey), (ToUpper_ASCII _ (authHeaderPrefixes_ASCII _ Hin)).
      apply HasPrefix_toUpperASCII. eauto.
Qed.

(** X7.  The headers [connectToBackend] sends to the backend, each auth
    header with its one value, are auth headers again: extracting from them
    gives back what was extracted from the request.  A second gateway behind
    the first passes on the same headers. *)
Theorem extractAuthHeaders_of_forwarded (headers : gmap string (list string)) :
  extractAuthHeaders ((fun value => [value]) <$> extractAuthHeaders headers)
  = extractAuthHeaders headers.
Proof.
  apply map_eq. intros key.
  rewrite (extractAuthHeaders_lookup (_ <$> _)), lookup_fmap, extractAuthHeaders_lookup.
  destruct (headers !! key) as [[|value values]|]; cbn; try reflexivity.
  destruct (isAuthHeader key); reflexivity.
Qed.

(** ** Sessions *)

(** The runs of a session, one case per way it can go: no backend array; a
    failed handshake; no address for the backend; a failed dial; a relay. *)
Lemma session_run_cases c cfg p wsConfig authHeaders tr :
  exec (handleWebSocketConnection c cfg p wsConfig authHeaders) tr tt ->
  let connCtx := context.WithCancel context.OfRequest in
  let opts := {| websocket.HTTPHeader := (fun value => [value]) <$> authHeaders |} in
  (config.Backend cfg = []
   /\ tr = [ws (GinJSON 500 {[ "error" := VString "No backend configured" ]}) tt]) \/
  (exists err,
     tr = [ ws (Accept (gin.Request c) (acceptOptions wsConfig)) (inr err);
            ws (GinJSON 400 {[ "error" := VString "WebSocket upgrade failed" ]}) tt ]) \/
  exists conn closed closedClient,
    let accepted :=
      ws (Accept (gin.Request c) (acceptOptions wsConfig)) (inl conn)
      :: readLimitSteps wsConfig conn in
    let failed :=
      [ ws (ConnClose conn 1011 "Backend connection failed") closed;
        ws (Cancel connCtx) tt;
        ws (ConnClose conn 1011 "Internal error") closedClient ] in
    (exists err, backendURL cfg wsConfig = inr err /\ tr = accepted ++ failed) \/
    (exists wsURL err,
       backendURL cfg wsConfig = inl wsURL
       /\ tr = accepted ++ ws (Dial connCtx wsURL opts) (inr err) :: failed) \/
    (exists wsURL backendConn selected,
       backendURL cfg wsConfig = inl wsURL
       /\ tr = accepted
               ++ ws (Dial connCtx wsURL opts) (inl backendConn)
               :: readLimitSteps wsConfig backendConn
               ++ [ ws (Go connCtx conn backendConn "client->backend") tt;
                    ws (Go connCtx backendConn conn "backend->client") tt;
                    ws (Select connCtx) selected;
                    ws (ConnClose backendConn 1000 "Connection closed") closed;
                    ws (Cancel connCtx) tt;
                    ws (ConnClose conn 1011 "Internal error") closedClient ]).
Proof.
  intros H. cbv zeta. apply handleWebSocketConnection_runs in H.
  destruct (config.Backend cfg) as [|backend backends]; [left; auto|]. right.
  destruct H as [(err & ->) | (conn & tr' & closedClient & H & ->)]; [left; eauto|]. right.
  apply handleConnectionLifecycle_runs in H as (tr1 & res & closed & selected & H & ->).
  apply connectToBackend_runs in H. exists conn, closed, closedClient.
  destruct (backendURL cfg wsConfig) as [wsURL|e].
  - cbv zeta in H. destruct H as [(err & -> & ->) | (backendConn & -> & ->)].
    + right; left. exists wsURL, err. split; reflexivity.
    + right; right. exists wsURL, backendConn, selected. split; [reflexivity|].
      cbn [lifecycleSteps app]. rewrite <- !app_assoc. reflexivity.
  - destruct H as [-> ->]. left. exists e. split; reflexivity.
Qed.

(** Splits a run of a session into the five cases of [session_run_cases]. *)
Ltac session_cases H :=
  apply session_run_cases in H; cbv zeta in H;
  destruct H as
    [ [Hnone ->]
    | [ (err & ->)
      | (conn & closed & closedClient &
         [ (err & Hurl & ->)
         | [ (derived & err & Hurl & ->) | (derived & dialed & selected & Hurl & ->) ] ]) ] ].

(** Reads off a run given step by step what it did of each kind. *)
Ltac watch :=
  unfold accepts, dials, opened, readLimits, closes, cancels, reads, written,
         isWsStep, readLimitSteps, onWs, ws;
  repeat match goal with |- context [0 <? MaxMessageSize ?w] =>
           destruct (0 <? MaxMessageSize w)
         end;
  cbn [omap list_omap app map last forallb andb].

(** A relay session, step by step, is a run whenever the endpoint has a
    backend array and an address for the backend. *)
Lemma relay_session_is_run c cfg p wsConfig authHeaders
    wsURL conn backendConn selected closedBackend closedClient :
  config.Backend cfg <> [] ->
  backendURL cfg wsConfig = inl wsURL ->
  let connCtx := context.WithCancel context.OfRequest in
  let opts := {| websocket.HTTPHeader := (fun value => [value]) <$> authHeaders |} in
  exec (handleWebSocketConnection c cfg p wsConfig authHeaders)
    (ws (Accept (gin.Request c) (acceptOptions wsConfig)) (inl conn)
     :: readLimitSteps wsConfig conn
     ++ ws (Dial connCtx wsURL opts) (inl backendConn)
     :: readLimitSteps wsConfig backendConn
     ++ [ ws (Go connCtx conn backendConn "client->backend") tt;
          ws (Go connCtx backendConn conn "backend->client") tt;
          ws (Select connCtx) selected;
          ws (ConnClose backendConn 1000 "Connection closed") closedBackend;
          ws (Cancel connCtx) tt;
          ws (ConnClose conn 1011 "Internal error") closedClient ])
    tt.
Proof.
  intros Hbackend Hurl. cbv zeta. apply handleWebSocketConnection_runs.
  destruct (config.Backend cfg) as [|backend backends]; [contradiction|]. right.
  exists conn,
    (ws (Dial (context.WithCancel context.OfRequest) wsURL
           {| websocket.HTTPHeader := (fun value => [value]) <$> authHeaders |})
        (inl backendConn)
     :: readLimitSteps wsConfig backendConn
     ++ lifecycleSteps context.OfRequest conn (inl backendConn) closedBackend selected),
    closedClient.
  split.
  - apply handleConnectionLifecycle_runs.
    exists (ws (Dial (context.WithCancel context.OfRequest) wsURL
                  {| websocket.HTTPHeader := (fun value => [value]) <$> authHeaders |})
               (inl backendConn)
            :: readLimitSteps wsConfig backendConn),
      (inl backendConn), closedBackend, selected.
    split; [|reflexivity]. apply connectToBackend_runs. rewrite Hurl. right. eauto.
  - cbn [lifecycleSteps app]. rewrite <- !app_assoc. reflexivity.
Qed.

(** X8.  A session in which the dial of the backend succeeded runs in one
    way only.  The client is upgraded first and the backend dialed next, in
    a context derived from the request's and at the address [connectToBackend]
    derived; the relay from client to backend is started, then the one from
    backend to client; [select] waits once; and then, whatever it saw, the
    backend connection is closed with [StatusNormalClosure], the context is
    cancelled, and the client connection is closed last, with
    [StatusInternalError].  Every such sequence is a run. *)
Theorem relay_session_teardown c cfg p wsConfig authHeaders :
  let connCtx := context.WithCancel context.OfRequest in
  let opts := {| websocket.HTTPHeader := (fun value => [value]) <$> authHeaders |} in
  let relayed wsURL conn backendConn selected closedBackend closedClient :=
    ws (Accept (gin.Request c) (acceptOptions wsConfig)) (inl conn)
    :: readLimitSteps wsConfig conn
    ++ ws (Dial connCtx wsURL opts) (inl backendConn)
    :: readLimitSteps wsConfig backendConn
    ++ [ ws (Go connCtx conn backendConn "client->backend") tt;
         ws (Go connCtx backendConn conn "backend->client") tt;
         ws (Select connCtx) selected;
         ws (ConnClose backendConn 1000 "Connection closed") closedBackend;
         ws (Cancel connCtx) tt;
         ws (ConnClose conn 1011 "Internal error") closedClient ] in
  (forall tr ctx wsURL dialOpts backendConn,
     exec (handleWebSocketConnection c cfg p wsConfig authHeaders) tr tt ->
     In (ctx, wsURL, dialOpts, inl backendConn) (dials tr) ->
     ctx = connCtx /\ dialOpts = opts /\ backendURL cfg wsConfig = inl wsURL /\
     exists conn selected closedBackend closedClient,
       tr = relayed wsURL conn backendConn selected closedBackend closedClient) /\
  (forall wsURL conn backendConn selected closedBackend closedClient,
     config.Backend cfg <> [] ->
     backendURL cfg wsConfig = inl wsURL ->
     exec (handleWebSocketConnection c cfg p wsConfig authHeaders)
       (relayed wsURL conn backendConn selected closedBackend closedClient) tt).
Proof.
  cbv zeta. split.
  - intros tr ctx wsURL dialOpts backendConn H Hdial. session_cases H;
      try (exfalso; revert Hdial; watch; cbn [In]; intros Hdial;
           repeat destruct Hdial as [Hdial|Hdial]; congruence).
    assert (Heq : (ctx, wsURL, dialOpts, inl backendConn)
                  = (context.WithCancel context.OfRequest, derived,
                     {| websocket.HTTPHeader := (fun value => [value]) <$> authHeaders |},
                     inl dialed : websocket.Conn + error)).
    { revert Hdial. watch; cbn [In]; intros [Hdial|[]]; congruence. }
    injection Heq as -> -> -> ->. repeat split; [assumption|]. eauto 6.
  - intros wsURL conn backendConn selected closedBackend closedClient.
    apply relay_session_is_run.
Qed.

(** X9.  A session closes what it opened and nothing else: a connection
    is closed in a run exactly when [Accept] or [Dial] handed it out in that
    run.  The context of the session is cancelled once when a client was
    accepted and not at all otherwise, and the last step of a run that
    accepted a client closes that client with [StatusInternalError], also
    after a relay that ended in good order. *)
Theorem session_closes_what_it_opened c cfg p wsConfig authHeaders tr :
  exec (handleWebSocketConnection c cfg p wsConfig authHeaders) tr tt ->
  (forall conn,
     In conn (opened tr) <-> exists code reason, In (conn, code, reason) (closes tr)) /\
  cancels tr = match opened tr with
               | [] => []
               | _ :: _ => [context.WithCancel context.OfRequest]
               end /\
  (forall request acceptOpts conn,
     In (request, acceptOpts, inl conn) (accepts tr) ->
     exists closed, last tr = Some (ws (ConnClose conn 1011 "Internal error") closed)).
Proof.
  intros H. session_cases H; watch; cbn [In]; (split; [|split]); try reflexivity;
    try (intros ? ? ? []; fail);
    try (intros request acceptOpts conn' [[= _ _ <-]|[]]; eauto; fail).
  all: intros conn'; split;
    [ intros Hin; repeat destruct Hin as [Hin|Hin]; try contradiction; subst conn';
      do 2 eexists; repeat (first [left; reflexivity | right])
    | intros (code & reason & Hin); repeat destruct Hin as [Hin|Hin]; try contradiction;
      injection Hin as <- _ _; auto ].
Qed.

(** X10.  The limit on the size of a message is set on every connection of
    a session and on nothing else: when [MaxMessageSize] is positive, the
    calls of [SetReadLimit] in a run are one for each connection handed out,
    in that order, each with [MaxMessageSize]; when it is zero or negative
    no run calls [SetReadLimit], so the limit of the websocket library
    stays. *)
Theorem read_limit_on_every_connection c cfg p wsConfig authHeaders tr :
  exec (handleWebSocketConnection c cfg p wsConfig authHeaders) tr tt ->
  readLimits tr =
  if 0 <? MaxMessageSize wsConfig
  then map (fun conn => (conn, MaxMessageSize wsConfig)) (opened tr)
  else [].
Proof. intros H. session_cases H; watch; reflexivity. Qed.

Lemma forwarded_header_lookup (headers : gmap string (list string)) (key : string)
    (values : list string) :
  ((fun value => [value]) <$> extractAuthHeaders headers) !! key = Some values <->
  exists value rest,
    values = [value] /\ headers !! key = Some (value :: rest) /\ isAuthHeader key = true.
Proof.
  rewrite lookup_fmap, extractAuthHeaders_lookup.
  destruct (headers !! key) as [[|value rest]|]; cbn.
  - split; [discriminate | intros (? & ? & _ & [=] & _)].
  - destruct (isAuthHeader key); cbn.
    + split; [intros [= <-]; eauto | intros (? & ? & -> & [= -> ->] & _); reflexivity].
    + split; [discriminate | intros (? & ? & _ & _ & [=])].
  - split; [discriminate | intros (? & ? & _ & [=] & _)].
Qed.

(** X11.  What the backend gets of an upgrade request.  The handler of a
    WebSocket endpoint dials at most once, in a context derived from the
    request's, at the address [connectToBackend] derived from the endpoint,
    and the headers of the dial are the auth headers of the request and no
    other header: a name is sent exactly when the request has a value for
    it and the name passes the tests of [extractAuthHeaders], and it is
    sent with the first value alone. *)
Theorem upgrade_forwards_auth_headers (standardHandlerFactory : HandlerFactoryT)
    cfg p wsConfig c tr :
  isWebSocketUpgrade (gin.Request c) = true ->
  exec (webSocketHandler standardHandlerFactory cfg p wsConfig c) tr tt ->
  dials tr = [] \/
  exists wsURL headers answer,
    dials tr = [(context.WithCancel context.OfRequest, wsURL,
                 {| websocket.HTTPHeader := headers |}, answer)]
    /\ backendURL cfg wsConfig = inl wsURL
    /\ forall key values,
         headers !! key = Some values <->
         exists value rest,
           values = [value]
           /\ http.Header (gin.Request c) !! key = Some (value :: rest)
           /\ isAuthHeader key = true.
Proof.
  intros Hupgrade H. unfold webSocketHandler in H. rewrite Hupgrade in H. cbn [negb] in H.
  session_cases H; try (left; watch; reflexivity);
    right; exists derived, ((fun value => [value])
                            <$> extractAuthHeaders (http.Header (gin.Request c)));
    eexists; (split; [watch; reflexivity|]); (split; [exact Hurl|]);
    intros key values; apply forwarded_header_lookup.
Qed.

(** The options of the handshake, from the map under [websocket]. *)
Lemma acceptOptions_of_config (extraConfig wsConfigMap : gmap string Value) :
  extraConfig !! "websocket" = Some (VMap wsConfigMap) ->
  acceptOptions (fst (parseWebSocketConfig extraConfig)) =
  {| websocket.Subprotocols :=
       match wsConfigMap !! "subprotocols" with
       | Some (VList subprotocols) =>
           omap (fun sp => match sp with VString spStr => Some spStr | _ => None end)
             subprotocols
       | _ => []
       end;
     websocket.InsecureSkipVerify := true;
     websocket.CompressionMode :=
       match wsConfigMap !! "compression" with
       | Some (VBool true) => websocket.CompressionContextTakeover
       | _ => websocket.CompressionNoContextTakeover
       end |}.
Proof.
  intros Hns. rewrite (parseWebSocketConfig_fields _ _ Hns).
  unfold acceptOptions. cbn [fst Subprotocols Compression].
  destruct (wsConfigMap !! "subprotocols") as [[]|];
    destruct (wsConfigMap !! "compression") as [[|[]| | | |]|]; reflexivity.
Qed.

(** X12.  The handshake with the client, from the configuration of the
    endpoint.  On an upgrade request the handler of a WebSocket endpoint
    either has no backend array and makes no handshake, or starts with the
    handshake and makes no other.  The subprotocols it offers are the
    strings of the array under [subprotocols], in order, what is no string
    being left out; the compression mode keeps the context only when
    [compression] is [true]; and the check of the origin is switched off,
    always. *)
Theorem upgrade_handshake_options (standardHandlerFactory : HandlerFactoryT)
    cfg p (wsConfigMap : gmap string Value) :
  config.ExtraConfig cfg !! "websocket" = Some (VMap wsConfigMap) ->
  let wsConfig := fst (parseWebSocketConfig (config.ExtraConfig cfg)) in
  HandlerWrapper standardHandlerFactory cfg p
  = Ret (webSocketHandler standardHandlerFactory cfg p wsConfig) /\
  forall c tr,
    isWebSocketUpgrade (gin.Request c) = true ->
    exec (webSocketHandler standardHandlerFactory cfg p wsConfig c) tr tt ->
    (config.Backend cfg = [] /\ accepts tr = []) \/
    exists answer rest,
      tr = ws (Accept (gin.Request c)
                 {| websocket.Subprotocols :=
                      match wsConfigMap !! "subprotocols" with
                      | Some (VList subprotocols) =>
                          omap (fun sp => match sp with
                                          | VString spStr => Some spStr
                                          | _ => None
                                          end) subprotocols
                      | _ => []
                      end;
                    websocket.InsecureSkipVerify := true;
                    websocket.CompressionMode :=
                      match wsConfigMap !! "compression" with
                      | Some (VBool true) => websocket.CompressionContextTakeover
                      | _ => websocket.CompressionNoContextTakeover
                      end |}) answer
           :: rest
      /\ accepts rest = [].
Proof.
  intros Hns wsConfig. split.
  - unfold HandlerWrapper, wsConfig.
    rewrite (parseWebSocketConfig_fields _ _ Hns). reflexivity.
  - intros c tr Hupgrade H. unfold webSocketHandler in H. rewrite Hupgrade in H.
    cbn [negb] in H. rewrite <- (acceptOptions_of_config _ _ Hns). fold wsConfig.
    clearbody wsConfig.
    session_cases H;
      [ left; split; [exact Hnone | reflexivity]
      | right; eexists _, _; (split; [reflexivity|]); watch; reflexivity .. ].
Qed.

(** X13.  An upgrade request to a WebSocket endpoint goes past the standard
    handler: what the wrapped handler does on such a request is the same
    whatever standard factory was wrapped, and no run of it has a step of
    the host's factory or of the host's handler. *)
Theorem upgrade_bypasses_standard_handler
    (standardHandlerFactory standardHandlerFactory' : HandlerFactoryT) cfg p wsConfig c :
  isWebSocketUpgrade (gin.Request c) = true ->
  webSocketHandler standardHandlerFactory cfg p wsConfig c
  = webSocketHandler standardHandlerFactory' cfg p wsConfig c /\
  forall tr,
    exec (webSocketHandler standardHandlerFactory cfg p wsConfig c) tr tt ->
    forallb isWsStep tr = true.
Proof.
  intros Hupgrade. unfold webSocketHandler. rewrite Hupgrade. cbn [negb].
  split; [reflexivity|]. intros tr H. session_cases H; watch; reflexivity.
Qed.

(** X14.  Three settings of an endpoint are read from the configuration
    and then used by nothing: two configurations that differ in
    [ReadBufferSize], [WriteBufferSize] and [HandshakeTimeout] alone give the
    same handler, step for step, on every request. *)
Theorem unused_settings_change_nothing (standardHandlerFactory : HandlerFactoryT)
    cfg p (wsConfig wsConfig' : Config) c :
  Compression wsConfig = Compression wsConfig' ->
  Subprotocols wsConfig = Subprotocols wsConfig' ->
  BackendScheme wsConfig = BackendScheme wsConfig' ->
  MaxMessageSize wsConfig = MaxMessageSize wsConfig' ->
  webSocketHandler standardHandlerFactory cfg p wsConfig c
  = webSocketHandler standardHandlerFactory cfg p wsConfig' c.
Proof.
  destruct wsConfig, wsConfig'. cbn [Compression Subprotocols BackendScheme MaxMessageSize].
  intros -> -> -> ->. reflexivity.
Qed.

(** ** The address of the backend, once more *)

(** X15.  A string under [backend] in the extra configuration settles the
    shape: without a string under [backend_path] the address is an error,
    with no falling back on the backend array, and the array plays no part in
    the address, whatever hosts it lists. *)
Theorem backendURL_named_shape_first (cfg : config.EndpointConfig) (wsConfig : Config)
    (backendName : string) :
  config.ExtraConfig cfg !! "backend" = Some (VString backendName) ->
  ((forall backendPath,
      config.ExtraConfig cfg !! "backend_path" <> Some (VString backendPath)) ->
   backendURL cfg wsConfig = inr (errorString "no backend_path configured in endpoint")) /\
  (forall backends,
     backendURL {| config.Endpoint := config.Endpoint cfg;
                   config.ExtraConfig := config.ExtraConfig cfg;
                   config.Backend := backends |} wsConfig
     = backendURL cfg wsConfig).
Proof.
  intros Hname. unfold backendURL. cbn [config.ExtraConfig]. rewrite Hname.
  cbn [assertString]. split.
  - intros Hpath. rewrite (assertString_None _ Hpath). reflexivity.
  - intros backends. reflexivity.
Qed.

(** The errors of [derivedURL], case by case. *)
Lemma derivedURL_errors (cfg : config.EndpointConfig) (wsConfig : Config) (e : error) :
  derivedURL cfg wsConfig = inr e <->
  ((exists backendName, config.ExtraConfig cfg !! "backend" = Some (VString backendName))
   /\ (forall backendPath,
         config.ExtraConfig cfg !! "backend_path" <> Some (VString backendPath))
   /\ e = errorString "no backend_path configured in endpoint") \/
  ((forall backendName, config.ExtraConfig cfg !! "backend" <> Some (VString backendName))
   /\ ((config.Backend cfg = []
        /\ e = errorString "no backend configured for WebSocket endpoint") \/
       (exists backend backends,
          config.Backend cfg = backend :: backends
          /\ ((config.Host backend = []
               /\ e = errorString "no host configured in backend") \/
              (exists httpHost hosts err,
                 config.Host backend = httpHost :: hosts
                 /\ url_Parse httpHost = inr err
                 /\ e = wrapError ("failed to parse backend host " +:+ httpHost +:+ ": ")
                         err))))).
Proof.
  unfold derivedURL, convertHTTPToWebSocketURL. split.
  - destruct (config.ExtraConfig cfg !! "backend") as [[| | |backendName| |]|] eqn:Hname;
      cbn [assertString].
    4: { destruct (assertString (config.ExtraConfig cfg !! "backend_path")) as [backendPath|]
           eqn:Hpath.
         - destruct (deriveWebSocketURL_succeeds backendName backendPath
                       (BackendScheme wsConfig)) as [wsURL ->]. discriminate.
         - intros [= <-]. left. split; [eauto|]. split; [|reflexivity].
           intros backendPath Hp. rewrite Hp in Hpath. discriminate. }
    all: intros H; right; split; [discriminate|];
      destruct (config.Backend cfg) as [|backend backends];
      [ left; injection H as <-; auto
      | right; exists backend, backends; split; [reflexivity|];
        destruct (config.Host backend) as [|httpHost hosts] eqn:Hhost;
        [ left; injection H as <-; auto
        | destruct (url_Parse httpHost) as [parsedURL|err] eqn:Hparse;
          [ discriminate
          | right; injection H as <-; eauto 8 ] ] ].
  - intros [([backendName Hname] & Hpath & ->) | (Hshape & Hcase)].
    + rewrite Hname. cbn [assertString]. rewrite (assertString_None _ Hpath). reflexivity.
    + rewrite (assertString_None _ Hshape).
      destruct Hcase as [[-> ->] | (backend & backends & -> & Hhost)]; [reflexivity|].
      destruct Hhost as [[-> ->] | (httpHost & hosts & err & -> & -> & ->)]; reflexivity.
Qed.

(** X19.  Why an endpoint has no address.  [connectToBackend] gives up
    before the dial with the error [e] in five cases, and in each of them it
    does, with that error: a name without a path; no name and an empty
    backend array; no name and a first backend without a host; no name and a
    first host [url.Parse] rejects; and, when a scheme is forced, the address
    derived for the endpoint being one [url.Parse] rejects.  The error says
    which, and wraps the error of [url.Parse]. *)
Theorem backendURL_errors (cfg : config.EndpointConfig) (wsConfig : Config) (e : error) :
  backendURL cfg wsConfig = inr e <->
  ((exists backendName, config.ExtraConfig cfg !! "backend" = Some (VString backendName))
   /\ (forall backendPath,
         config.ExtraConfig cfg !! "backend_path" <> Some (VString backendPath))
   /\ e = errorString "no backend_path configured in endpoint") \/
  ((forall backendName, config.ExtraConfig cfg !! "backend" <> Some (VString backendName))
   /\ ((config.Backend cfg = []
        /\ e = errorString "no backend configured for WebSocket endpoint") \/
       (exists backend backends,
          config.Backend cfg = backend :: backends
          /\ ((config.Host backend = []
               /\ e = errorString "no host configured in backend") \/
              (exists httpHost hosts err,
                 config.Host backend = httpHost :: hosts
                 /\ url_Parse httpHost = inr err
                 /\ e = wrapError ("failed to parse backend host " +:+ httpHost +:+ ": ")
                         err))))) \/
  (BackendScheme wsConfig <> ""
   /\ exists derived err,
        derivedURL cfg wsConfig = inl derived
        /\ url_Parse derived = inr err
        /\ e = wrapError "failed to parse WebSocket URL: " err).
Proof.
  rewrite backendURL_derivedURL. split.
  - destruct (derivedURL cfg wsConfig) as [derived|err] eqn:Hderived.
    + destruct (String.eqb_spec (BackendScheme wsConfig) "") as [Hs|Hs]; [discriminate|].
      destruct (url_Parse derived) as [parsedURL|err] eqn:Hparse; [discriminate|].
      intros [= <-]. right. right. eauto 6.
    + intros [= <-]. apply derivedURL_errors in Hderived.
      destruct Hderived as [H|H]; [left | right; left]; exact H.
  - intros [H | [H | (Hforced & derived & err & -> & Hparse & ->)]].
    + rewrite (proj2 (derivedURL_errors cfg wsConfig e) (or_introl H)). reflexivity.
    + rewrite (proj2 (derivedURL_errors cfg wsConfig e) (or_intror H)). reflexivity.
    + apply String.eqb_neq in Hforced. rewrite Hforced, Hparse. reflexivity.
Qed.

(** X16.  From start-up to the dial.  [NewWithConfig] returns the factory
    [New] returns, and when the service configuration gives a name a string
    under [websocket_backends], [backends], and the registry is still as
    [NewWithConfig] left it, an endpoint in the named-backend shape with that
    name and no forced scheme is dialed at the registered string followed by
    the path: every run of [connectToBackend] makes that one dial. *)
Theorem NewWithConfig_registers_backends (handlerFactory : HandlerFactoryT)
    (serviceExtraConfig registryMap backendsMap : gmap string Value)
    (before : option BackendRegistry) (backendName registryURL : string) :
  serviceExtraConfig !! "websocket_backends" = Some (VMap registryMap) ->
  registryMap !! "backends" = Some (VMap backendsMap) ->
  backendsMap !! backendName = Some (VString registryURL) ->
  globalBackendRegistry = fst (NewWithConfig handlerFactory serviceExtraConfig before) ->
  snd (NewWithConfig handlerFactory serviceExtraConfig before) = New handlerFactory /\
  forall cfg wsConfig backendPath,
    config.ExtraConfig cfg !! "backend" = Some (VString backendName) ->
    config.ExtraConfig cfg !! "backend_path" = Some (VString backendPath) ->
    BackendScheme wsConfig = "" ->
    backendURL cfg wsConfig = inl (registryURL +:+ backendPath) /\
    forall ctx authHeaders tr res,
      exec (connectToBackend ctx cfg wsConfig authHeaders) tr res ->
      exists answer,
        dials tr = [(ctx, registryURL +:+ backendPath,
                     {| websocket.HTTPHeader := (fun value => [value]) <$> authHeaders |},
                     answer)].
Proof.
  intros Hreg Hbackends Hname Hglobal. split; [reflexivity|].
  intros cfg wsConfig backendPath Hbackend Hpath Hscheme.
  assert (Hurl : backendURL cfg wsConfig = inl (registryURL +:+ backendPath)).
  { unfold backendURL, deriveWebSocketURL. rewrite Hbackend, Hpath, Hscheme, Hglobal.
    cbn [assertString fst NewWithConfig]. unfold InitializeBackendRegistry.
    rewrite Hreg. cbn [assertMap]. rewrite Hbackends. cbn [assertMap Backends].
    rewrite lookup_omap, Hname. reflexivity. }
  split; [exact Hurl|].
  intros ctx authHeaders tr res H. apply connectToBackend_runs in H. rewrite Hurl in H.
  destruct H as [(err & -> & _) | (conn & -> & _)]; eexists; watch; reflexivity.
Qed.

(** ** The relay loop, once more *)

(** X17.  What a relay loses.  In a run of [proxyMessages] that returns,
    the messages written to [dest] without an error are the messages read
    from [src], in that order, or all of them but the last, the one whose
    write failed.  The loop closes no connection and cancels no context:
    tearing down is left to [handleConnectionLifecycle]. *)
Theorem proxyMessages_loses_at_most_one ctx src dest direction tr err :
  exec (proxyMessages ctx src dest direction) tr err ->
  exists msgs,
    written tr = map (fun m => (dest, m)) msgs /\
    (reads tr = map (fun m => (src, m)) msgs
     \/ exists m, reads tr = map (fun m => (src, m)) (msgs ++ [m])) /\
    closes tr = [] /\ cancels tr = [].
Proof.
  remember (length tr) as n eqn:Hn. revert tr Hn.
  induction n as [n IH] using lt_wf_ind. intros tr Hn H.
  apply proxyMessages_unfold in H as [Hend | ([typ payload] & tr' & -> & H)].
  - exists []. destruct Hend as [reason | e | [typ payload] e]; watch;
      repeat split; try (left; reflexivity).
    right. exists (typ, payload). reflexivity.
  - destruct (IH (length tr')) with (tr := tr') as (msgs & Hw & Hr & Hc & Hx);
      [subst n; rewrite length_app; cbn; lia | reflexivity | exact H |].
    exists ((typ, payload) :: msgs). unfold relayRound.
    revert Hw Hr Hc Hx. watch. cbn [fst snd].
    intros -> Hr -> ->. repeat split.
    destruct Hr as [-> | [m ->]]; [left; reflexivity | right; exists m; reflexivity].
Qed.

End Gateway.

#[local] Existing Instance SimpleUnicode.tables.

(* ================================================================== *)
(** * The theorems at work *)

(** C1 on the request a browser sends: [keep-alive, Upgrade] has the token as
    an entry, hence [upgrade] inside its lower-case form, and the request is
    taken for an upgrade. *)
Lemma isWebSocketUpgrade_browser_request :
  isWebSocketUpgrade Sample.upgradeRequest = true.
Proof.
  destruct (isWebSocketUpgrade_iff Sample.upgradeRequest) as (Hiff & _ & Htoken).
  apply Hiff. repeat split.
  - exists "websocket", []. split; reflexivity.
  - destruct (Htoken "keep-alive, Upgrade" " Upgrade") as (pre & post & Hc);
      [reflexivity | right; left; reflexivity | reflexivity |].
    exists "keep-alive, Upgrade", [], pre, post. split; [reflexivity | exact Hc].
  - exists "dGhlIHNhbXBsZSBub25jZQ==", []. split; [reflexivity | discriminate].
Defined.

(** C1 as stated fails, whatever the case tables.  The first request has no
    [Connection] entry that is the token [upgrade], only the value
    [upgraded], and is taken for an upgrade.  The second has the token in a
    second value of its [Connection] header, which [Header.Get] does not
    read, and is not taken for one. *)
Lemma isWebSocketUpgrade_not_token_based :
  (forall tables : unicode.Tables,
     @isWebSocketUpgrade tables Sample.upgradedRequest = true
     /\ UpgradeSpec.tokens
          (UpgradeSpec.values (http.Header Sample.upgradedRequest) "Connection")
        = ["upgraded"]
     /\ @UpgradeSpec.IsUpgrade tables (http.Header Sample.upgradedRequest) = false) /\
  (forall tables : unicode.Tables,
     @isWebSocketUpgrade tables Sample.twoLineRequest = false
     /\ @UpgradeSpec.IsUpgrade tables (http.Header Sample.twoLineRequest) = true).
Proof.
  split; intros tables;
    [apply (@upgradedRequest_taken tables) | apply (@isWebSocketUpgrade_first_value_only tables)].
Qed.

(** C8 on a lower-case name with two values: the first is kept. *)
Lemma extractAuthHeaders_first_value :
  extractAuthHeaders {[ "x-auth-token" := ["t1"; "t2"] ]} !! "x-auth-token" = Some "t1".
Proof.
  destruct extractAuthHeaders_spec as (Hspec & Hascii & _). apply Hspec. split.
  - exists ["t2"]. reflexivity.
  - right. exists "X-Auth-". split; [right; left; reflexivity|].
    destruct (Hascii "x-auth-token" eq_refl) as [_ Hprefix].
    apply (Hprefix "X-Auth-"); [right; left; reflexivity | exists "token"; reflexivity].
Defined.

(** C2 on a run: a text message and a binary one go through, then the
    context is cancelled. *)
Lemma proxyMessages_two_messages_then_cancel :
  let ctx := context.WithCancel context.OfRequest in
  exec (proxyMessages void1 ctx 1%nat 2%nat "client->backend")
    (relayRound void1 ctx 1%nat 2%nat (websocket.MessageText, [Byte.x68; Byte.x69])
     ++ relayRound void1 ctx 1%nat 2%nat (websocket.MessageBinary, [Byte.x00; Byte.xff])
     ++ [ws void1 (CtxDone ctx) (Some (errorString "context canceled"))])
    (errorString "context canceled").
Proof.
  cbv zeta.
  apply (proxyMessages_relays_in_order void1).
  exists [(websocket.MessageText, [Byte.x68; Byte.x69]);
          (websocket.MessageBinary, [Byte.x00; Byte.xff])].
  eexists. split; [reflexivity | constructor].
Defined.

(** C3 on a name that is in neither table. *)
Lemma deriveWebSocketURL_unknown_name :
  deriveWebSocketURL None "orders" "/api/v1/test/" ""
  = inl "ws://localhost:8080/api/v1/test/".
Proof.
  destruct (deriveWebSocketURL_total SimpleURL.Parse SimpleURL.String_ None
              "orders" "/api/v1/test/" "") as (wsURL & Hd & _ & _ & Hf & _).
  rewrite Hd, (Hf eq_refl). reflexivity.
Defined.

(** C3 as stated fails on a registry hit: with no scheme forced, the address
    keeps the scheme of the registry entry, [wss] here and not [ws], and that
    is the address [connectToBackend] goes on to dial. *)
Lemma deriveWebSocketURL_registry_scheme :
  deriveWebSocketURL (Some Sample.secureRegistry) "albus" "/api/v1/chat/" ""
    = inl "wss://chat.internal:8443/api/v1/chat/"
  /\ SimpleURL.schemeOf "wss://chat.internal:8443/api/v1/chat/" = "wss"
  /\ backendURL SimpleURL.Parse SimpleURL.String_ (Some Sample.secureRegistry)
       Sample.namedEndpoint defaultConfig
     = inl "wss://chat.internal:8443/api/v1/chat/".
Proof. vm_compute. repeat split. Qed.

(** C4 on the host-list endpoint: the first host is used, [https] becomes
    [wss], and a forced [ws] overrides it. *)
Lemma backendURL_host_list_sample :
  backendURL SimpleURL.Parse SimpleURL.String_ None Sample.hostListEndpoint defaultConfig
    = inl "wss://audio.internal:8443/converse"
  /\ backendURL SimpleURL.Parse SimpleURL.String_ None Sample.hostListEndpoint
       (set_BackendScheme "ws" defaultConfig)
     = inl "ws://audio.internal:8443/converse".
Proof.
  split.
  - pose proof (backendURL_host_list_and_forced_scheme SimpleURL.Parse SimpleURL.String_ None
                  void1 Sample.hostListEndpoint defaultConfig) as Hthm.
    cbv zeta in Hthm. destruct Hthm as [Hshape _].
    destruct Hshape as [_ Hbackend]; [intros backendName; vm_compute; discriminate|].
    destruct (Hbackend _ _ eq_refl) as [_ Hhost].
    destruct (Hhost _ _ eq_refl) as [_ Hparsed].
    rewrite (Hparsed _ eq_refl). reflexivity.
  - pose proof (backendURL_host_list_and_forced_scheme SimpleURL.Parse SimpleURL.String_ None
                  void1 Sample.hostListEndpoint (set_BackendScheme "ws" defaultConfig))
      as Hthm.
    cbv zeta in Hthm. destruct Hthm as (_ & _ & _ & Hforced & _).
    apply (Hforced ltac:(discriminate)).
    eexists. eexists. split; [vm_compute; reflexivity|].
    split; vm_compute; reflexivity.
Defined.

(** C5 on an endpoint without WebSocket configuration, and on a plain request
    to one with it. *)
Lemma HandlerWrapper_ordinary_traffic :
  let standard : HandlerFactoryT unit void1 := fun _ _ => Ret (fun _ => Ret tt) in
  HandlerWrapper SimpleURL.Parse SimpleURL.String_ None unit void1 standard
    Sample.ordinaryEndpoint tt
  = standard Sample.ordinaryEndpoint tt
  /\ exists wsConfig,
       HandlerWrapper SimpleURL.Parse SimpleURL.String_ None unit void1 standard
         Sample.hostListEndpoint tt
       = Ret (webSocketHandler SimpleURL.Parse SimpleURL.String_ None unit void1 standard
                Sample.hostListEndpoint tt wsConfig)
       /\ webSocketHandler SimpleURL.Parse SimpleURL.String_ None unit void1 standard
            Sample.hostListEndpoint tt wsConfig {| gin.Request := Sample.plainRequest |}
          = ITree.bind (standard Sample.hostListEndpoint tt)
              (fun standardHandler => standardHandler {| gin.Request := Sample.plainRequest |}).
Proof.
  cbv zeta. split.
  - apply (HandlerWrapper_transparent SimpleURL.Parse SimpleURL.String_ None unit void1).
    left. reflexivity.
  - destruct (HandlerWrapper_transparent SimpleURL.Parse SimpleURL.String_ None unit void1
                (fun _ _ => Ret (fun _ => Ret tt)) Sample.hostListEndpoint tt) as [_ H].
    destruct (H _ eq_refl) as (wsConfig & Hw & Hplain).
    exists wsConfig. split; [exact Hw|]. apply Hplain. vm_compute. reflexivity.
Defined.

(** C6 on the blob [{websocket: {compression: true}}]. *)
Lemma parseWebSocketConfig_compression_sample :
  parseWebSocketConfig Sample.compressionConfig
  = (set_Compression true defaultConfig, true).
Proof.
  destruct parseWebSocketConfig_absent_or_compression_only as (_ & _ & H).
  rewrite (H Sample.compressionConfig eq_refl). reflexivity.
Defined.

(** C7 on a blob with a timeout that does not parse and a buffer size that
    is a string: every field stays at its default. *)
Lemma parseWebSocketConfig_lenient_sample :
  Sample.lenientConfig !! "websocket"
    = Some (VMap {[ "handshake_timeout" := VString "invalid";
                    "read_buffer_size" := VString "big";
                    "compression" := VBool false ]})
  /\ exists cfg,
       parseWebSocketConfig Sample.lenientConfig = (cfg, true)
       /\ ReadBufferSize cfg = 1024
       /\ HandshakeTimeout cfg = 10 * 1000000000.
Proof.
  assert (Hns : Sample.lenientConfig !! "websocket"
                 = Some (VMap {[ "handshake_timeout" := VString "invalid";
                                 "read_buffer_size" := VString "big";
                                 "compression" := VBool false ]}))
    by (vm_compute; reflexivity).
  split; [exact Hns|].
  destruct (parseWebSocketConfig_lenient Sample.lenientConfig _ Hns)
    as (cfg & Hcfg & Hread & _ & Htimeout & _).
  exists cfg. split; [exact Hcfg|]. split.
  - apply Hread. intros f. vm_compute. discriminate.
  - apply Htimeout. intros str.
    replace (_ !! "handshake_timeout") with (Some (VString "invalid"))
      by (vm_compute; reflexivity).
    intros [= <-]. vm_compute. reflexivity.
Defined.

(** C9 on a run: the client is upgraded, the dial is refused, and the client
    connection is closed with [StatusInternalError]. *)
Lemma failed_dial_closes_client_sample :
  let connCtx := context.WithCancel context.OfRequest in
  exec (handleWebSocketConnection SimpleURL.Parse SimpleURL.String_ None unit void1
          {| gin.Request := Sample.upgradeRequest |} Sample.hostListEndpoint tt defaultConfig
          {[ "X-User-Id" := "u1" ]})
    [ ws void1 (Accept Sample.upgradeRequest (acceptOptions defaultConfig)) (inl 7%nat);
      ws void1 (SetReadLimit 7%nat 1048576) tt;
      ws void1 (Dial connCtx "wss://audio.internal:8443/converse"
                  {| websocket.HTTPHeader := {[ "X-User-Id" := ["u1"] ]} |})
         (inr (errorString "connection refused"));
      ws void1 (ConnClose 7%nat 1011 "Backend connection failed") None;
      ws void1 (Cancel connCtx) tt;
      ws void1 (ConnClose 7%nat 1011 "Internal error") None ]
    tt.
Proof.
  cbv zeta.
  destruct (backend_failure_closes_client SimpleURL.Parse SimpleURL.String_ None unit void1
              {| gin.Request := Sample.upgradeRequest |} Sample.hostListEndpoint tt
              defaultConfig {[ "X-User-Id" := "u1" ]})
    as (Hsession & Hlifecycle & Hconnect).
  apply Hsession; [discriminate|]. right.
  exists 7%nat.
  exists [ ws void1 (Dial (context.WithCancel context.OfRequest)
                       "wss://audio.internal:8443/converse"
                       {| websocket.HTTPHeader := {[ "X-User-Id" := ["u1"] ]} |})
              (inr (errorString "connection refused"));
           ws void1 (ConnClose 7%nat 1011 "Backend connection failed") None;
           ws void1 (Cancel (context.WithCancel context.OfRequest)) tt ].
  exists None. split; [|reflexivity].
  apply Hlifecycle. left.
  eexists [_], _, None. split; [|reflexivity].
  apply Hconnect. right.
  exists "wss://audio.internal:8443/converse", (errorString "connection refused").
  split; [vm_compute; reflexivity|]. split; reflexivity.
Defined.

(** C10 on the named-backend endpoint, which has no [backend] array. *)
Lemma upgrade_without_backend_array_sample :
  let standard : HandlerFactoryT unit void1 := fun _ _ => Ret (fun _ => Ret tt) in
  parseWebSocketConfig (config.ExtraConfig Sample.namedEndpoint) = (defaultConfig, true)
  /\ isWebSocketUpgrade Sample.upgradeRequest = true
  /\ exec (webSocketHandler SimpleURL.Parse SimpleURL.String_ None unit void1 standard
             Sample.namedEndpoint tt defaultConfig {| gin.Request := Sample.upgradeRequest |})
       [ws void1 (GinJSON 500 {[ "error" := VString "No backend configured" ]}) tt] tt.
Proof.
  cbv zeta. split; [reflexivity|]. split; [vm_compute; reflexivity|].
  apply (upgrade_without_backend_array_is_500 SimpleURL.Parse SimpleURL.String_ None unit void1
           (fun _ _ => Ret (fun _ => Ret tt)) Sample.namedEndpoint tt defaultConfig
           {| gin.Request := Sample.upgradeRequest |});
    [reflexivity | reflexivity | vm_compute; reflexivity | reflexivity].
Defined.

(** ** Further properties at work *)

(** The sample session is a run of the handler on the host-list endpoint. *)
Lemma sampleRelay_session :
  exec (handleWebSocketConnection SimpleURL.Parse SimpleURL.String_ None unit void1
          {| gin.Request := Sample.upgradeRequest |} Sample.hostListEndpoint tt
          (set_Compression true defaultConfig) {[ "X-User-Id" := "u1" ]})
    (sampleRelay void1) tt.
Proof.
  eapply exec_same.
  - apply (relay_session_is_run SimpleURL.Parse SimpleURL.String_ None unit void1
             {| gin.Request := Sample.upgradeRequest |} Sample.hostListEndpoint tt
             (set_Compression true defaultConfig) {[ "X-User-Id" := "u1" ]}
             "wss://audio.internal:8443/converse" 7%nat 8%nat
             (FromErrChan (Some (errorString "EOF"))) None None).
    + discriminate.
    + vm_compute. reflexivity.
  - vm_compute. reflexivity.
Qed.

Lemma sampleRelay_handler :
  exec (webSocketHandler SimpleURL.Parse SimpleURL.String_ None unit void1
          (fun _ _ => Ret (fun _ => Ret tt)) Sample.hostListEndpoint tt
          (set_Compression true defaultConfig) {| gin.Request := Sample.upgradeRequest |})
    (sampleRelay void1) tt.
Proof.
  unfold webSocketHandler.
  replace (isWebSocketUpgrade _) with true by (vm_compute; reflexivity). cbn [negb].
  replace (extractAuthHeaders _) with ({[ "X-User-Id" := "u1" ]} : gmap string string)
    by (vm_compute; reflexivity).
  exact sampleRelay_session.
Qed.

(** The sample relay is a run of [proxyMessages]. *)
Lemma sampleLostMessage_relay :
  exec (proxyMessages void1 (context.WithCancel context.OfRequest) 7%nat 8%nat
          "client->backend")
    (sampleLostMessage void1) (errorString "broken pipe").
Proof.
  apply proxyMessages_unfold. right.
  exists (websocket.MessageText, [Byte.x68; Byte.x69]). eexists. split; [reflexivity|].
  apply proxyMessages_unfold. left.
  apply (relayEnd_write void1 _ _ _ (websocket.MessageBinary, [Byte.x00])).
Qed.

(** X1 on [Sample.sizedConfig]: the limit 65536 and the buffer size -1 are
    read as written. *)
Lemma parseWebSocketConfig_sized_sample :
  MaxMessageSize (fst (parseWebSocketConfig Sample.sizedConfig)) = 65536
  /\ ReadBufferSize (fst (parseWebSocketConfig Sample.sizedConfig)) = -1.
Proof.
  assert (Hns : Sample.sizedConfig !! "websocket"
                = Some (VMap {[ "max_message_size" := VFloat (float64.of_Z 65536);
                                "read_buffer_size" := VFloat (float64.of_Z (-1)) ]}))
    by (vm_compute; reflexivity).
  split.
  - destruct (parseWebSocketConfig_integer_sizes Sample.sizedConfig _ 65536 Hns)
      as (_ & _ & Hmax); [lia|].
    apply Hmax. vm_compute. reflexivity.
  - destruct (parseWebSocketConfig_integer_sizes Sample.sizedConfig _ (-1) Hns)
      as (Hread & _); [lia|].
    apply Hread. vm_compute. reflexivity.
Defined.

(** X2 on [Sample.misspeltConfig]: the misspelt limit and the key of another
    middleware change nothing. *)
Lemma parseWebSocketConfig_misspelt_sample :
  parseWebSocketConfig Sample.misspeltConfig = parseWebSocketConfig Sample.compressionConfig.
Proof.
  apply (parseWebSocketConfig_reads_seven_keys Sample.misspeltConfig Sample.compressionConfig
           {[ "compression" := VBool true; "max_mesage_size" := VFloat (float64.of_Z 16) ]}
           {[ "compression" := VBool true ]}).
  - vm_compute. reflexivity.
  - vm_compute. reflexivity.
  - intros key Hkey. cbn [In] in Hkey.
    destruct Hkey as [<-|[<-|[<-|[<-|[<-|[<-|[<-|[]]]]]]]]; vm_compute; reflexivity.
Defined.

(** X3 on [Sample.serviceConfig]: [albus] is registered, the port number
    under [legacy] is not. *)
Lemma InitializeBackendRegistry_sample :
  exists registry,
    InitializeBackendRegistry Sample.serviceConfig None = Some registry
    /\ Backends registry !! "albus" = Some "ws://albus.internal:9000"
    /\ Backends registry !! "legacy" = None.
Proof.
  destruct (InitializeBackendRegistry_registers_strings Sample.serviceConfig
              {[ "backends" := VMap {[ "albus" := VString "ws://albus.internal:9000";
                                      "legacy" := VFloat (float64.of_Z 8080) ]} ]}
              {[ "albus" := VString "ws://albus.internal:9000";
                 "legacy" := VFloat (float64.of_Z 8080) ]} None)
    as (registry & Hinit & Hlookup); [vm_compute; reflexivity | vm_compute; reflexivity |].
  exists registry. split; [exact Hinit|]. split.
  - apply Hlookup. vm_compute. reflexivity.
  - destruct (Backends registry !! "legacy") as [url|] eqn:Hurl; [|reflexivity].
    apply Hlookup in Hurl. vm_compute in Hurl. discriminate.
Defined.

(** X4 on a service configuration without [websocket_backends]: the
    registry stays. *)
Lemma InitializeBackendRegistry_keeps_sample :
  InitializeBackendRegistry ∅ (Some Sample.secureRegistry) = Some Sample.secureRegistry.
Proof.
  destruct (InitializeBackendRegistry_replaces_or_keeps ∅ (Some Sample.secureRegistry))
    as (Hkeep & _).
  apply Hkeep. intros registryMap. vm_compute. discriminate.
Defined.

(** X5 on [Sample.twoBackends], visited with [chat] first. *)
Lemma getAvailableBackends_sample :
  getAvailableBackendsIn [("chat", "wss://chat.internal:8443");
                          ("albus", "ws://albus.internal:9000")]
  = ["chat"; "albus"].
Proof.
  destruct (getAvailableBackends_lists_registry (Some Sample.twoBackends)) as (Hloop & _).
  apply Hloop. apply NoDup_Permutation.
  - repeat constructor; rewrite ?elem_of_cons, ?elem_of_nil; intuition congruence.
  - apply NoDup_map_to_list.
  - intros [name url]. rewrite elem_of_map_to_list, !elem_of_cons, elem_of_nil.
    unfold Sample.twoBackends. cbn [Backends].
    rewrite lookup_insert_Some, lookup_singleton_Some. intuition congruence.
Defined.

(** X6 on a lower-case name of the list of exact names: the prefix test
    alone places it in the result. *)
Lemma extractAuthHeaders_prefixes_sample :
  extractAuthHeaders {[ "x-user-id" := ["u1"] ]} !! "x-user-id" = Some "u1".
Proof.
  destruct (extractAuthHeaders_prefixes_suffice {[ "x-user-id" := ["u1"] ]}
              "x-user-id" "u1" eq_refl) as [Hiff Hprefix].
  apply Hiff. split; [exists []; reflexivity|].
  apply Hprefix. exists "X-User-", "id". split; [left; reflexivity | reflexivity].
Defined.

(** X8 on the sample session: the successful dial in it fixes the run. *)
Lemma relay_session_sample :
  exists conn selected closedBackend closedClient,
    sampleRelay void1
    = ws void1 (Accept Sample.upgradeRequest
                  (acceptOptions (set_Compression true defaultConfig))) (inl conn)
      :: readLimitSteps void1 (set_Compression true defaultConfig) conn
      ++ ws void1 (Dial (context.WithCancel context.OfRequest)
                     "wss://audio.internal:8443/converse"
                     {| websocket.HTTPHeader :=
                          (fun value => [value]) <$> {[ "X-User-Id" := "u1" ]} |})
            (inl 8%nat)
      :: readLimitSteps void1 (set_Compression true defaultConfig) 8%nat
      ++ [ ws void1 (Go (context.WithCancel context.OfRequest) conn 8%nat "client->backend") tt;
           ws void1 (Go (context.WithCancel context.OfRequest) 8%nat conn "backend->client") tt;
           ws void1 (Select (context.WithCancel context.OfRequest)) selected;
           ws void1 (ConnClose 8%nat 1000 "Connection closed") closedBackend;
           ws void1 (Cancel (context.WithCancel context.OfRequest)) tt;
           ws void1 (ConnClose conn 1011 "Internal error") closedClient ].
Proof.
  destruct (relay_session_teardown SimpleURL.Parse SimpleURL.String_ None unit void1
              {| gin.Request := Sample.upgradeRequest |} Sample.hostListEndpoint tt
              (set_Compression true defaultConfig) {[ "X-User-Id" := "u1" ]})
    as [Honly _].
  apply (Honly (sampleRelay void1) (context.WithCancel context.OfRequest)
           "wss://audio.internal:8443/converse"
           {| websocket.HTTPHeader := (fun value => [value]) <$> {[ "X-User-Id" := "u1" ]} |}
           8%nat sampleRelay_session).
  vm_compute. left. reflexivity.
Defined.

(** X9 on the sample session: connections 7 and 8 were opened, and both
    are closed. *)
Lemma session_closes_sample :
  closes void1 (sampleRelay void1)
  = [(8%nat, 1000, "Connection closed"); (7%nat, 1011, "Internal error")]
  /\ forall conn,
       In conn [7%nat; 8%nat]
       <-> exists code reason, In (conn, code, reason) (closes void1 (sampleRelay void1)).
Proof.
  split; [reflexivity|].
  apply (session_closes_what_it_opened SimpleURL.Parse SimpleURL.String_ None unit void1
           {| gin.Request := Sample.upgradeRequest |} Sample.hostListEndpoint tt
           (set_Compression true defaultConfig) {[ "X-User-Id" := "u1" ]}
           (sampleRelay void1) sampleRelay_session).
Defined.

(** X10 on the sample session: the default limit of 1 MiB on both
    connections. *)
Lemma read_limit_sample :
  readLimits void1 (sampleRelay void1) = [(7%nat, 1048576); (8%nat, 1048576)].
Proof.
  rewrite (read_limit_on_every_connection SimpleURL.Parse SimpleURL.String_ None unit void1
             {| gin.Request := Sample.upgradeRequest |} Sample.hostListEndpoint tt
             (set_Compression true defaultConfig) {[ "X-User-Id" := "u1" ]}
             (sampleRelay void1) sampleRelay_session).
  reflexivity.
Defined.

(** X11 on the sample session: of the four headers of the request only
    [X-User-Id] goes to the backend. *)
Lemma upgrade_forwards_sample :
  exists headers answer,
    dials void1 (sampleRelay void1)
    = [(context.WithCancel context.OfRequest, "wss://audio.internal:8443/converse",
        {| websocket.HTTPHeader := headers |}, answer)]
    /\ headers !! "X-User-Id" = Some ["u1"]
    /\ headers !! "Sec-Websocket-Key" = None.
Proof.
  destruct (upgrade_forwards_auth_headers SimpleURL.Parse SimpleURL.String_ None unit void1
              (fun _ _ => Ret (fun _ => Ret tt)) Sample.hostListEndpoint tt
              (set_Compression true defaultConfig) {| gin.Request := Sample.upgradeRequest |}
              (sampleRelay void1))
    as [Hnone | (wsURL & headers & answer & Hdials & Hurl & Hheaders)];
    [vm_compute; reflexivity | exact sampleRelay_handler | discriminate Hnone |].
  injection Hdials as <- <- <-.
  eexists _, _. split; [reflexivity|]. split; reflexivity.
Defined.

(** X12 on the sample session: compression is on in the configuration
    of the endpoint, so the handshake keeps the compression context. *)
Lemma upgrade_handshake_sample :
  exists answer rest,
    sampleRelay void1
    = ws void1 (Accept Sample.upgradeRequest
                  {| websocket.Subprotocols := [];
                     websocket.InsecureSkipVerify := true;
                     websocket.CompressionMode := websocket.CompressionContextTakeover |})
        answer :: rest
    /\ accepts void1 rest = [].
Proof.
  destruct (upgrade_handshake_options SimpleURL.Parse SimpleURL.String_ None unit void1
              (fun _ _ => Ret (fun _ => Ret tt)) Sample.hostListEndpoint tt
              {[ "compression" := VBool true ]}) as [_ Hruns]; [reflexivity|].
  destruct (Hruns {| gin.Request := Sample.upgradeRequest |} (sampleRelay void1))
    as [[Hnone _] | (answer & rest & Htr & Hrest)];
    [vm_compute; reflexivity | exact sampleRelay_handler | discriminate Hnone |].
  exists answer, rest. split; [exact Htr | exact Hrest].
Defined.

(** X13 on the sample session: every step is a call of [wsE]. *)
Lemma upgrade_bypasses_sample :
  forallb (isWsStep void1) (sampleRelay void1) = true.
Proof.
  destruct (upgrade_bypasses_standard_handler SimpleURL.Parse SimpleURL.String_ None
              unit void1 (fun _ _ => Ret (fun _ => Ret tt)) (fun _ _ => Ret (fun _ => Ret tt))
              Sample.hostListEndpoint tt (set_Compression true defaultConfig)
              {| gin.Request := Sample.upgradeRequest |}) as [_ Hsteps];
    [vm_compute; reflexivity|].
  exact (Hsteps _ sampleRelay_handler).
Defined.

(** X14 on two configurations that differ in the buffer sizes and the
    timeout. *)
Lemma unused_settings_sample :
  let standard : HandlerFactoryT unit void1 := fun _ _ => Ret (fun _ => Ret tt) in
  webSocketHandler SimpleURL.Parse SimpleURL.String_ None unit void1 standard
    Sample.hostListEndpoint tt defaultConfig {| gin.Request := Sample.upgradeRequest |}
  = webSocketHandler SimpleURL.Parse SimpleURL.String_ None unit void1 standard
      Sample.hostListEndpoint tt
      (set_ReadBufferSize 4096 (set_WriteBufferSize 16 (set_HandshakeTimeout 1 defaultConfig)))
      {| gin.Request := Sample.upgradeRequest |}.
Proof.
  cbv zeta.
  apply (unused_settings_change_nothing SimpleURL.Parse SimpleURL.String_ None unit void1);
    reflexivity.
Defined.

(** X15 on [Sample.pathlessEndpoint]: a name without a path is an error,
    though the backend array has a host. *)
Lemma backendURL_pathless_sample :
  backendURL SimpleURL.Parse SimpleURL.String_ None Sample.pathlessEndpoint defaultConfig
  = inr (errorString "no backend_path configured in endpoint").
Proof.
  destruct (backendURL_named_shape_first SimpleURL.Parse SimpleURL.String_ None
              Sample.pathlessEndpoint defaultConfig "albus") as [Hpath _];
    [vm_compute; reflexivity|].
  apply Hpath. intros backendPath. vm_compute. discriminate.
Defined.

(** X19 both ways.  With [Sample.bareRegistry] and a forced [wss] the
    address derived for [Sample.namedEndpoint] does not parse, which is the
    fifth case and gives its error; and the error of
    [Sample.pathlessEndpoint] can only come from the first case. *)
Lemma backendURL_errors_sample :
  backendURL SimpleURL.Parse SimpleURL.String_ (Some Sample.bareRegistry)
    Sample.namedEndpoint (set_BackendScheme "wss" defaultConfig)
  = inr (wrapError "failed to parse WebSocket URL: " (errorString "missing protocol scheme"))
  /\ exists backendName,
       config.ExtraConfig Sample.pathlessEndpoint !! "backend" = Some (VString backendName).
Proof.
  split.
  - apply (backendURL_errors SimpleURL.Parse SimpleURL.String_ (Some Sample.bareRegistry)).
    right. right. split; [discriminate|].
    exists "albus.internal:9000/api/v1/chat/", (errorString "missing protocol scheme").
    split; [vm_compute; reflexivity|]. split; reflexivity.
  - destruct (proj1 (backendURL_errors SimpleURL.Parse SimpleURL.String_ None
                       Sample.pathlessEndpoint defaultConfig
                       (errorString "no backend_path configured in endpoint")))
      as [(Hname & _) | [(Hnone & _) | (Hforced & _)]]; [vm_compute; reflexivity | | |].
    + exact Hname.
    + destruct (Hnone "albus"). vm_compute. reflexivity.
    + destruct Hforced. reflexivity.
Defined.

(** X16 on [Sample.serviceConfig] and [Sample.namedEndpoint]: the
    registered address of [albus] is the one dialed. *)
Lemma NewWithConfig_sample :
  backendURL SimpleURL.Parse SimpleURL.String_
    (InitializeBackendRegistry Sample.serviceConfig None) Sample.namedEndpoint defaultConfig
  = inl "ws://albus.internal:9000/api/v1/chat/".
Proof.
  destruct (NewWithConfig_registers_backends SimpleURL.Parse SimpleURL.String_
              (InitializeBackendRegistry Sample.serviceConfig None) unit void1
              (fun _ _ => Ret (fun _ => Ret tt)) Sample.serviceConfig
              {[ "backends" := VMap {[ "albus" := VString "ws://albus.internal:9000";
                                      "legacy" := VFloat (float64.of_Z 8080) ]} ]}
              {[ "albus" := VString "ws://albus.internal:9000";
                 "legacy" := VFloat (float64.of_Z 8080) ]}
              None "albus" "ws://albus.internal:9000")
    as [_ Hdial];
    [vm_compute; reflexivity | vm_compute; reflexivity | vm_compute; reflexivity
     | reflexivity |].
  destruct (Hdial Sample.namedEndpoint defaultConfig "/api/v1/chat/") as [Hurl _];
    [vm_compute; reflexivity | vm_compute; reflexivity | reflexivity |].
  exact Hurl.
Defined.

(** X17 on the sample relay: two messages read, the first written, the
    second lost with the write that failed. *)
Lemma proxyMessages_lost_message_sample :
  exists msgs,
    written void1 (sampleLostMessage void1) = map (fun m => (8%nat, m)) msgs
    /\ (reads void1 (sampleLostMessage void1) = map (fun m => (7%nat, m)) msgs
        \/ exists m, reads void1 (sampleLostMessage void1)
                     = map (fun m => (7%nat, m)) (msgs ++ [m])).
Proof.
  destruct (proxyMessages_loses_at_most_one void1 _ _ _ _ _ _ sampleLostMessage_relay)
    as (msgs & Hwritten & Hreads & _).
  exists msgs. split; [exact Hwritten | exact Hreads].
Defined.

(** X18 on three headers visited in two orders. *)
Lemma extractAuthHeaders_order_sample :
  extractAuthHeadersIn [("X-User-Id", ["u1"]); ("X-Random", ["x"]); ("X-Auth-Token", ["t1"])]
  = extractAuthHeadersIn [("X-Auth-Token", ["t1"]); ("X-Random", ["x"]); ("X-User-Id", ["u1"])].
Proof.
  assert (Hnodup : forall a b c : string * list string,
            a.1 <> b.1 -> a.1 <> c.1 -> b.1 <> c.1 -> NoDup [a; b; c]).
  { intros a b c Hab Hac Hbc.
    repeat constructor; rewrite ?elem_of_cons, ?elem_of_nil; intuition congruence. }
  assert (Hlookup : forall name values,
            ({[ "X-User-Id" := ["u1"]; "X-Random" := ["x"]; "X-Auth-Token" := ["t1"] ]}
               : gmap string (list string)) !! name = Some values
            <-> (name, values) = ("X-User-Id", ["u1"]) \/ (name, values) = ("X-Random", ["x"])
                \/ (name, values) = ("X-Auth-Token", ["t1"])).
  { intros name values. rewrite !lookup_insert_Some, lookup_singleton_Some.
    intuition congruence. }
  rewrite (extractAuthHeaders_any_order
             {[ "X-User-Id" := ["u1"]; "X-Random" := ["x"]; "X-Auth-Token" := ["t1"] ]}
             [("X-User-Id", ["u1"]); ("X-Random", ["x"]); ("X-Auth-Token", ["t1"])]).
  - symmetry. apply extractAuthHeaders_any_order. apply NoDup_Permutation.
    + apply Hnodup; discriminate.
    + apply NoDup_map_to_list.
    + intros [name values]. rewrite elem_of_map_to_list, Hlookup, !elem_of_cons, elem_of_nil.
      intuition congruence.
  - apply NoDup_Permutation.
    + apply Hnodup; discriminate.
    + apply NoDup_map_to_list.
    + intros [name values]. rewrite elem_of_map_to_list, Hlookup, !elem_of_cons, elem_of_nil.
      intuition congruence.
Defined.
